(** * Coverage aggregation of comment-coverage-clover: a shallow embedding

    The development follows the TypeScript sources module by module:
    - [JSNumber]: the arithmetic of JavaScript numbers (IEEE 754 binary64),
      taken from the Standard Library's executable specification
      [SpecFloat], with [Math.round] and [toFixed(4)] written out;
    - [Types]: [src/types/index.ts] ([Coverage], [Folder], [Stats]);
    - [Clover]: the Clover reader ([fromString] and its helpers);
    - [Main]: [filter], [between] and [checkThreshold] of the action's
      entry point;
    - [Entry]: the folder names of [comment] and the hunks of
      [getPullRequestChanges];
    - [Html]: [src/html/helper.ts] and [src/html/index.ts];
    - [Chart]: [reduce] of [src/chart/index.ts]. *)

From Stdlib Require Import ZArith Lia List Bool String Ascii DecimalString Sorted.
From Stdlib Require Import Permutation DecimalPos.
From Stdlib Require Import Floats.SpecFloat.
Import ListNotations.

Local Open Scope Z_scope.

(* ------------------------------------------------------------------ *)
(** * JavaScript numbers *)

Module JSNumber.

(** A JavaScript number is a binary64 value: 53 bits of precision,
    infinities at exponent 1024. *)
Definition prec : Z := 53.
Definition emax : Z := 1024.

Definition num : Type := spec_float.

Definition NaN : num := S754_nan.

(** Conversion of a mathematical integer (an integer literal of the
    source, or the integer a numeric attribute denotes). *)
Definition of_Z (z : Z) : num := binary_normalize prec emax z 0 false.

Definition add (x y : num) : num := SFadd prec emax x y.
Definition sub (x y : num) : num := SFsub prec emax x y.
Definition mul (x y : num) : num := SFmul prec emax x y.
Definition div (x y : num) : num := SFdiv prec emax x y.

(** [x < y], [x <= y] and friends; every comparison with NaN is false. *)
Definition ltb (x y : num) : bool := SFltb x y.
Definition leb (x y : num) : bool := SFleb x y.
Definition gtb (x y : num) : bool := SFltb y x.
Definition geb (x y : num) : bool := SFleb y x.
(** [x == y] and [x === y] on two numbers. *)
Definition eqb (x y : num) : bool := SFeqb x y.

Definition is_nan (x : num) : bool :=
  match x with S754_nan => true | _ => false end.

(** Truthiness of a number: [0], [-0] and [NaN] are falsy. *)
Definition truthy (x : num) : bool :=
  match x with
  | S754_zero _ | S754_nan => false
  | _ => true
  end.

(** [floor (m * 2^e + 1/2)] for a mantissa [m] and an exponent [e < 0],
    computed on integers. *)
Definition round_half_up (m e : Z) : Z :=
  (2 * m + 2 ^ (- e)) / 2 ^ (1 - e).

(** [Math.round x]: the integer nearest to [x], ties towards plus
    infinity; NaN, the infinities and the zeros are returned unchanged,
    and a result of zero keeps the sign of [x]. *)
Definition round (x : num) : num :=
  match x with
  | S754_finite s m e =>
      if 0 <=? e then x
      else
        let z := round_half_up (if s then Z.neg m else Z.pos m) e in
        if z =? 0 then S754_zero s else of_Z z
  | _ => x
  end.

(** [10^21], from which on [toFixed] prints like [String]. *)
Definition ten21 : num := of_Z (10 ^ 21).

(** The binary64 number nearest to the decimal [n / 10^4], for an integer
    [0 <= n]: what [parseFloat] reads from the digits that [toFixed(4)]
    prints.  The division of [SpecFloat] takes the integer as it is, as a
    mantissa at exponent 0, and rounds the exact quotient once. *)
Definition decimal4 (n : Z) : num :=
  match n with
  | Z.pos p => div (S754_finite false p 0) (of_Z (10 ^ 4))
  | _ => S754_zero false
  end.

(** [parseFloat (x.toFixed(4))].  For a finite [|x| < 10^21], [toFixed]
    picks the integer [n] for which [n / 10^4] is closest to [|x|] (the
    larger one on a tie) and prints [n / 10^4] with the sign of [x], and
    [parseFloat] reads it back; an integral [x] prints as itself.  Both
    zeros print as [0.0000], read back as [0].  The other values print
    so that [parseFloat] gives them back. *)
Definition toFixed4 (x : num) : num :=
  match x with
  | S754_finite s m e =>
      if leb ten21 (SFabs x) then x
      else if 0 <=? e then x
      else
        let r := decimal4 (round_half_up (Z.pos m * 10 ^ 4) e) in
        if s then SFopp r else r
  | S754_zero _ => S754_zero false
  | _ => x
  end.

(** [n:m] is the decimal fraction [n / m] as a binary64 literal. *)
Definition lit (n m : Z) : num := div (of_Z n) (of_Z m).

End JSNumber.

Import JSNumber.

(* ------------------------------------------------------------------ *)
(** * Strings, as the reader uses them *)

Module JSString.

Local Open Scope string_scope.

(** [s.split(c)] for a one-character separator: never empty. *)
Fixpoint split (c : ascii) (s : string) : list string :=
  match s with
  | EmptyString => [EmptyString]
  | String a r =>
      if Ascii.eqb a c then EmptyString :: split c r
      else match split c r with
           | [] => [String a EmptyString]
           | h :: t => String a h :: t
           end
  end.

(** [l.join(sep)]. *)
Definition join (sep : string) (l : list string) : string :=
  String.concat sep l.

(** [s.startsWith(p)]. *)
Definition startsWith (s p : string) : bool := String.prefix p s.

(** [s.includes(p)]: [p] occurs in [s] as a substring. *)
Fixpoint includes (s p : string) : bool :=
  String.prefix p s ||
  match s with
  | EmptyString => false
  | String _ r => includes r p
  end.

(** [s.slice(n)] for [0 <= n]. *)
Fixpoint slice (s : string) (n : nat) : string :=
  match n, s with
  | O, _ => s
  | S k, String _ r => slice r k
  | S _, EmptyString => EmptyString
  end.

(** [s.endsWith(p)]. *)
Definition endsWith (s p : string) : bool :=
  (String.length p <=? String.length s)%nat &&
  String.eqb (slice s (String.length s - String.length p)) p.

(** A string is truthy unless it is empty. *)
Definition truthy (s : string) : bool := negb (String.eqb s "").

(** The decimal print of an integer, as a template literal renders an
    integral number. *)
Definition of_Z (z : Z) : string :=
  DecimalString.NilZero.string_of_int (Z.to_int z).

End JSString.

(* ------------------------------------------------------------------ *)
(** * [src/types/index.ts] *)

Module Types.

(** [class Coverage]. *)
Record Coverage : Type := mkCoverage {
  total : num;
  covered : num;
  percentual : num
}.

(** [new Coverage(total, covered)], on the numbers [Number(total)] and
    [Number(covered)]. *)
Definition newCoverage (total covered : num) : Coverage :=
  {| total := total;
     covered := covered;
     percentual :=
       if eqb total (of_Z 0) then of_Z 1
       else toFixed4 (div covered total) |}.

(** [interface StatsMetrics]. *)
Record StatsMetrics : Type := mkStatsMetrics {
  lines : Coverage;
  methods : Coverage;
  branches : Coverage
}.

(** [keyof StatsMetrics] and the indexing [metrics[type]]. *)
Inductive MetricKind : Type := Lines | Methods | Branches.

Definition metric (m : StatsMetrics) (k : MetricKind) : Coverage :=
  match k with
  | Lines => lines m
  | Methods => methods m
  | Branches => branches m
  end.

(** An entry of [lineCoverage]: the printed line or range and its
    status (0 or 100). *)
Record LineCoverageEntry : Type := mkLineCoverageEntry {
  line : string;
  coverage : Z
}.

Record MethodCoverageEntry : Type := mkMethodCoverageEntry {
  method : string;
  method_coverage : Z
}.

(** [interface FileMetrics]: the three ratios of [StatsMetrics] and the
    two detail sequences. *)
Record FileMetrics : Type := mkFileMetrics {
  ratios :> StatsMetrics;
  lineCoverage : list LineCoverageEntry;
  methodCoverage : list MethodCoverageEntry
}.

(** [interface File]. *)
Record File : Type := mkFile {
  name : string;
  metrics : FileMetrics
}.

(** [class Folder]. *)
Record Folder : Type := mkFolder {
  folder_name : string;
  files : list File
}.

(** [new Folder(name)]. *)
Definition newFolder (n : string) : Folder :=
  {| folder_name := n; files := [] |}.

(** [Folder.push(...files)]: [this.files.push(...files)]. *)
Definition push (d : Folder) (fs : list File) : Folder :=
  {| folder_name := folder_name d; files := files d ++ fs |}.

(** [Folder.get(name)]: the first file of that name. *)
Definition folder_get (d : Folder) (n : string) : option File :=
  find (fun f => String.eqb (name f) n) (files d).

(** A [Map<string, Folder>]: keys are unique and iterate in the order of
    their first insertion. *)
Definition FolderMap : Type := list (string * Folder).

Fixpoint map_get (m : FolderMap) (k : string) : option Folder :=
  match m with
  | [] => None
  | (k', d) :: r => if String.eqb k' k then Some d else map_get r k
  end.

Definition map_has (m : FolderMap) (k : string) : bool :=
  match map_get m k with Some _ => true | None => false end.

(** [m.set(k, d)]: replaces the value in place, or appends a new key. *)
Fixpoint map_set (m : FolderMap) (k : string) (d : Folder) : FolderMap :=
  match m with
  | [] => [(k, d)]
  | (k', d') :: r =>
      if String.eqb k' k then (k', d) :: r else (k', d') :: map_set r k d
  end.

(** [class Stats]. *)
Record Stats : Type := mkStats {
  stats_total : StatsMetrics;
  folders : FolderMap
}.

(** [Stats.get(folder, file)]. *)
Definition stats_get (s : Stats) (folder file : string) : option File :=
  match map_get (folders s) folder with
  | Some d => folder_get d file
  | None => None
  end.

End Types.

Import Types.

(* ------------------------------------------------------------------ *)
(** * The Clover reader *)

Module Clover.

(** [interface CloverXMLMetrics]: the attributes of a [metrics] node that
    the reader uses.  The interface types them as numbers, and the parser
    delivers each as a string: the record holds the number that string
    converts to, which is what the comparisons, products and quotients of
    the reader and [Number] make of it.  An attribute the node lacks
    reads as [undefined], here [None]. *)
Record CloverXMLMetrics : Type := mkCloverXMLMetrics {
  statements : option num;
  coveredstatements : option num;
  methods : option num;
  coveredmethods : option num;
  conditionals : option num;
  coveredconditionals : option num
}.

(** [Number(v)] of an attribute: [undefined] becomes NaN. *)
Definition Number (v : option num) : num :=
  match v with Some x => x | None => NaN end.

(** [v || 0] of an attribute, as the number the arithmetic that follows
    makes of it.  An attribute that is present is a string, truthy unless
    empty, and the empty string converts to 0 like the replacement: the
    number is that of the attribute, or 0 for a missing one. *)
Definition orZero (v : option num) : num :=
  match v with
  | Some x => x
  | None => of_Z 0
  end.

(** A [line] child of a file: [parseInt] of its [num] and [count]
    attributes, its [type] and its [name]. *)
Record CloverLine : Type := mkCloverLine {
  line_num : Z;
  line_count : Z;
  line_type : string;
  line_name : string
}.

(** [interface CloverFileXML], with [_attributes.name], the optional
    [_attributes.path], the metrics and the [line] children (none when
    the property is absent). *)
Record CloverFileXML : Type := mkCloverFileXML {
  attr_name : string;
  attr_path : option string;
  file_metrics : CloverXMLMetrics;
  file_line : list CloverLine
}.

(** [coverage.project], each one-or-many property already through
    [asList]: the root files, the files of each package, the metrics.
    The record stands for the reports in which the project and every file
    have a [metrics] node with attributes, as the interface [CloverXML]
    declares them.  In a report without such a node the reads of
    [.metrics._attributes] in [fromString] and [groupFilesByFolder] throw
    a [TypeError]; such a report is no value of this record. *)
Record CloverProject : Type := mkCloverProject {
  project_file : list CloverFileXML;
  project_package : list (list CloverFileXML);
  project_metrics : CloverXMLMetrics
}.

(** [getAllFiles]. *)
Definition getAllFiles (projectData : CloverProject) : list CloverFileXML :=
  let filesFromRoot := project_file projectData in
  let filesFromPackages :=
    fold_left (fun acc pkg => acc ++ pkg) (project_package projectData) [] in
  filesFromRoot ++ filesFromPackages.

(** [createTotalMetrics]. *)
Definition createTotalMetrics (attributes : CloverXMLMetrics) : StatsMetrics :=
  mkStatsMetrics
    (newCoverage (Number (statements attributes))
                 (Number (coveredstatements attributes)))
    (newCoverage (Number (methods attributes))
                 (Number (coveredmethods attributes)))
    (newCoverage (Number (conditionals attributes))
                 (Number (coveredconditionals attributes))).

(** [normalizeFileNames]: [name = path || name]. *)
Definition normalizeFileNames (files : list CloverFileXML) : list CloverFileXML :=
  map (fun file =>
         let n := match attr_path file with
                  | Some p => if JSString.truthy p then p else attr_name file
                  | None => attr_name file
                  end in
         mkCloverFileXML n (attr_path file) (file_metrics file) (file_line file))
      files.

(** [sortFilesByName]: the comparator is [a.name < b.name ? -1 : 1]; a file
    goes before the first one whose name is strictly greater. *)
Fixpoint insertByName (f : CloverFileXML) (l : list CloverFileXML)
  : list CloverFileXML :=
  match l with
  | [] => [f]
  | g :: r =>
      if String.ltb (attr_name f) (attr_name g) then f :: g :: r
      else g :: insertByName f r
  end.

Definition sortFilesByName (files : list CloverFileXML) : list CloverFileXML :=
  fold_left (fun acc f => insertByName f acc) files [].

(** [extractFolderFromPath]: [split("/").slice(0, -1).join("/")]. *)
Definition extractFolderFromPath (filePath : string) : string :=
  JSString.join "/" (removelast (JSString.split "/" filePath)).

(** [extractFileNameFromPath]: [split("/").pop() || filePath]. *)
Definition extractFileNameFromPath (filePath : string) : string :=
  let l := last (JSString.split "/" filePath) ""%string in
  if JSString.truthy l then l else filePath.

(** [extractFolderPaths]: each file with its [folder]. *)
Definition extractFolderPaths (files : list CloverFileXML)
  : list (CloverFileXML * string) :=
  map (fun file => (file, extractFolderFromPath (attr_name file))) files.

(** A range of [lineGroups]. *)
Record Range : Type := mkRange {
  range_start : Z;
  range_end : Z;
  range_coverage : Z
}.

(** [lineGroups]: an object whose keys are the statuses met so far, ["0"]
    and ["100"], each with its array of ranges (an absent key is the
    empty list: a key is created only to be pushed to at once). *)
Record LineGroups : Type := mkLineGroups {
  group0 : list Range;
  group100 : list Range
}.

(** The update of [lineGroups[key]] for one line: the last range of the
    group grows when it ends just before [lineNum], else a new range is
    pushed. *)
Fixpoint extendGroup (g : list Range) (lineNum cov : Z) : list Range :=
  match g with
  | [] => [mkRange lineNum lineNum cov]
  | [lastRange] =>
      if range_end lastRange =? lineNum - 1
      then [mkRange (range_start lastRange) lineNum (range_coverage lastRange)]
      else [lastRange; mkRange lineNum lineNum cov]
  | r :: g' => r :: extendGroup g' lineNum cov
  end.

Definition lineStatus (l : CloverLine) : Z :=
  if 0 <? line_count l then 100 else 0.

(** The body of [lines.forEach] in [createFileMetrics]. *)
Definition addLine (st : LineGroups * list MethodCoverageEntry) (l : CloverLine)
  : LineGroups * list MethodCoverageEntry :=
  let '(groups, methodCoverage) := st in
  let cov := lineStatus l in
  let groups' :=
    if cov =? 100
    then mkLineGroups (group0 groups) (extendGroup (group100 groups) (line_num l) cov)
    else mkLineGroups (extendGroup (group0 groups) (line_num l) cov) (group100 groups) in
  let methodCoverage' :=
    if String.eqb (line_type l) "method"
    then methodCoverage ++ [mkMethodCoverageEntry (line_name l) cov]
    else methodCoverage in
  (groups', methodCoverage').

(** The printed form of a range. *)
Definition rangeEntry (r : Range) : LineCoverageEntry :=
  mkLineCoverageEntry
    (if range_start r =? range_end r
     then JSString.of_Z (range_start r)
     else (JSString.of_Z (range_start r) ++ "-" ++ JSString.of_Z (range_end r))%string)
    (range_coverage r).

(** [Object.keys(lineGroups)]: both keys are integer indices, which an
    object enumerates in ascending numeric order whatever the order they
    were created in, so the ranges of ["0"] come before those of
    ["100"]. *)
Definition groupsInKeyOrder (groups : LineGroups) : list Range :=
  group0 groups ++ group100 groups.

(** [createFileMetrics]. *)
Definition createFileMetrics (attributes : CloverXMLMetrics)
           (fileData : CloverFileXML) : FileMetrics :=
  let '(lineGroups, methodCoverage) :=
    fold_left addLine (file_line fileData) (mkLineGroups [] [], []) in
  let lineCoverage := map rangeEntry (groupsInKeyOrder lineGroups) in
  mkFileMetrics
    (mkStatsMetrics
       (newCoverage (Number (statements attributes))
                    (Number (coveredstatements attributes)))
       (newCoverage (Number (methods attributes))
                    (Number (coveredmethods attributes)))
       (newCoverage (Number (conditionals attributes))
                    (Number (coveredconditionals attributes))))
    lineCoverage
    methodCoverage.

(** The body of the loop of [groupFilesByFolder]. *)
Definition groupFile (foldersMap : FolderMap) (fileData : CloverFileXML * string)
  : FolderMap :=
  let '(file, folder) := fileData in
  let foldersMap :=
    if negb (map_has foldersMap folder)
    then map_set foldersMap folder (newFolder folder)
    else foldersMap in
  match map_get foldersMap folder with
  | Some folderObj =>
      let fileMetrics := createFileMetrics (file_metrics file) file in
      let fileName := extractFileNameFromPath (attr_name file) in
      map_set foldersMap folder (push folderObj [mkFile fileName fileMetrics])
  | None => foldersMap
  end.

(** [groupFilesByFolder]. *)
Definition groupFilesByFolder (filesWithFolders : list (CloverFileXML * string))
  : FolderMap :=
  fold_left groupFile filesWithFolders [].

(** [processFilesIntoFolders]. *)
Definition processFilesIntoFolders (files : list CloverFileXML) : FolderMap :=
  let normalizedFiles := normalizeFileNames files in
  let sortedFiles := sortFilesByName normalizedFiles in
  let filesWithFolders := extractFolderPaths sortedFiles in
  groupFilesByFolder filesWithFolders.

(** An entry of the [lines] of a touched file: a line number, a string
    ["a-b"] (its first two parts, split at ["-"] and converted with
    [Number], are the bounds), or a string without ["-"]. *)
Inductive LineInfo : Type :=
| LineNumber (n : num)
| LineRange (range_from range_to : num)
| LinePlain.

(** A touched file as [getPullRequestChanges] builds it:
    [{file, lines}]. *)
Record PullRequestFile : Type := mkPullRequestFile {
  pr_file : string;
  pr_lines : list LineInfo
}.

(** [pullRequestFiles]: plain file names, or touched files that each own
    a [lines] property.  The constructor is what [hasLineInfo] finds out
    from the first entry. *)
Inductive PullRequestFiles : Type :=
| FileNames (l : list string)
| FileChanges (l : list PullRequestFile).

Definition pr_length (prs : PullRequestFiles) : nat :=
  match prs with
  | FileNames l => List.length l
  | FileChanges l => List.length l
  end.

(** The six running sums of the attribution loop. *)
Record Sums : Type := mkSums {
  sum_statements : num;
  sum_coveredStatements : num;
  sum_methods : num;
  sum_coveredMethods : num;
  sum_conditionals : num;
  sum_coveredConditionals : num
}.

Definition zeroSums : Sums :=
  mkSums (of_Z 0) (of_Z 0) (of_Z 0) (of_Z 0) (of_Z 0) (of_Z 0).

(** [acc += c], sum by sum, for numbers [c]: what the loop does with the
    rounded estimates. *)
Definition addSums (acc c : Sums) : Sums :=
  mkSums (add (sum_statements acc) (sum_statements c))
         (add (sum_coveredStatements acc) (sum_coveredStatements c))
         (add (sum_methods acc) (sum_methods c))
         (add (sum_coveredMethods acc) (sum_coveredMethods c))
         (add (sum_conditionals acc) (sum_conditionals c))
         (add (sum_coveredConditionals acc) (sum_coveredConditionals c)).

(** The branches that count the whole file, with the six attributes read
    as the numbers the interface types them as.  On the strings the
    parser delivers [+=] appends the attribute to the sum instead of
    adding it ([0 + "100" + "50"] ends as ["010050"]), so the sums of a
    loop that takes one of these branches are not those of this
    definition; what is proved below of the totals is proved where every
    retained file takes the branch of the estimate, or where no file is
    retained. *)
Definition wholeFile (m : CloverXMLMetrics) : Sums :=
  mkSums (Number (statements m)) (Number (coveredstatements m))
         (Number (methods m)) (Number (coveredmethods m))
         (Number (conditionals m)) (Number (coveredconditionals m)).

(** [prFile.lines.map(...).filter(Boolean)]. *)
Definition lineRanges (lines : list LineInfo) : list (num * num) :=
  flat_map (fun lineInfo =>
              match lineInfo with
              | LineNumber n => [(n, n)]
              | LineRange a b => [(a, b)]
              | LinePlain => []
              end) lines.

(** [lineRanges.reduce((sum, range) => sum + (range.end - range.start + 1), 0)]. *)
Definition totalRangeLines (ranges : list (num * num)) : num :=
  fold_left (fun sum range => add sum (add (sub (snd range) (fst range)) (of_Z 1)))
            ranges (of_Z 0).

(** The proportion of one metric: [total > 0 ? totalRangeLines / total : 1]. *)
Definition proportionOf (rangeLines total : num) : num :=
  if gtb total (of_Z 0) then div rangeLines total else of_Z 1.

(** The branch for a touched file with line ranges: what it adds to each
    of the six sums. *)
Definition estimate (m : CloverXMLMetrics) (lines : list LineInfo) : Sums :=
  let totalLines := Number (statements m) in
  let coveredLines := Number (coveredstatements m) in
  let totalRangeLines := totalRangeLines (lineRanges lines) in
  let proportion := proportionOf totalRangeLines totalLines in
  let rangeStatements := round (mul totalLines proportion) in
  let rangeCoveredStatements := round (mul coveredLines proportion) in
  let methodTotal := orZero (methods m) in
  let methodProportion := proportionOf totalRangeLines methodTotal in
  let conditionalTotal := orZero (conditionals m) in
  let conditionalProportion := proportionOf totalRangeLines conditionalTotal in
  mkSums rangeStatements
         rangeCoveredStatements
         (round (mul methodTotal methodProportion))
         (round (mul (Number (coveredmethods m)) methodProportion))
         (round (mul conditionalTotal conditionalProportion))
         (round (mul (Number (coveredconditionals m)) conditionalProportion)).

(** The [w] of [fromString]: the workspace with a closing slash. *)
Definition prefix_of (workspace : string) : string :=
  if JSString.endsWith workspace "/" then workspace else (workspace ++ "/")%string.

(** [name.startsWith(w) ? name.slice(w.length) : name]. *)
Definition stripPrefix (w n : string) : string :=
  if JSString.startsWith n w then JSString.slice n (String.length w) else n.

(** [f.file && f.file.includes(fileName)]. *)
Definition changeMatches (fileName : string) (f : PullRequestFile) : bool :=
  JSString.truthy (pr_file f) && JSString.includes (pr_file f) fileName.

(** The predicate of [allFiles.filter]. *)
Definition isTouched (w : string) (prs : PullRequestFiles) (file : CloverFileXML)
  : bool :=
  let fileName := stripPrefix w (attr_name file) in
  match prs with
  | FileNames l => existsb (fun f => JSString.includes f fileName) l
  | FileChanges l => existsb (changeMatches fileName) l
  end.

(** What one retained file adds to the six sums. *)
Definition contribution (w : string) (prs : PullRequestFiles) (file : CloverFileXML)
  : Sums :=
  let fileName := stripPrefix w (attr_name file) in
  match prs with
  | FileChanges l =>
      match find (changeMatches fileName) l with
      | Some prFile =>
          if (0 <? List.length (pr_lines prFile))%nat
          then estimate (file_metrics file) (pr_lines prFile)
          else wholeFile (file_metrics file)
      | None => wholeFile (file_metrics file)
      end
  | FileNames _ => wholeFile (file_metrics file)
  end.

(** The outcome of a call that may throw. *)
Inductive Outcome (A : Type) : Type :=
| Returns (a : A)
| Throws (e : string).
Arguments Returns {A} a.
Arguments Throws {A} e.

Section Reader.

(** The module constant [workspace]. *)
Variable workspace : string.

(** The XML parser of the [xml-js] package followed by [JSON.parse] and
    the projection [.coverage.project]: it yields the project data or
    throws the parser's error. *)
Variable xml2json : string -> Outcome CloverProject.

(** [parseCloverXML]. *)
Definition parseCloverXML (str : string) : Outcome CloverProject :=
  xml2json str.

(** [fromString] after [parseCloverXML]. *)
Definition fromProject (cloverData : CloverProject) (pullRequestFiles : PullRequestFiles)
  : Stats :=
  let allFiles := getAllFiles cloverData in
  let totalMetrics := createTotalMetrics (project_metrics cloverData) in
  if (0 <? pr_length pullRequestFiles)%nat then
    let w := prefix_of workspace in
    let allFiles := filter (isTouched w pullRequestFiles) allFiles in
    let sums :=
      fold_left (fun acc file => addSums acc (contribution w pullRequestFiles file))
                allFiles zeroSums in
    let totalMetrics :=
      mkStatsMetrics
        (newCoverage (sum_statements sums) (sum_coveredStatements sums))
        (newCoverage (sum_methods sums) (sum_coveredMethods sums))
        (newCoverage (sum_conditionals sums) (sum_coveredConditionals sums)) in
    mkStats totalMetrics (processFilesIntoFolders allFiles)
  else
    mkStats totalMetrics (processFilesIntoFolders allFiles).

(** [fromString]. *)
Definition fromString (str : string) (pullRequestFiles : PullRequestFiles)
  : Outcome Stats :=
  match parseCloverXML str with
  | Throws e => Throws e
  | Returns cloverData => Returns (fromProject cloverData pullRequestFiles)
  end.

End Reader.

End Clover.

(* ------------------------------------------------------------------ *)
(** * The entry point: [filter], [between], [checkThreshold] *)

Module Main.

(** The [onlyWith] argument of [filter]. *)
Record OnlyWith : Type := mkOnlyWith {
  cover : bool;
  coverableLines : bool
}.

(** The [onlyBetween] argument of [filter]; [None] for a falsy [type]. *)
Record OnlyBetween : Type := mkOnlyBetween {
  type : option MetricKind;
  min : num;
  max : num;
  delta : num
}.

(** [v || 0] on a number. *)
Definition orZero (v : num) : num :=
  if JSNumber.truthy v then v else of_Z 0.

(** [between]. *)
Definition between (v min max : num) : bool :=
  leb min (orZero v) && leb (orZero v) max.

(** The filter on files without coverage. *)
Definition withCover (f : File) (folder : string) : bool :=
  negb (eqb (covered (lines (metrics f))) (of_Z 0)).

(** The filter on files without coverable lines. *)
Definition withCoverableLines (f : File) (folder : string) : bool :=
  negb (eqb (total (lines (metrics f))) (of_Z 0)).

(** The filter on the percentage range. *)
Definition inRange (b : OnlyBetween) (k : MetricKind) (f : File) (folder : string)
  : bool :=
  between (mul (percentual (metric (metrics f) k)) (of_Z 100)) (min b) (max b).

(** The filter on the change against the previous statistics [o]. *)
Definition changed (b : OnlyBetween) (k : MetricKind) (o : Stats)
           (f : File) (folder : string) : bool :=
  match stats_get o folder (name f) with
  | None => true
  | Some old =>
      gtb (mul (SFabs (sub (percentual (metric (metrics f) k))
                           (percentual (metric (metrics old) k))))
               (of_Z 100))
          (delta b)
  end.

(** The array [filters] that [filter] builds. *)
Definition filters (onlyWith : OnlyWith) (onlyBetween : OnlyBetween) (o : option Stats)
  : list (File -> string -> bool) :=
  (if cover onlyWith then [withCover] else []) ++
  (if coverableLines onlyWith then [withCoverableLines] else []) ++
  match type onlyBetween with
  | Some k =>
      (if gtb (min onlyBetween) (of_Z 0) || ltb (max onlyBetween) (of_Z 100)
       then [inRange onlyBetween k] else []) ++
      match o with
      | Some o' =>
          if gtb (delta onlyBetween) (of_Z 0)
          then [changed onlyBetween k o'] else []
      | None => []
      end
  | None => []
  end.

(** [filters.reduce((r, fn) => r && fn(f, key), true)]. *)
Definition passes (fs : list (File -> string -> bool)) (key : string) (f : File)
  : bool :=
  fold_left (fun r fn => r && fn f key) fs true.

(** The loop over [s.folders]: each folder keeps the files that pass, and
    a folder left without files is deleted from the map. *)
Definition filterFolders (fs : list (File -> string -> bool)) (m : FolderMap)
  : FolderMap :=
  flat_map (fun entry =>
              let '(key, folder) := entry in
              let kept := List.filter (passes fs key) (files folder) in
              if (List.length kept =? 0)%nat then []
              else [(key, mkFolder (folder_name folder) kept)])
           m.

(** [filter]; the previous statistics [o] are an object of their own. *)
Definition filter (s : Stats) (onlyWith : OnlyWith) (onlyBetween : OnlyBetween)
           (o : option Stats) : Stats :=
  let filters := filters onlyWith onlyBetween o in
  if (List.length filters =? 0)%nat then s
  else mkStats (stats_total s) (filterFolders filters (folders s)).

(** The four limits, module constants of the entry point.  The two
    minimums are [Number(getInput(...))]; the two maximal decreases are
    the input strings themselves: [None] is the empty string, [Some x] a
    non-empty one with [Number] of it [x]. *)
Record Limits : Type := mkLimits {
  minLineCoverage : num;
  minMethodCoverage : num;
  maxLineCoverageDecrease : option num;
  maxMethodCoverageDecrease : option num
}.

(** The four messages [checkThreshold] yields, with the two numbers each
    prints (through [toFixed(2)]). *)
Inductive Message : Type :=
| MinimumLineCoverage (minimum current : num)
| MinimumMethodCoverage (minimum current : num)
| LineCoverageDown (diff maximum : num)
| MethodsCoverageDown (diff maximum : num).

(** [(o.percentual - c.percentual) * 100]. *)
Definition decrease (o c : Coverage) : num :=
  mul (sub (percentual o) (percentual c)) (of_Z 100).

(** The check of one minimum. *)
Definition checkMinimum (msg : num -> num -> Message) (minimum : num) (c : Coverage)
  : list Message :=
  if gtb minimum (mul (percentual c) (of_Z 100))
  then [msg minimum (mul (percentual c) (of_Z 100))]
  else [].

(** The check of one maximal decrease. *)
Definition checkDecrease (msg : num -> num -> Message) (maximum : option num)
           (o c : Coverage) : list Message :=
  match maximum with
  | Some m => if geb (decrease o c) m then [msg (decrease o c) m] else []
  | None => []
  end.

(** [checkThreshold]: the messages in the order they are yielded. *)
Definition checkThreshold (l : Limits) (c : Stats) (o : option Stats) : list Message :=
  checkMinimum MinimumLineCoverage (minLineCoverage l) (lines (stats_total c)) ++
  checkMinimum MinimumMethodCoverage (minMethodCoverage l) (methods (stats_total c)) ++
  match o with
  | None => []
  | Some o' =>
      checkDecrease LineCoverageDown (maxLineCoverageDecrease l)
                    (lines (stats_total o')) (lines (stats_total c)) ++
      checkDecrease MethodsCoverageDown (maxMethodCoverageDecrease l)
                    (methods (stats_total o')) (methods (stats_total c))
  end.

End Main.

(* ------------------------------------------------------------------ *)
(** * The properties under study, as the specification words them *)

Module Spec.

Import Clover.

(** [0 <= x <= 1]. *)
Definition in_unit (x : num) : bool :=
  leb (of_Z 0) x && leb x (of_Z 1).

(** [x] is not negative (it may be NaN). *)
Definition not_negative (x : num) : bool := negb (ltb x (of_Z 0)).

(** The estimate as the specification words it: the one proportion
    [totalRangeLines / fileTotalStatements] (1 when there are no
    statements) applied to the statements, the methods and the
    conditionals alike. *)
Definition claimed_estimate (m : CloverXMLMetrics) (lines : list LineInfo) : Sums :=
  let totalRangeLines := totalRangeLines (lineRanges lines) in
  let fileTotalStatements := Number (statements m) in
  let proportion :=
    if eqb fileTotalStatements (of_Z 0) then of_Z 1
    else div totalRangeLines fileTotalStatements in
  mkSums (round (mul (Number (statements m)) proportion))
         (round (mul (Number (coveredstatements m)) proportion))
         (round (mul (Number (methods m)) proportion))
         (round (mul (Number (coveredmethods m)) proportion))
         (round (mul (Number (conditionals m)) proportion))
         (round (mul (Number (coveredconditionals m)) proportion)).

(** The statistics of nothing: three ratios [Coverage(0, 0)] and no
    folder. *)
Definition emptyStats : Stats :=
  mkStats (mkStatsMetrics (newCoverage (of_Z 0) (of_Z 0))
                          (newCoverage (of_Z 0) (of_Z 0))
                          (newCoverage (of_Z 0) (of_Z 0))) [].




(** A file of 100 statements (40 covered) and 20 methods (10 covered), and
    a change that touches its lines 1 to 10. *)
Definition sample_metrics : CloverXMLMetrics :=
  mkCloverXMLMetrics (Some (of_Z 100)) (Some (of_Z 40))
                     (Some (of_Z 20)) (Some (of_Z 10))
                     (Some (of_Z 0)) (Some (of_Z 0)).

Definition sample_file : CloverFileXML :=
  mkCloverFileXML "/ws/src/a.ts" None sample_metrics [].

Definition sample_project : CloverProject :=
  mkCloverProject [] [[sample_file]] sample_metrics.

Definition sample_changes : PullRequestFiles :=
  FileChanges [mkPullRequestFile "src/a.ts" [LineRange (of_Z 1) (of_Z 10)]].

(** Line records in ascending order of their numbers. *)
Definition ascending (ls : list CloverLine) : Prop :=
  StronglySorted Z.lt (map line_num ls).

(** Ranges in ascending order that cannot be merged: each is well-formed
    and ends at least two lines before the next one starts. *)
Fixpoint separated (g : list Range) : Prop :=
  match g with
  | [] => True
  | r :: g' =>
      range_start r <= range_end r
      /\ match g' with
         | [] => True
         | r' :: _ => range_end r + 1 < range_start r'
         end
      /\ separated g'
  end.

(** Line [n] lies in one of the ranges. *)
Definition covers (g : list Range) (n : Z) : Prop :=
  exists r, In r g /\ range_start r <= n <= range_end r.

(** The line was hit: its status is 100. *)
Definition hit (l : CloverLine) : bool := lineStatus l =? 100.

(** The six line records of the coalescing example: lines 1, 2, 3, 5, 6
    hit and line 4 not. *)
Definition example_lines : list CloverLine :=
  [mkCloverLine 1 1 "stmt" ""; mkCloverLine 2 3 "stmt" "";
   mkCloverLine 3 1 "stmt" ""; mkCloverLine 4 0 "stmt" "";
   mkCloverLine 5 2 "stmt" ""; mkCloverLine 6 1 "stmt" ""].

Definition example_file : CloverFileXML :=
  mkCloverFileXML "/ws/src/a.ts" None sample_metrics example_lines.

(** The line coverage the specification expects for the example. *)
Definition claimed_lineCoverage : list LineCoverageEntry :=
  [mkLineCoverageEntry "1-3" 100; mkLineCoverageEntry "4" 0;
   mkLineCoverageEntry "5-6" 100].

(** The file record that [groupFilesByFolder] pushes for a file. *)
Definition fileRecord (fileData : CloverFileXML * string) : File :=
  mkFile (extractFileNameFromPath (attr_name (fst fileData)))
         (createFileMetrics (file_metrics (fst fileData)) (fst fileData)).

(** Two records of one path, in two packages of a report. *)
Definition first_record : CloverFileXML :=
  mkCloverFileXML "/ws/src/a.ts" None sample_metrics [].

Definition second_record : CloverFileXML :=
  mkCloverFileXML "/ws/src/a.ts" None
    (mkCloverXMLMetrics (Some (of_Z 50)) (Some (of_Z 50)) (Some (of_Z 5))
                        (Some (of_Z 5)) (Some (of_Z 0)) (Some (of_Z 0))) [].

(** The place of a message in the fixed order of the four checks:
    min-line, min-method, max-line-decrease, max-method-decrease. *)
Definition rank (m : Main.Message) : nat :=
  match m with
  | Main.MinimumLineCoverage _ _ => 1
  | Main.MinimumMethodCoverage _ _ => 2
  | Main.LineCoverageDown _ _ => 3
  | Main.MethodsCoverageDown _ _ => 4
  end.

(** The regression check as the specification words it, on whole
    percentages and in exact arithmetic: a violation when the baseline is
    above the current percentage by the maximum or more. *)
Definition claimed_decrease_violation (baseline current maximum : Z) : bool :=
  maximum <=? baseline - current.

(** Statistics without folders whose line ratio is [covered] lines out of
    100. *)
Definition lines_of_100 (covered : Z) : Stats :=
  mkStats (mkStatsMetrics (newCoverage (of_Z 100) (of_Z covered))
                          (newCoverage (of_Z 0) (of_Z 0))
                          (newCoverage (of_Z 0) (of_Z 0))) [].

End Spec.

(* ------------------------------------------------------------------ *)
(** * The entry point: the folder names of [comment] *)

Module Entry.

Import Clover.

(** The first statement of [comment]: every folder of the statistics
    gets, under its own key, its name without the workspace prefix. *)
Definition normalizeFolders (workspace : string) (cStats : Stats) : Stats :=
  let w := prefix_of workspace in
  mkStats (stats_total cStats)
          (map (fun entry =>
                  let '(k, v) := entry in
                  (k, mkFolder (stripPrefix w (folder_name v)) (files v)))
               (folders cStats)).

(** The new side of a hunk header [@@ -a,b +c,d @@] that the pattern of
    [getPullRequestChanges] matched: [parseInt] of the group
    [new_start], and of the group [new_count] when the header has it. *)
Record Hunk : Type := mkHunk {
  new_start : Z;
  new_count : option Z
}.

(** An element of [lines]: the number or the string that
    [getPullRequestChanges] pushes for a hunk. *)
Inductive LineEntry : Type :=
| EntryNumber (n : Z)
| EntryString (s : string).

(** The body of [if (match && match.groups)]: the count defaults to 1,
    the end is [newStart + newCount - 1]; a hunk of one line gives its
    number, any other the string [newStart-newEnd]. *)
Definition hunkEntry (h : Hunk) : LineEntry :=
  let newStart := new_start h in
  let newCount := match new_count h with Some c => c | None => 1 end in
  let newEnd := newStart + newCount - 1 in
  if newStart =? newEnd then EntryNumber newStart
  else EntryString (JSString.of_Z newStart ++ "-" ++ JSString.of_Z newEnd)%string.

(** The loop of [getPullRequestChanges] over the files of the response:
    each file comes with its name and, when it has a patch, the hunk
    headers of the patch that match the pattern, in their order.  A file
    without patch is skipped, and one whose patch gives no line is not
    added. *)
Definition changesOf (data : list (string * option (list Hunk)))
  : list (string * list LineEntry) :=
  flat_map (fun file =>
              match snd file with
              | None => []
              | Some hunks =>
                  let lines := map hunkEntry hunks in
                  if (0 <? List.length lines)%nat then [(fst file, lines)] else []
              end) data.

(** [Number(s)] for a string of decimal digits, the empty string
    included ([Number("")] is 0).  Other strings are outside this
    embedding: [None]. *)
Definition digitsNumber (s : string) : option num :=
  option_map (fun d => of_Z (Z.of_uint d)) (DecimalString.NilEmpty.uint_of_string s).

(** How [fromString] reads an element of [lines]: a number is a line; a
    string with ["-"] is split at ["-"] and its first two parts go
    through [Number]; any other string is dropped. *)
Definition lineInfoOf (lineInfo : LineEntry) : option LineInfo :=
  match lineInfo with
  | EntryNumber n => Some (LineNumber (of_Z n))
  | EntryString s =>
      if JSString.includes s "-" then
        match JSString.split "-" s with
        | a :: b :: _ =>
            match digitsNumber a, digitsNumber b with
            | Some x, Some y => Some (LineRange x y)
            | _, _ => None
            end
        | _ => None
        end
      else Some LinePlain
  end.

End Entry.

(* ------------------------------------------------------------------ *)
(** * [src/html/helper.ts] and [src/html/index.ts]

    A string is the sequence of its code units.  The two calls of
    [toLocaleString], the base URL of the links and the length of a
    string in code units come from outside and are variables here. *)

Module Html.

Local Open Scope string_scope.

(** A value of an attribute: a string or an integral number. *)
Inductive Stringable : Type :=
| Str (s : string)
| Num (n : Z).

(** The double quote. *)
Definition quote : string := String (ascii_of_nat 34) EmptyString.

Definition hexDigit (n : nat) : string :=
  match String.get n "0123456789abcdef" with
  | Some a => String a EmptyString
  | None => EmptyString
  end.

(** [JSON.stringify] on one code unit of a string: the quote and the
    backslash are escaped, the control characters are written by their
    short escape or by [\u00XX]. *)
Definition escape (a : ascii) : string :=
  let n := nat_of_ascii a in
  if (n =? 34)%nat then "\" ++ quote
  else if (n =? 92)%nat then "\\"
  else if (n =? 8)%nat then "\b"
  else if (n =? 12)%nat then "\f"
  else if (n =? 10)%nat then "\n"
  else if (n =? 13)%nat then "\r"
  else if (n =? 9)%nat then "\t"
  else if (n <? 32)%nat then "\u00" ++ hexDigit (n / 16) ++ hexDigit (n mod 16)
  else String a EmptyString.

(** [JSON.stringify] of a value of an attribute. *)
Definition stringify (v : Stringable) : string :=
  match v with
  | Str s => quote ++ String.concat "" (map escape (list_ascii_of_string s)) ++ quote
  | Num n => JSString.of_Z n
  end.

(** [tag(name)(children, attr)]. *)
Definition tag (name : string) (children : list string)
           (attr : option (list (string * Stringable))) : string :=
  "<" ++ name ++
  match attr with
  | Some a =>
      " " ++ JSString.join " " (map (fun kv => fst kv ++ "=" ++ stringify (snd kv)) a)
  | None => ""
  end ++ ">" ++ JSString.join "" children ++ "</" ++ name ++ ">".

(** [c(name)(...children)] and the tags made with it. *)
Definition c (name : string) (children : list string) : string :=
  tag name children None.

Definition details := c "details".
Definition summary := c "summary".
Definition table := c "table".
Definition tbody := c "tbody".
Definition thead := c "thead".
Definition tr := c "tr".
Definition th := c "th".
Definition b := c "b".

Definition td (content : string) (attr : option (list (string * Stringable))) : string :=
  tag "td" [content] attr.

Definition fragment (children : list string) : string := JSString.join "" children.

Definition span (content : string) (attr : option (list (string * Stringable))) : string :=
  tag "span" [content] attr.

Definition a (href content : string) : string :=
  tag "a" [content] (Some [("href", Str href)]).

(** [class Icons]. *)
Record Icons : Type := mkIcons {
  equals : string;
  increased : string;
  decreased : string;
  new : string
}.

Section Report.

(** [p.toLocaleString(lang, {style: "percent", minimumFractionDigits: 2})]. *)
Variable percent : num -> string.

(** [n.toLocaleString(lang, {useGrouping: true})]. *)
Variable grouped : num -> string.

(** The module variable [baseUrl]. *)
Variable baseUrl : string.

(** [s.length]. *)
Variable length : string -> Z.

(** [p2s] on a number. *)
Definition p2s (p : num) (zero : string) : string :=
  if eqb p (of_Z 0) then zero else percent p.

(** [c2s]. *)
Definition c2s (c : Coverage) : string :=
  span (p2s (percentual c) "-")
       (Some [("title", Str (grouped (covered c) ++ " out of " ++ grouped (total c)))]).

(** [compare]. *)
Definition compare (n o : Coverage) (showDelta : bool) (icons : Icons) : string :=
  span (if eqb (percentual n) (percentual o) then equals icons
        else if ltb (percentual n) (percentual o) then decreased icons
        else increased icons)
       (Some [("title",
               Str ("Was " ++ p2s (Main.orZero (percentual o)) "0%" ++ " before" ++
                    if showDelta
                       && negb (eqb (Main.orZero (percentual n)) (Main.orZero (percentual o)))
                    then " (" ++ (if gtb (percentual n) (percentual o) then "+" else "-") ++
                         p2s (SFabs (sub (percentual n) (percentual o))) "-" ++ ")"
                    else ""))]).

(** [compareFile]; [None] is [null]. *)
Definition compareFile (n : Coverage) (o : option Coverage) (icons : Icons) : string :=
  " " ++ match o with
         | None => span (new icons) (Some [("title", Str "new file")])
         | Some o' => compare n o' true icons
         end.

(** The loop of [limitedFragment]. *)
Fixpoint limitedLoop (limit : Z) (noSpaceLeft html : string) (children : list string)
  : string :=
  match children with
  | [] => html
  | s :: rest =>
      if (length s >? limit)%Z then html ++ noSpaceLeft
      else limitedLoop (limit - length s) noSpaceLeft (html ++ s) rest
  end.

(** [limitedFragment]. *)
Definition limitedFragment (limit : Z) (noSpaceLeft : string) (children : list string)
  : string :=
  limitedLoop (limit - length noSpaceLeft) noSpaceLeft "" children.

(** The percentage of a status of [fileDetails]:
    [p2s(coverage === 0 ? 0 : coverage / 100, lang, "0%")]. *)
Definition status2s (coverage : Z) : string :=
  p2s (if (coverage =? 0)%Z then of_Z 0 else div (of_Z coverage) (of_Z 100)) "0%".

(** [fileDetails]. *)
Definition fileDetails (file : File) : string :=
  let lineCoverage := lineCoverage (metrics file) in
  let methodCoverage := methodCoverage (metrics file) in
  fragment
    [table
       [thead [tr [th ["Line"]; th ["Coverage"]]];
        tbody
          (map (fun lc => tr [td (line lc) None;
                              td (status2s (coverage lc)) (Some [("align", Str "right")])])
               lineCoverage
           ++ [if (List.length lineCoverage =? 0)%nat
               then tr [td "No line coverage data available" (Some [("colspan", Num 2)])]
               else ""])%list];
     if (0 <? List.length methodCoverage)%nat
     then fragment
            ["<br />";
             table
               [thead [tr [th ["Method"]; th ["Coverage"]]];
                tbody
                  (map (fun mc => tr [td (method mc) None;
                                      td (status2s (method_coverage mc))
                                         (Some [("align", Str "right")])])
                       methodCoverage)]]
     else ""].

(** The pictograph of a row with details, four code units in the
    source. *)
Definition detailsPictograph : string :=
  String (ascii_of_nat 195) (String (ascii_of_nat 176) (String (ascii_of_nat 197)
  (String (ascii_of_nat 184) (String (ascii_of_nat 226) (String (ascii_of_nat 128)
  (String (ascii_of_nat 156) (String (ascii_of_nat 197) (String (ascii_of_nat 160)
  EmptyString)))))))).

(** [line]; the previous metrics [o] are [None] for [null], and [file]
    is [None] when the argument is left out. *)
Definition line (name : string) (m : FileMetrics) (icons : Icons)
           (o : option FileMetrics) (showDelta showBranchesColumn : bool)
           (file : option File) : string :=
  let createMetricCell (metricKey : MetricKind) : string :=
    let coverage := metric m metricKey in
    let content := c2s coverage in
    let content :=
      match o with
      | Some o' =>
          if showDelta
          then content ++ compareFile coverage (Some (metric o' metricKey)) icons
          else content
      | None => content
      end in
    td content (Some [("align", Str "right")]) in
  let metricKeys :=
    ([Lines; Methods] ++ if showBranchesColumn then [Branches] else [])%list in
  let detailsIcon :=
    match file with
    | Some _ => span detailsPictograph (Some [("style", Str "cursor: pointer;")])
    | None => ""
    end in
  let mainRow :=
    tr (td (fragment [detailsIcon; " "; name]) None :: map createMetricCell metricKeys) in
  let detailsRow :=
    match file with
    | Some f =>
        tr [td (details [summary ["File Details"]; fileDetails f])
               (Some [("colspan", Num (if showBranchesColumn then 4 else 3))])]
    | None => ""
    end in
  fragment [mainRow; detailsRow].

(** [total]: [None] is the [false] of [c.total > 0 && ...]. *)
Definition total (name : string) (icons : Icons) (c : Coverage) (oldC : option Coverage)
  : option string :=
  if gtb (Types.total c) (of_Z 0)
  then Some (fragment [b [name ++ ":"]; " "; c2s c; " ";
                       match oldC with
                       | None => ""
                       | Some o => compare c o false icons
                       end])
  else None.

(** [link]. *)
Definition link (folder file : string) : string :=
  a (baseUrl ++ "/" ++ folder ++ "/" ++ file) file.

(** The [configs] of [html]. *)
Record Configs : Type := mkConfigs {
  withTable : bool;
  deltaPerFile : bool;
  showBranchesColumn : bool;
  icons : Icons
}.

(** [createTableHeader] of [tableWrap]. *)
Definition createTableHeader (showBranchesColumn : bool) : string :=
  tr ([th ["Files"]; th ["Lines"]; th ["Methods"]]
      ++ if showBranchesColumn then [th ["Branches"]] else [])%list.

(** [createFolderRows] of [tableWrap]. *)
Definition createFolderRows (icons : Icons) (o : option Stats)
           (showDelta showBranchesColumn : bool) (folderKey : string) (folder : Folder)
  : list string :=
  let folderRow := tr [td (b [folder_name folder]) (Some [("colspan", Num 4)])] in
  let fileRows :=
    map (fun f =>
           line ("&nbsp; &nbsp;" ++ link (folder_name folder) (name f))
                (metrics f) icons
                (match o with
                 | Some o' => option_map metrics (stats_get o' folderKey (name f))
                 | None => None
                 end)
                showDelta showBranchesColumn (Some f))
        (files folder) in
  folderRow :: fileRows.

(** The row that stands for the rows that did not fit. *)
Definition truncatedRow : string :=
  tr [td (b ["Table truncated to fit comment"]) (Some [("colspan", Num 4)])].

(** [createTableBody] of [tableWrap]. *)
Definition createTableBody (c : Stats) (icons : Icons) (o : option Stats)
           (showDelta showBranchesColumn : bool) : string :=
  if (List.length (folders c) =? 0)%nat
  then tr [td "No files reported or matching filters" (Some [("colspan", Num 4)])]
  else
    let folderRows :=
      fold_left (fun accum item => (accum ++ item)%list)
                (map (fun entry =>
                        createFolderRows icons o showDelta showBranchesColumn
                                         (fst entry) (snd entry))
                     (folders c))
                [] in
    limitedFragment (65536 - 4000) truncatedRow folderRows.

(** [tableWrap], applied to the summary text. *)
Definition tableWrap (c : Stats) (icons : Icons) (o : option Stats)
           (showDelta showBranchesColumn : bool) (summaryText : string) : string :=
  details [summary [summaryText];
           "<br />";
           table [thead [createTableHeader showBranchesColumn];
                  tbody [createTableBody c icons o showDelta showBranchesColumn]]].

(** [createSummaryText] of [html]. *)
Definition createSummaryText (c : Stats) (o : option Stats) (configs : Configs) : string :=
  let metrics :=
    ([total "Lines" (icons configs) (lines (stats_total c))
            (option_map (fun o' => lines (stats_total o')) o);
      total "Methods" (icons configs) (Types.methods (stats_total c))
            (option_map (fun o' => Types.methods (stats_total o')) o)]
     ++ if showBranchesColumn configs
        then [total "Branches" (icons configs) (branches (stats_total c))
                    (option_map (fun o' => branches (stats_total o')) o)]
        else [])%list in
  let metricsText :=
    JSString.join " | "
      (flat_map (fun v => match v with
                          | Some s => if JSString.truthy s then [s] else []
                          | None => []
                          end) metrics) in
  "Summary - " ++ metricsText.

(** [html]. *)
Definition html (c : Stats) (o : option Stats) (configs : Configs) : string :=
  let renderer :=
    if withTable configs
    then tableWrap c (icons configs) o (deltaPerFile configs) (showBranchesColumn configs)
    else fun content => span content None in
  renderer (createSummaryText c o configs).

End Report.

End Html.

(* ------------------------------------------------------------------ *)
(** * [src/chart/index.ts]: the distribution of the files *)

Module Chart.

(** The object that counts the files of each bucket, by what [m[k]]
    gives for a number [k]: a count, or [None] for [undefined].  (The
    order in which the object lists its keys is not part of this.) *)
Definition Buckets : Type := num -> option num.

(** Two numbers name the same property of an object: they are equal as
    numbers (so are [0] and [-0]), or both are NaN. *)
Definition sameKey (x y : num) : bool :=
  eqb x y || (is_nan x && is_nan y).

(** [percs()]: the eleven buckets, each at 0. *)
Definition percs : Buckets :=
  fun k =>
    if existsb (fun b => sameKey k (of_Z b)) [0; 10; 20; 30; 40; 50; 60; 70; 80; 90; 100]
    then Some (of_Z 0) else None.

(** [Object.assign(m, {[perc]: m[perc] + 1})]; [undefined + 1] is NaN. *)
Definition assign (m : Buckets) (perc : num) : Buckets :=
  let v := match m perc with
           | Some x => add x (of_Z 1)
           | None => NaN
           end in
  fun k => if sameKey k perc then Some v else m k.

(** [Math.round((f.metrics.lines.percentual || 0) * 10) * 10]. *)
Definition bucketOf (f : File) : num :=
  mul (round (mul (Main.orZero (percentual (lines (metrics f)))) (of_Z 10))) (of_Z 10).

(** [reduce]. *)
Definition reduce (s : Stats) : Buckets :=
  let files := fold_left (fun files f => files ++ Types.files (snd f)) (folders s) [] in
  fold_left assign (map bucketOf files) percs.

End Chart.

(* ------------------------------------------------------------------ *)
(** * Notions used to state what the reader and the filter guarantee *)

Module Behaviour.

Import Clover.

(** A string without the path separator. *)
Fixpoint no_slash (s : string) : bool :=
  match s with
  | EmptyString => true
  | String a r => negb (Ascii.eqb a "/") && no_slash r
  end.

(** Files in the order [sortFilesByName] aims at: no file has a name
    less than the name of the file before it. *)
Definition sorted_by_name (l : list CloverFileXML) : Prop :=
  Sorted (fun a b => String.ltb (attr_name b) (attr_name a) = false) l.

(** The number of file records that the folders of a map hold. *)
Definition fileCount (m : FolderMap) : nat :=
  list_sum (map (fun entry => List.length (files (snd entry))) m).

(** The key under which [Stats.get] looks a file up: its folder and the
    name of its record. *)
Definition recordKey (fileData : CloverFileXML * string) : string * string :=
  (snd fileData, extractFileNameFromPath (attr_name (fst fileData))).

(** The entry of [methodCoverage] that a line record of type [method]
    produces. *)
Definition methodEntry (l : CloverLine) : MethodCoverageEntry :=
  mkMethodCoverageEntry (line_name l) (lineStatus l).

(** The line record is one of a method. *)
Definition isMethod (l : CloverLine) : bool :=
  String.eqb (line_type l) "method".

(** The length of the strings of a list together. *)
Definition totalLength (length : string -> Z) (l : list string) : Z :=
  fold_right (fun s n => length s + n) 0 l.

(** The metrics that the summary may show, in their order. *)
Definition summaryKinds (showBranchesColumn : bool) : list MetricKind :=
  [Lines; Methods] ++ if showBranchesColumn then [Branches] else [].

(** The name of a metric in the summary. *)
Definition kindName (k : MetricKind) : string :=
  match k with
  | Lines => "Lines"
  | Methods => "Methods"
  | Branches => "Branches"
  end.

(** The sum of the counts of the eleven buckets. *)
Definition sum11 (count : Z -> Z) : Z :=
  count 0 + count 1 + count 2 + count 3 + count 4 + count 5
  + count 6 + count 7 + count 8 + count 9 + count 10.

(** A number that names none of the eleven buckets. *)
Definition noBucket (k : num) : Prop :=
  forall j, 0 <= j <= 10 -> Chart.sameKey k (of_Z (10 * j)) = false.

(** The buckets after some files: each of the eleven holds a count, the
    counts add up to the number of files, and no other key exists. *)
Definition counted (m : Chart.Buckets) (count : Z -> Z) (files : Z) : Prop :=
  (forall j, 0 <= j <= 10 -> 0 <= count j /\ m (of_Z (10 * j)) = Some (of_Z (count j)))
  /\ sum11 count = files
  /\ (forall k, noBucket k -> m k = None).

(** A fraction of four decimals in the unit interval, as the ratio of
    counts [covered <= total] is. *)
Definition fourDecimals (x : num) : Prop :=
  exists n, 0 <= n <= 10 ^ 4 /\ x = decimal4 n.

(** A string without the character [c]. *)
Fixpoint lacks (c : ascii) (s : string) : bool :=
  match s with
  | EmptyString => true
  | String a r => negb (Ascii.eqb a c) && lacks c r
  end.

(** The lines that a list of ranges [(start, end)] spans: the sum of
    [end - start + 1]. *)
Definition rangeLines (l : list (Z * Z)) : Z :=
  fold_right (fun range sum => snd range - fst range + 1 + sum) 0 l.

(** The count of a hunk, 1 when the header gives none. *)
Definition hunkCount (h : Entry.Hunk) : Z :=
  match Entry.new_count h with Some c => c | None => 1 end.

(** The lines that the hunks of a patch add or keep: the sum of their
    counts. *)
Definition hunkLines (hs : list Entry.Hunk) : Z :=
  fold_right (fun h sum => hunkCount h + sum) 0 hs.

(** The range of a hunk, from its start to its last line. *)
Definition hunkRange (h : Entry.Hunk) : Z * Z :=
  (Entry.new_start h, Entry.new_start h + hunkCount h - 1).

End Behaviour.

(* ------------------------------------------------------------------ *)
(** * Facts on binary64 arithmetic

    Counts below [2^53] are normal binary64 numbers; the quotient of two
    of them is followed through the division and the rounding of
    [SpecFloat]. *)

Section NumberFacts.

(** The digit count of [SpecFloat] is [Pos.size]. *)
Lemma digits2_pos_size p : digits2_pos p = Pos.size p.
Proof. induction p; simpl; congruence. Qed.

(** A positive number of [d] binary digits lies in [[2^(d-1), 2^d)]. *)
Lemma digits2_pos_bounds p :
  2 ^ (Z.pos (digits2_pos p) - 1) <= Z.pos p < 2 ^ Z.pos (digits2_pos p).
Proof.
  rewrite digits2_pos_size.
  pose proof (Pos.size_gt p) as Hgt. pose proof (Pos.size_le p) as Hle.
  apply Pos2Z.pos_lt_pos in Hgt. apply Pos2Z.pos_le_pos in Hle.
  rewrite Pos2Z.inj_pow in Hgt, Hle.
  split; [|exact Hgt].
  assert (E : 2 ^ Z.pos (Pos.size p) = 2 * 2 ^ (Z.pos (Pos.size p) - 1)).
  { pose proof (Pos2Z.is_pos (Pos.size p)).
    replace (Z.pos (Pos.size p)) with (Z.succ (Z.pos (Pos.size p) - 1)) at 1 by (unfold Z.succ; ring).
    apply Z.pow_succ_r. lia. }
  rewrite E in Hle. change (Z.pos p~0) with (2 * Z.pos p) in Hle. lia.
Qed.

(** And only [d] has that property. *)
Lemma digits2_pos_unique p d :
  2 ^ (d - 1) <= Z.pos p < 2 ^ d -> Z.pos (digits2_pos p) = d.
Proof.
  intros [Hl Hu]. pose proof (digits2_pos_bounds p) as [Hl' Hu'].
  destruct (Z.lt_trichotomy (Z.pos (digits2_pos p)) d) as [H|[H|H]]; [|exact H|].
  - exfalso. assert (2 ^ Z.pos (digits2_pos p) <= 2 ^ (d - 1)) by (apply Z.pow_le_mono_r; lia). lia.
  - exfalso. assert (d <= 0 \/ 0 < d) as [Hd|Hd] by lia.
    + assert (2 ^ d <= 1). { destruct (Z.eq_dec d 0) as [->|]; [simpl; lia|]. rewrite Z.pow_neg_r by lia. lia. } lia.
    + assert (2 ^ d <= 2 ^ (Z.pos (digits2_pos p) - 1)) by (apply Z.pow_le_mono_r; lia). lia.
Qed.

(** In the normal range the exponent of a number of magnitude [2^e] is
    [e - 53]. *)
Lemma fexp_normal e : -1021 <= e -> fexp 53 1024 e = e - 53.
Proof. unfold fexp, emin. lia. Qed.

(** One shift to the right halves the mantissa. *)
Lemma shr_1_m r : 0 <= shr_m r -> shr_m (shr_1 r) = shr_m r / 2.
Proof.
  destruct r as [m b s]; simpl. intros Hm.
  destruct m as [|p|p]; [reflexivity| |lia].
  destruct p as [p|p|]; simpl.
  - rewrite Pos2Z.inj_xI. apply Z.div_unique with (r := 1); lia.
  - rewrite Pos2Z.inj_xO. apply Z.div_unique with (r := 0); lia.
  - reflexivity.
Qed.

(** The alignment keeps a mantissa of 53 bits and shifts one of 54 bits
    once. *)
Lemma shr_fexp_53_54 m e l :
  2 ^ 52 <= m < 2 ^ 54 -> -1074 <= e ->
  shr_fexp 53 1024 m e l =
  if m <? 2 ^ 53 then (shr_record_of_loc m l, e)
  else (shr_1 (shr_record_of_loc m l), e + 1).
Proof.
  intros Hm He. destruct m as [|p|p]; try lia.
  unfold shr_fexp. cbn [Zdigits2].
  destruct (Z.ltb_spec (Z.pos p) (2 ^ 53)) as [Hlt|Hge].
  - rewrite (digits2_pos_unique p 53) by (change (53 - 1) with 52; lia).
    rewrite fexp_normal by lia.
    replace (53 + e - 53 - e) with 0 by lia. reflexivity.
  - rewrite (digits2_pos_unique p 54) by (change (54 - 1) with 53; lia).
    rewrite fexp_normal by lia.
    replace (54 + e - 53 - e) with 1 by lia. reflexivity.
Qed.

Lemma shr_record_of_loc_m m l : shr_m (shr_record_of_loc m l) = m.
Proof. destruct l as [|[]]; reflexivity. Qed.

(** Rounding to nearest adds at most one unit in the last place. *)
Lemma round_nearest_even_bounds m l :
  m <= round_nearest_even m l <= m + 1.
Proof.
  destruct l as [|[]]; simpl; try lia. destruct (Z.even m); lia.
Qed.

(** The rounding of a mantissa [q] of 53 or 54 bits at exponent [e]: the
    result is a normal number, whose exponent is [e] for 53 bits and
    [e + 1] for 54 bits, or one more with the mantissa [2^52] when the
    rounding carries; measured at exponent [e], it is within 2 of [q]. *)
Lemma binary_round_aux_53_54 q e l :
  2 ^ 52 <= q < 2 ^ 54 -> -1074 <= e <= 900 ->
  exists m' e', binary_round_aux 53 1024 false q e l = S754_finite false m' e'
    /\ 2 ^ 52 <= Z.pos m' < 2 ^ 53
    /\ ((q < 2 ^ 53 /\ (e' = e \/ (e' = e + 1 /\ Z.pos m' = 2 ^ 52)))
        \/ (2 ^ 53 <= q /\ (e' = e + 1 \/ (e' = e + 2 /\ Z.pos m' = 2 ^ 52))))
    /\ q - 1 <= Z.pos m' * 2 ^ (e' - e) <= q + 2.
Proof.
  intros Hq He. unfold binary_round_aux.
  rewrite (shr_fexp_53_54 q e l) by lia.
  set (st := if q <? 2 ^ 53 then (shr_record_of_loc q l, e)
             else (shr_1 (shr_record_of_loc q l), e + 1)).
  assert (Hst : 2 ^ 52 <= shr_m (fst st) < 2 ^ 53
                /\ ((q < 2 ^ 53 /\ snd st = e /\ shr_m (fst st) = q)
                    \/ (2 ^ 53 <= q /\ snd st = e + 1
                        /\ 2 * shr_m (fst st) <= q < 2 * shr_m (fst st) + 2))).
  { subst st. destruct (Z.ltb_spec q (2 ^ 53)); cbn [fst snd].
    - rewrite shr_record_of_loc_m. lia.
    - rewrite shr_1_m, shr_record_of_loc_m by (rewrite shr_record_of_loc_m; lia).
      assert (2 ^ 52 <= q / 2) by (apply Z.div_le_lower_bound; lia).
      assert (q / 2 < 2 ^ 53) by (apply Z.div_lt_upper_bound; lia).
      pose proof (Z.mul_div_le q 2 ltac:(lia)).
      pose proof (Z.mul_succ_div_gt q 2 ltac:(lia)). lia. }
  destruct st as [r1 e1]. cbn [fst snd] in Hst.
  destruct Hst as (Hr1 & He1).
  pose proof (round_nearest_even_bounds (shr_m r1) (loc_of_shr_record r1)) as Hrne.
  set (m1 := round_nearest_even (shr_m r1) (loc_of_shr_record r1)) in *.
  rewrite (shr_fexp_53_54 m1 e1 loc_Exact) by lia.
  destruct (Z.ltb_spec m1 (2 ^ 53)) as [Hlt|Hge].
  - cbn [shr_record_of_loc shr_m].
    destruct m1 as [|p|p] eqn:Em1; try lia.
    replace (e1 <=? 1024 - 53) with true by (symmetry; apply Z.leb_le; lia).
    exists p, e1. split; [reflexivity|]. split; [lia|]. split; [lia|].
    destruct He1 as [(H1 & -> & H3)|(H1 & -> & H3)].
    + replace (e - e) with 0 by lia. change (2 ^ 0) with 1. lia.
    + replace (e + 1 - e) with 1 by lia. change (2 ^ 1) with 2. lia.
  - assert (Em1 : m1 = 2 ^ 53) by lia.
    rewrite Em1. cbn [shr_record_of_loc].
    change (shr_m (shr_1 {| shr_m := 2 ^ 53; shr_r := false; shr_s := false |})) with (2 ^ 52).
    change (2 ^ 52) with (Z.pos (2 ^ 52)%positive) at 1.
    cbv iota.
    replace (e1 + 1 <=? 1024 - 53) with true by (symmetry; apply Z.leb_le; lia).
    eexists _, (e1 + 1). split; [reflexivity|].
    change (Z.pos (2 ^ 52)) with (2 ^ 52). split; [lia|]. split; [lia|].
    destruct He1 as [(H1 & -> & H3)|(H1 & -> & H3)].
    + replace (e + 1 - e) with 1 by lia. change (2 ^ 1) with 2. lia.
    + replace (e + 1 + 1 - e) with 2 by lia. change (2 ^ 2) with 4. lia.
Qed.

(** A mantissa of 53 bits that is exact is not changed. *)
Lemma binary_round_aux_exact s m e :
  2 ^ 52 <= Z.pos m < 2 ^ 53 -> -1074 <= e <= 971 ->
  binary_round_aux 53 1024 s (Z.pos m) e loc_Exact = S754_finite s m e.
Proof.
  intros Hm He. unfold binary_round_aux.
  rewrite (shr_fexp_53_54 (Z.pos m) e loc_Exact) by lia.
  replace (Z.pos m <? 2 ^ 53) with true by (symmetry; apply Z.ltb_lt; lia).
  cbn [shr_record_of_loc shr_m loc_of_shr_record round_nearest_even].
  rewrite (shr_fexp_53_54 (Z.pos m) e loc_Exact) by lia.
  replace (Z.pos m <? 2 ^ 53) with true by (symmetry; apply Z.ltb_lt; lia).
  cbn [shr_record_of_loc shr_m].
  replace (e <=? 1024 - 53) with true by (symmetry; apply Z.leb_le; lia).
  reflexivity.
Qed.

(** [k] shifts to the left multiply by [2^k]. *)
Lemma iter_xO m k : Z.pos (Pos.iter xO m k) = Z.pos m * 2 ^ Z.pos k.
Proof.
  induction k using Pos.peano_ind.
  - simpl. rewrite Pos2Z.inj_xO. change (2 ^ 1) with 2. lia.
  - rewrite Pos.iter_succ, Pos2Z.inj_xO, IHk, Pos2Z.inj_succ, Z.pow_succ_r by lia. lia.
Qed.

(** A count [0 < z < 2^53] is the normal number of value [z]. *)
Lemma of_Z_normal z :
  0 < z < 2 ^ 53 ->
  exists m e, of_Z z = S754_finite false m e
    /\ 2 ^ 52 <= Z.pos m < 2 ^ 53 /\ -52 <= e <= 0 /\ Z.pos m = z * 2 ^ (- e).
Proof.
  intros Hz. destruct z as [|p|p]; try lia.
  pose proof (digits2_pos_bounds p) as Hd.
  set (d := Z.pos (digits2_pos p)) in *.
  assert (Hd1 : 1 <= d <= 53).
  { split; [subst d; lia|].
    destruct (Z.le_gt_cases d 53) as [H|H]; [exact H|].
    assert (2 ^ 53 <= 2 ^ (d - 1)) by (apply Z.pow_le_mono_r; lia). lia. }
  unfold of_Z, prec, emax, binary_normalize, binary_round. fold d.
  rewrite fexp_normal by lia. unfold shl_align.
  replace (d + 0 - 53) with (d - 53) by lia. rewrite Z.sub_0_r.
  destruct (d - 53) as [|k|k] eqn:Ek; try lia.
  - assert (d = 53) by lia.
    exists p, 0. rewrite binary_round_aux_exact by (replace 52 with (d - 1) by lia; replace 53 with d by lia; lia).
    split; [reflexivity|]. replace 53 with d by lia. replace 52 with (d - 1) by lia.
    split; [lia|]. split; [lia|]. simpl. lia.
  - assert (Hp : Z.pos (Pos.iter xO p k) = Z.pos p * 2 ^ (53 - d)).
    { rewrite iter_xO. f_equal. f_equal. lia. }
    assert (Hpow : 2 ^ 53 = 2 ^ d * 2 ^ (53 - d)).
    { rewrite <- Z.pow_add_r by lia. f_equal. lia. }
    assert (Hpow' : 2 ^ 52 = 2 ^ (d - 1) * 2 ^ (53 - d)).
    { rewrite <- Z.pow_add_r by lia. f_equal. lia. }
    assert (0 < 2 ^ (53 - d)) by (apply Z.pow_pos_nonneg; lia).
    assert (Hb : 2 ^ 52 <= Z.pos (Pos.iter xO p k) < 2 ^ 53).
    { rewrite Hp, Hpow, Hpow'. split; [apply Z.mul_le_mono_nonneg_r; lia | apply Z.mul_lt_mono_pos_r; lia]. }
    exists (Pos.iter xO p k), (Z.neg k).
    rewrite binary_round_aux_exact by lia.
    split; [reflexivity|]. split; [exact Hb|]. split; [lia|].
    rewrite Hp. f_equal. f_equal. lia.
Qed.

(** A division without remainder is exact. *)
Lemma new_location_0 n : new_location n 0 = loc_Exact.
Proof.
  unfold new_location, new_location_even, new_location_odd.
  destruct (Z.even n); reflexivity.
Qed.

(** The quotient of a positive number [m1 * 2^e1], whose mantissa has any
    number of digits up to 53, by a positive normal number, the first at
    most the second: a normal number that is at most one, and within 2
    units (at the exponent [e'] of the division) of the true quotient. *)
Lemma SFdiv_le_one m1 e1 m2 e2 :
  Z.pos m1 < 2 ^ 53 -> 2 ^ 52 <= Z.pos m2 < 2 ^ 53 ->
  -52 <= e1 <= 0 -> -52 <= e2 <= 0 ->
  let s := 106 - Z.pos (digits2_pos m1) in
  let e' := e1 - e2 - s in
  Z.pos m1 * 2 ^ s <= Z.pos m2 * 2 ^ (- e') ->
  exists m e, div (S754_finite false m1 e1) (S754_finite false m2 e2)
              = S754_finite false m e
    /\ 2 ^ 52 <= Z.pos m < 2 ^ 53
    /\ -210 <= e /\ (e <= -53 \/ (e = -52 /\ Z.pos m = 2 ^ 52))
    /\ 53 <= - e' /\ 0 <= e - e' <= 2
    /\ (Z.pos m * 2 ^ (e - e') - 2) * Z.pos m2
       <= Z.pos m1 * 2 ^ s
       <= (Z.pos m * 2 ^ (e - e') + 2) * Z.pos m2.
Proof.
  intros H1 H2 He1 He2 s e' Hle.
  pose proof (digits2_pos_bounds m1) as Hd.
  set (d := Z.pos (digits2_pos m1)) in *.
  assert (Hd1 : 1 <= d <= 53).
  { split; [subst d; lia|].
    destruct (Z.le_gt_cases d 53) as [H|H]; [exact H|].
    assert (2 ^ 53 <= 2 ^ (d - 1)) by (apply Z.pow_le_mono_r; lia). lia. }
  assert (Hs : 53 <= s <= 105) by (subst s; lia).
  assert (Hm' : 2 ^ 105 <= Z.pos m1 * 2 ^ s < 2 ^ 106).
  { assert (E1 : 2 ^ 105 = 2 ^ (d - 1) * 2 ^ s).
    { rewrite <- Z.pow_add_r by lia. f_equal. subst s. lia. }
    assert (E2 : 2 ^ 106 = 2 ^ d * 2 ^ s).
    { rewrite <- Z.pow_add_r by lia. f_equal. subst s. lia. }
    assert (0 < 2 ^ s) by (apply Z.pow_pos_nonneg; lia).
    rewrite E1, E2. split; [apply Z.mul_le_mono_nonneg_r; lia
                           | apply Z.mul_lt_mono_pos_r; lia]. }
  unfold div, prec, emax, SFdiv, SFdiv_core_binary. cbn [Zdigits2 xorb]. fold d.
  rewrite (digits2_pos_unique m2 53) by (change (53 - 1) with 52; lia).
  rewrite fexp_normal by lia.
  replace (Z.min (d + e1 - (53 + e2) - 53) (e1 - e2)) with e' by (subst e' s; lia).
  replace (e1 - e2 - e') with s by (subst e'; lia).
  destruct s as [|ps|ps] eqn:Es; try lia. rewrite <- Es in *.
  rewrite Z.shiftl_mul_pow2 by lia.
  pose proof (Z.div_eucl_eq (Z.pos m1 * 2 ^ s) (Z.pos m2) ltac:(lia)) as Heq.
  pose proof (Z.mod_pos_bound (Z.pos m1 * 2 ^ s) (Z.pos m2) ltac:(lia)) as Hmod.
  unfold Z.modulo in Hmod.
  destruct (Z.div_eucl (Z.pos m1 * 2 ^ s) (Z.pos m2)) as [q r].
  set (M := Z.pos m1 * 2 ^ s) in *. clearbody M.
  assert (Hq : 2 ^ 52 <= q < 2 ^ 54).
  { change (2 ^ 105) with (2 ^ 52 * 2 ^ 53) in Hm'.
    change (2 ^ 106) with (2 ^ 54 * 2 ^ 52) in Hm'.
    split; nia. }
  assert (He'range : -210 <= e' <= -1) by (subst e'; lia).
  assert (He'53 : 53 <= - e').
  { destruct (Z.le_gt_cases 53 (- e')) as [H|H]; [exact H|exfalso].
    assert (2 ^ (- e') <= 2 ^ 52) by (apply Z.pow_le_mono_r; lia).
    change (2 ^ 105) with (2 ^ 52 * 2 ^ 53) in Hm'. nia. }
  clearbody e'.
  destruct (Z.eq_dec (- e') 53) as [Ee|Ee].
  - assert (e' = -53) by lia. subst e'. change (2 ^ (- -53)) with (2 ^ 53) in Hle.
    destruct (Z.eq_dec q (2 ^ 53)) as [Eq|Nq].
    + assert (r = 0) by nia. subst q r.
      rewrite new_location_0.
      exists (2 ^ 52)%positive, (-52). split; [vm_compute; reflexivity|].
      change (Z.pos (2 ^ 52)) with (2 ^ 52).
      replace (-52 - -53) with 1 by lia. change (2 ^ 1) with 2. lia.
    + assert (q < 2 ^ 53) by nia.
      destruct (binary_round_aux_53_54 q (-53) (new_location (Z.pos m2) r) Hq ltac:(lia))
        as (m & e & Hr & Hm & Hcase & Hval).
      exists m, e. split; [exact Hr|]. split; [exact Hm|].
      split; [lia|]. split; [lia|]. split; [lia|]. split; [lia|].
      generalize dependent (Z.pos m * 2 ^ (e - -53)). intros; nia.
  - destruct (binary_round_aux_53_54 q e' (new_location (Z.pos m2) r) Hq ltac:(lia))
      as (m & e & Hr & Hm & Hcase & Hval).
    exists m, e. split; [exact Hr|]. split; [exact Hm|].
    split; [lia|]. split; [lia|]. split; [lia|]. split; [lia|].
    generalize dependent (Z.pos m * 2 ^ (e - e')). intros; nia.
Qed.

End NumberFacts.

(* ------------------------------------------------------------------ *)
(** * [Coverage]: the fraction of a ratio *)

Section CoverageFacts.

Import Spec.

Lemma of_Z_0 : of_Z 0 = S754_zero false.
Proof. reflexivity. Qed.

Lemma of_Z_1 : of_Z 1 = S754_finite false (2 ^ 52) (-52).
Proof. vm_compute. reflexivity. Qed.

Lemma ten21_eq : exists m, ten21 = S754_finite false m 17.
Proof. eexists. vm_compute. reflexivity. Qed.

(** The quotient of two counts [0 < c <= t < 2^53] is a normal number that
    is at most one. *)
Lemma div_counts_le_one c t :
  0 < c -> c <= t -> t < 2 ^ 53 ->
  exists m e, div (of_Z c) (of_Z t) = S754_finite false m e
    /\ 2 ^ 52 <= Z.pos m < 2 ^ 53
    /\ -210 <= e /\ (e <= -53 \/ (e = -52 /\ Z.pos m = 2 ^ 52))
    /\ exists a, 53 <= a /\ 0 <= e + a <= 2
         /\ (Z.pos m * 2 ^ (e + a) - 2) * t <= c * 2 ^ a
            <= (Z.pos m * 2 ^ (e + a) + 2) * t.
Proof.
  intros Hc Hct Ht.
  destruct (of_Z_normal c ltac:(lia)) as (m1 & e1 & -> & Hm1 & He1 & Hv1).
  destruct (of_Z_normal t ltac:(lia)) as (m2 & e2 & -> & Hm2 & He2 & Hv2).
  assert (Hp1 : 0 < 2 ^ (- e1)) by (apply Z.pow_pos_nonneg; lia).
  assert (Hp2 : 0 < 2 ^ (- e2)) by (apply Z.pow_pos_nonneg; lia).
  assert (He12 : e1 <= e2).
  { destruct (Z.le_gt_cases e1 e2) as [H|H]; [exact H|exfalso].
    assert (Hpow : 2 ^ (- e2) = 2 ^ (- e1) * 2 ^ (e1 - e2)).
    { rewrite <- Z.pow_add_r by lia. f_equal. lia. }
    assert (2 ^ 1 <= 2 ^ (e1 - e2)) by (apply Z.pow_le_mono_r; lia).
    change (2 ^ 1) with 2 in *. nia. }
  assert (Hpow : 2 ^ (- e1) = 2 ^ (- e2) * 2 ^ (e2 - e1)).
  { rewrite <- Z.pow_add_r by lia. f_equal. lia. }
  assert (0 < 2 ^ (e2 - e1)) by (apply Z.pow_pos_nonneg; lia).
  pose proof (SFdiv_le_one m1 e1 m2 e2) as Hdiv.
  rewrite (digits2_pos_unique m1 53) in Hdiv by (change (53 - 1) with 52; lia).
  change (106 - 53) with 53 in Hdiv. cbv zeta in Hdiv.
  replace (- (e1 - e2 - 53)) with (53 + (e2 - e1)) in Hdiv by lia.
  rewrite Z.pow_add_r in Hdiv by lia.
  destruct Hdiv as (m & e & Hd & Hm & He & Hle & _ & Hj & Hval); try lia.
  { rewrite Hv1, Hv2, Hpow. nia. }
  exists m, e. split; [exact Hd|]. split; [exact Hm|]. split; [exact He|].
  split; [exact Hle|].
  exists (53 + e2 - e1). split; [lia|].
  replace (e + (53 + e2 - e1)) with (e - (e1 - e2 - 53)) by lia.
  split; [exact Hj|].
  assert (Hpa : 2 ^ (- e1) * 2 ^ 53 = 2 ^ (53 + e2 - e1) * 2 ^ (- e2)).
  { rewrite <- !Z.pow_add_r by lia. f_equal. lia. }
  rewrite Hv1, Hv2 in Hval.
  generalize dependent (Z.pos m * 2 ^ (e - (e1 - e2 - 53))). intros X Hval.
  replace (c * 2 ^ (- e1) * 2 ^ 53) with (c * 2 ^ (53 + e2 - e1) * 2 ^ (- e2)) in Hval
    by (rewrite <- !Z.mul_assoc, Hpa; reflexivity).
  rewrite !Z.mul_assoc in Hval.
  split; apply (Z.mul_le_mono_pos_r _ _ (2 ^ (- e2)) Hp2); lia.
Qed.

(** A normal number that is at most one lies in the unit interval. *)
Lemma in_unit_normal m e :
  (e <= -53 \/ (e = -52 /\ Z.pos m = 2 ^ 52)) ->
  in_unit (S754_finite false m e) = true.
Proof.
  intros H. unfold in_unit, leb. rewrite of_Z_0, of_Z_1.
  unfold SFleb, SFcompare. cbn [andb].
  destruct H as [H|[-> H]].
  - replace (e ?= -52) with Lt by (symmetry; apply Z.compare_lt_iff; lia).
    reflexivity.
  - assert (m = (2 ^ 52)%positive) as -> by (apply Pos2Z.inj; exact H).
    reflexivity.
Qed.

(** [toFixed(4)] of such a number prints at most [1.0000]. *)
Lemma toFixed4_le_one m e :
  -210 <= e -> (e <= -53 \/ (e = -52 /\ Z.pos m = 2 ^ 52)) ->
  2 ^ 52 <= Z.pos m < 2 ^ 53 ->
  exists n, 0 <= n <= 10 ^ 4
    /\ toFixed4 (S754_finite false m e) = decimal4 n
    /\ 2 * 2 ^ (- e) * n <= 2 * 10 ^ 4 * Z.pos m + 2 ^ (- e)
       < 2 * 2 ^ (- e) * (n + 1).
Proof.
  intros He Hle Hm. unfold toFixed4.
  destruct ten21_eq as [m21 ->].
  unfold leb, SFleb, SFabs, SFcompare.
  replace (17 ?= e) with Gt by (symmetry; apply Z.compare_gt_iff; lia).
  replace (0 <=? e) with false by (symmetry; apply Z.leb_gt; lia).
  eexists. split; [|split; [reflexivity|]].
  - unfold round_half_up.
    assert (Hpow : 2 ^ (1 - e) = 2 * 2 ^ (- e)).
    { replace (1 - e) with (Z.succ (- e)) by lia. apply Z.pow_succ_r. lia. }
    assert (Hpos : 0 < 2 ^ (- e)) by (apply Z.pow_pos_nonneg; lia).
    assert (Hval : Z.pos m <= 2 ^ (- e)).
    { destruct Hle as [H|[-> H]].
      - assert (2 ^ 53 <= 2 ^ (- e)) by (apply Z.pow_le_mono_r; lia). lia.
      - rewrite H. simpl. lia. }
    rewrite Hpow. split.
    + apply Z.div_pos; lia.
    + apply Z.lt_succ_r. apply Z.div_lt_upper_bound; [lia|].
      change (10 ^ 4) with 10000. lia.
  - unfold round_half_up.
    assert (Hpow : 2 ^ (1 - e) = 2 * 2 ^ (- e)).
    { replace (1 - e) with (Z.succ (- e)) by lia. apply Z.pow_succ_r. lia. }
    assert (Hpos : 0 < 2 ^ (- e)) by (apply Z.pow_pos_nonneg; lia).
    rewrite Hpow.
    replace (2 * (Z.pos m * 10 ^ 4)) with (2 * 10 ^ 4 * Z.pos m) by ring.
    pose proof (Z.mul_div_le (2 * 10 ^ 4 * Z.pos m + 2 ^ (- e)) (2 * 2 ^ (- e))
                  ltac:(lia)).
    pose proof (Z.mul_succ_div_gt (2 * 10 ^ 4 * Z.pos m + 2 ^ (- e)) (2 * 2 ^ (- e))
                  ltac:(lia)).
    unfold Z.succ in *. lia.
Qed.

(** The four-decimal fraction that [toFixed(4)] picks for the quotient of
    two counts is the true quotient rounded to the nearest multiple of
    [10^-4]: the error of the binary64 division is too small to change
    it, up to the direction of a tie. *)
Lemma nearest_four_decimals c t m e a n :
  0 < t <= 10 ^ 11 -> 53 <= a -> 0 <= e + a <= 2 ->
  (Z.pos m * 2 ^ (e + a) - 2) * t <= c * 2 ^ a <= (Z.pos m * 2 ^ (e + a) + 2) * t ->
  2 * 2 ^ (- e) * n <= 2 * 10 ^ 4 * Z.pos m + 2 ^ (- e) < 2 * 2 ^ (- e) * (n + 1) ->
  Z.abs (2 * (n * t - 10 ^ 4 * c)) <= t.
Proof.
  intros Ht Ha Hj Hval Hn.
  assert (HA : 2 ^ a = 2 ^ (- e) * 2 ^ (e + a)).
  { rewrite <- Z.pow_add_r by lia. f_equal. lia. }
  assert (Hbig : 4 * 10 ^ 4 * t < 2 ^ a).
  { assert (2 ^ 53 <= 2 ^ a) by (apply Z.pow_le_mono_r; lia).
    change (10 ^ 4) with 10000. change (10 ^ 11) with 100000000000 in Ht.
    change (2 ^ 53) with 9007199254740992 in *. lia. }
  assert (HJ : 0 < 2 ^ (e + a)) by (apply Z.pow_pos_nonneg; lia).
  assert (HB : 0 < 2 ^ (- e)) by (apply Z.pow_pos_nonneg; lia).
  change (10 ^ 4) with 10000 in *.
  set (A := 2 ^ a) in *. set (J := 2 ^ (e + a)) in *. set (B := 2 ^ (- e)) in *.
  clearbody A J B. subst A.
  set (D := 2 * (n * t - 10000 * c)).
  assert (Hup : B * J * D <= B * J * t + 40000 * t).
  { assert (2 * B * n * (J * t) <= (20000 * Z.pos m + B) * (J * t))
      by (apply Z.mul_le_mono_nonneg_r; nia).
    assert (20000 * ((Z.pos m * J - 2) * t) <= 20000 * (c * (B * J)))
      by (apply Z.mul_le_mono_nonneg_l; lia).
    subst D. nia. }
  assert (Hlo : - (B * J * t + 40000 * t) < B * J * D).
  { assert ((20000 * Z.pos m + B) * (J * t) < 2 * B * (n + 1) * (J * t))
      by (apply Z.mul_lt_mono_pos_r; nia).
    assert (20000 * (c * (B * J)) <= 20000 * ((Z.pos m * J + 2) * t))
      by (apply Z.mul_le_mono_nonneg_l; lia).
    subst D. nia. }
  assert (0 < B * J) by nia.
  apply Z.abs_le. split.
  - assert (B * J * (- (t + 1)) < B * J * D) by nia.
    apply Z.lt_succ_r. apply Z.opp_lt_mono. nia.
  - assert (B * J * D < B * J * (t + 1)) by nia.
    apply Z.lt_succ_r. nia.
Qed.

Lemma of_Z_ten4 : of_Z (10 ^ 4) = S754_finite false (10 ^ 4 * 2 ^ 39) (-39).
Proof. vm_compute. reflexivity. Qed.

(** A four-decimal fraction [n / 10^4] with [0 <= n <= 10^4] lies in the
    unit interval. *)
Lemma in_unit_decimal4 n : 0 <= n <= 10 ^ 4 -> in_unit (decimal4 n) = true.
Proof.
  intros Hn. destruct n as [|p|p]; [reflexivity| |lia].
  unfold decimal4. rewrite of_Z_ten4.
  pose proof (digits2_pos_bounds p) as Hd.
  assert (Hd14 : Z.pos (digits2_pos p) <= 14).
  { destruct (Z.le_gt_cases (Z.pos (digits2_pos p)) 14) as [H|H]; [exact H|exfalso].
    assert (2 ^ 14 <= 2 ^ (Z.pos (digits2_pos p) - 1))
      by (apply Z.pow_le_mono_r; lia).
    change (2 ^ 14) with 16384 in *. change (10 ^ 4) with 10000 in *. lia. }
  pose proof (SFdiv_le_one p 0 (10 ^ 4 * 2 ^ 39) (-39)) as Hdiv. cbv zeta in Hdiv.
  set (s := 106 - Z.pos (digits2_pos p)) in *.
  destruct Hdiv as (m & e & -> & Hm & He & Hle & _).
  - change (10 ^ 4) with 10000 in *. change (2 ^ 53) with 9007199254740992. lia.
  - split; vm_compute; congruence.
  - lia.
  - lia.
  - replace (- (0 - -39 - s)) with (s - 39) by lia.
    assert (E : 2 ^ s = 2 ^ 39 * 2 ^ (s - 39)).
    { rewrite <- Z.pow_add_r by (subst s; lia). f_equal. lia. }
    assert (0 < 2 ^ (s - 39)) by (apply Z.pow_pos_nonneg; subst s; lia).
    change (Z.pos (10 ^ 4 * 2 ^ 39)) with (10 ^ 4 * 2 ^ 39). rewrite E.
    change (2 ^ 39) with 549755813888. change (10 ^ 4) with 10000 in *. nia.
  - apply in_unit_normal. exact Hle.
Qed.

End CoverageFacts.

Section CoverageClaims.

Import Spec.

Lemma newCoverage_zero_total c :
  percentual (newCoverage (of_Z 0) c) = of_Z 1.
Proof. reflexivity. Qed.

Lemma newCoverage_positive_total t c :
  0 < t < 2 ^ 53 ->
  percentual (newCoverage (of_Z t) c) = toFixed4 (div c (of_Z t)).
Proof.
  intros Ht. destruct (of_Z_normal t Ht) as (m & e & E & _).
  unfold newCoverage. cbn [percentual]. rewrite E. reflexivity.
Qed.

(** C2, amended: for counts [0 <= covered <= total] (below [2^53], so that
    they are binary64 numbers), the fraction of [new Coverage(total,
    covered)] is [1.0] when [total] is [0] and else [covered / total]
    through [toFixed(4)]; it is a four-decimal fraction [n / 10^4] with
    [0 <= n <= 10^4], and so lies in the unit interval; for a total up to
    [10^11], [n / 10^4] is [covered / total] rounded to the nearest
    multiple of [10^-4]. *)
Theorem C2_fraction_in_unit (t c : Z) :
  0 <= c -> c <= t -> t < 2 ^ 53 ->
  (t = 0 -> percentual (newCoverage (of_Z t) (of_Z c)) = of_Z 1)
  /\ (t <> 0 ->
      percentual (newCoverage (of_Z t) (of_Z c)) = toFixed4 (div (of_Z c) (of_Z t)))
  /\ (exists n, 0 <= n <= 10 ^ 4
        /\ percentual (newCoverage (of_Z t) (of_Z c)) = decimal4 n
        /\ (0 < t <= 10 ^ 11 -> Z.abs (2 * (n * t - 10 ^ 4 * c)) <= t))
  /\ in_unit (percentual (newCoverage (of_Z t) (of_Z c))) = true.
Proof.
  intros Hc Hct Ht.
  assert (Hn : exists n, 0 <= n <= 10 ^ 4
                 /\ percentual (newCoverage (of_Z t) (of_Z c)) = decimal4 n
                 /\ (0 < t <= 10 ^ 11 -> Z.abs (2 * (n * t - 10 ^ 4 * c)) <= t)).
  { destruct (Z.eq_dec t 0) as [->|Ht0].
    - exists (10 ^ 4). split; [split; [discriminate | apply Z.le_refl]|].
      split; [|lia].
      rewrite newCoverage_zero_total. vm_compute. reflexivity.
    - rewrite newCoverage_positive_total by lia.
      destruct (Z.eq_dec c 0) as [->|Hc0].
      + exists 0. split; [split; [apply Z.le_refl | discriminate]|].
        split; [|intros; rewrite Z.abs_eq; lia].
        destruct (of_Z_normal t ltac:(lia)) as (m & e & -> & _).
        vm_compute. reflexivity.
      + destruct (div_counts_le_one c t)
          as (m & e & -> & Hm & He & Hle & a & Ha & Hj & Hval); try lia.
        destruct (toFixed4_le_one m e He Hle Hm) as (n & Hn & E & Hfloor).
        exists n. split; [exact Hn|]. split; [exact E|].
        intros Ht'. apply (nearest_four_decimals c t m e a n); assumption. }
  split; [intros ->; apply newCoverage_zero_total|].
  split; [intros Ht0; apply newCoverage_positive_total; lia|].
  split; [exact Hn|].
  destruct Hn as (n & Hn & -> & _). apply in_unit_decimal4. exact Hn.
Qed.

Lemma C2_fraction_in_unit_witness :
  percentual (newCoverage (of_Z 3) (of_Z 1)) = toFixed4 (div (of_Z 1) (of_Z 3))
  /\ in_unit (percentual (newCoverage (of_Z 3) (of_Z 1))) = true.
Proof.
  pose proof (C2_fraction_in_unit 3 1 ltac:(lia) ltac:(lia) ltac:(reflexivity))
    as (_ & H1 & _ & H2).
  split; [apply H1; lia | exact H2].
Defined.

(** C2 as stated fails: nothing keeps [covered] below [total], and
    [new Coverage(1, 2)] has the fraction [2]. *)
Lemma C2_fraction_above_one :
  0 <= 1 /\ 0 <= 2
  /\ percentual (newCoverage (of_Z 1) (of_Z 2)) = of_Z 2
  /\ in_unit (percentual (newCoverage (of_Z 1) (of_Z 2))) = false.
Proof. repeat split; try discriminate; vm_compute; reflexivity. Qed.

End CoverageClaims.

(* ------------------------------------------------------------------ *)
(** * [checkThreshold] *)

Section ThresholdClaims.

Import Spec Main.

Lemma SFcompare_refl x : x <> S754_nan -> SFcompare x x = Some Eq.
Proof.
  destruct x as [s|s| |s m e]; intros H; try congruence; cbn.
  - reflexivity.
  - destruct s; reflexivity.
  - rewrite Z.compare_refl.
    change (Pos.compare_cont Eq m m) with (Pos.compare m m).
    rewrite Pos.compare_refl. destruct s; reflexivity.
Qed.

(** [x > x] is false for every number. *)
Lemma gtb_irrefl x : gtb x x = false.
Proof.
  unfold gtb, SFltb. destruct x as [s|s| |s m e]; try reflexivity;
    rewrite SFcompare_refl by discriminate; reflexivity.
Qed.

(** [x >= x] is true unless [x] is NaN. *)
Lemma geb_refl x : is_nan x = false -> geb x x = true.
Proof.
  intros H. unfold geb, SFleb. rewrite SFcompare_refl; [reflexivity|].
  intros ->. discriminate.
Qed.

Lemma of_Z_100 : exists m e, of_Z 100 = S754_finite false m e.
Proof. eexists _, _. vm_compute. reflexivity. Qed.

(** The rounding of [SpecFloat] keeps the sign it is given. *)
Lemma binary_round_aux_sign s m e l :
  match binary_round_aux prec emax s m e l with
  | S754_zero s' | S754_infinity s' | S754_finite s' _ _ => s' = s
  | S754_nan => True
  end.
Proof.
  unfold binary_round_aux.
  destruct (shr_fexp prec emax m e l) as [mrs e'].
  destruct (shr_fexp prec emax _ e' loc_Exact) as [mrs' e''].
  destruct (shr_m mrs'); [reflexivity| |exact I].
  destruct (e'' <=? emax - prec); reflexivity.
Qed.

(** A fraction that is not negative has a percentage that is not
    negative. *)
Lemma percent_not_negative x :
  not_negative x = true -> not_negative (mul x (of_Z 100)) = true.
Proof.
  destruct of_Z_100 as (m100 & e100 & ->).
  unfold not_negative, ltb, mul. rewrite of_Z_0.
  destruct x as [s|s| |s m e]; cbn [SFmul].
  - destruct s; reflexivity.
  - destruct s; [discriminate|reflexivity].
  - reflexivity.
  - destruct s; [discriminate|]. intros _. cbn [xorb].
    pose proof (binary_round_aux_sign false (Z.pos (m * m100)) (e + e100) loc_Exact) as H.
    fold prec emax.
    destruct (binary_round_aux prec emax false (Z.pos (m * m100)) (e + e100) loc_Exact)
      as [s'|s'| |s' m' e']; try subst s'; reflexivity.
Qed.

Lemma binary_round_aux_not_negative m e l :
  not_negative (binary_round_aux prec emax false m e l) = true.
Proof.
  pose proof (binary_round_aux_sign false m e l) as H.
  destruct (binary_round_aux prec emax false m e l) as [s|s| |s m' e'];
    try subst s; reflexivity.
Qed.

Lemma of_Z_not_negative n : 0 <= n -> not_negative (of_Z n) = true.
Proof.
  intros Hn. destruct n as [|p|p]; [reflexivity| |lia].
  unfold of_Z, binary_normalize, binary_round.
  destruct (shl_align p 0 _) as [mz ez]. apply binary_round_aux_not_negative.
Qed.

(** The quotient of two numbers that are not negative, the second not
    zero, is not negative. *)
Lemma div_not_negative x y :
  not_negative x = true -> not_negative y = true -> eqb y (of_Z 0) = false ->
  not_negative (div x y) = true.
Proof.
  unfold div, SFdiv.
  destruct x as [s|s| |s m e], y as [s'|s'| |s' m' e']; intros Hx Hy Hz;
    try reflexivity;
    repeat match goal with b : bool |- _ => destruct b end;
    try discriminate; try reflexivity.
  cbn [xorb].
  destruct (SFdiv_core_binary prec emax (Z.pos m) e (Z.pos m') e') as [[mz ez] lz].
  apply binary_round_aux_not_negative.
Qed.

(** [parseFloat(x.toFixed(4))] of a number that is not negative is not
    negative. *)
Lemma toFixed4_not_negative x :
  not_negative x = true -> not_negative (toFixed4 x) = true.
Proof.
  destruct x as [s|s| |s m e]; try (intros H; exact H).
  destruct s; [discriminate|]. intros _. unfold toFixed4.
  destruct (leb ten21 _); [reflexivity|].
  destruct (0 <=? e); [reflexivity|].
  unfold decimal4.
  destruct (round_half_up (Z.pos m * 10 ^ 4) e); try reflexivity.
  apply div_not_negative; reflexivity.
Qed.

(** The invariant of the model: a ratio built from counts that are not
    negative has a fraction that is not negative. *)
Lemma newCoverage_not_negative t c :
  not_negative t = true -> not_negative c = true ->
  not_negative (percentual (newCoverage t c)) = true.
Proof.
  intros Ht Hc. unfold newCoverage. cbn [percentual].
  destruct (eqb t (of_Z 0)) eqn:E; [reflexivity|].
  apply toFixed4_not_negative, div_not_negative; assumption.
Qed.

(** A falsy minimum is never above a percentage that is not negative. *)
Lemma falsy_minimum_passes minimum x :
  JSNumber.truthy minimum = false -> not_negative x = true ->
  gtb minimum x = false.
Proof.
  unfold not_negative, gtb, ltb. rewrite of_Z_0.
  destruct minimum as [s|s| |s m e]; try discriminate; intros _.
  - destruct x as [s'|s'| |s' m' e']; try reflexivity;
      destruct s'; try reflexivity; discriminate.
  - destruct x; reflexivity.
Qed.

Lemma checkMinimum_In msg minimum c x :
  In x (checkMinimum msg minimum c) ->
  x = msg minimum (mul (percentual c) (of_Z 100))
  /\ gtb minimum (mul (percentual c) (of_Z 100)) = true.
Proof.
  unfold checkMinimum.
  destruct (gtb minimum (mul (percentual c) (of_Z 100))); cbn; intuition.
Qed.

Lemma checkDecrease_In msg maximum o c x :
  In x (checkDecrease msg maximum o c) ->
  exists m, maximum = Some m /\ x = msg (decrease o c) m
            /\ geb (decrease o c) m = true.
Proof.
  unfold checkDecrease. destruct maximum as [m|]; [|intros []].
  destruct (geb (decrease o c) m) eqn:E; cbn; [|intros []].
  intros [<-|[]]. eauto.
Qed.

Lemma checkMinimum_ranks msg minimum c k :
  (forall a b, rank (msg a b) = k) ->
  map rank (checkMinimum msg minimum c) = [k] \/ checkMinimum msg minimum c = [].
Proof.
  intros H. unfold checkMinimum.
  destruct (gtb minimum _); cbn; [left; rewrite H; reflexivity | right; reflexivity].
Qed.

Lemma checkDecrease_ranks msg maximum o c k :
  (forall a b, rank (msg a b) = k) ->
  map rank (checkDecrease msg maximum o c) = [k] \/ checkDecrease msg maximum o c = [].
Proof.
  intros H. unfold checkDecrease. destruct maximum as [m|]; [|right; reflexivity].
  destruct (geb _ m); cbn; [left; rewrite H; reflexivity | right; reflexivity].
Qed.

(** C3, amended: the minimum is compared strictly and the decrease is not,
    both on the numbers the code computes.  With [minLineCoverage = 80]
    and a line fraction of [0.80] the percentage is [80] and no min-line
    message is yielded; more generally a percentage equal to the minimum
    passes.  With previous statistics and a maximal line decrease [m], the
    line-decrease message is yielded exactly when
    [(o.percentual - c.percentual) * 100 >= m], and it carries that
    difference and [m]; a difference that computes to [m] is therefore
    reported, as from [0.10] to [0.05] with the maximum [5].  From [0.85]
    to [0.80] the difference computes below [5] and nothing is
    reported. *)
Theorem C3_strict_minimum_inclusive_decrease (l : Limits) (c : Stats) :
  (percentual (lines (stats_total c)) = lit 80 100 ->
   mul (percentual (lines (stats_total c))) (of_Z 100) = of_Z 80)
  /\ (forall o a b,
        minLineCoverage l = mul (percentual (lines (stats_total c))) (of_Z 100) ->
        ~ In (MinimumLineCoverage a b) (checkThreshold l c o))
  /\ (forall o,
        minLineCoverage l = of_Z 80 ->
        percentual (lines (stats_total c)) = lit 80 100 ->
        checkMinimum MinimumLineCoverage (minLineCoverage l) (lines (stats_total c)) = []
        /\ forall a b, ~ In (MinimumLineCoverage a b) (checkThreshold l c o))
  /\ (forall o m,
        maxLineCoverageDecrease l = Some m ->
        let lcdiff := mul (sub (percentual (lines (stats_total o)))
                               (percentual (lines (stats_total c)))) (of_Z 100) in
        (forall d x, In (LineCoverageDown d x) (checkThreshold l c (Some o)) <->
                     d = lcdiff /\ x = m /\ geb lcdiff m = true)
        /\ (is_nan m = false -> lcdiff = m ->
            In (LineCoverageDown m m) (checkThreshold l c (Some o))))
  /\ (forall o,
        maxLineCoverageDecrease l = Some (of_Z 5) ->
        percentual (lines (stats_total o)) = lit 10 100 ->
        percentual (lines (stats_total c)) = lit 5 100 ->
        In (LineCoverageDown (of_Z 5) (of_Z 5)) (checkThreshold l c (Some o)))
  /\ (forall o,
        maxLineCoverageDecrease l = Some (of_Z 5) ->
        percentual (lines (stats_total o)) = lit 85 100 ->
        percentual (lines (stats_total c)) = lit 80 100 ->
        forall d x, ~ In (LineCoverageDown d x) (checkThreshold l c (Some o))).
Proof.
  assert (Hpct : percentual (lines (stats_total c)) = lit 80 100 ->
                 mul (percentual (lines (stats_total c))) (of_Z 100) = of_Z 80).
  { intros ->. vm_compute. reflexivity. }
  assert (Hmin : forall o a b,
             minLineCoverage l = mul (percentual (lines (stats_total c))) (of_Z 100) ->
             ~ In (MinimumLineCoverage a b) (checkThreshold l c o)).
  { intros o a b E H. unfold checkThreshold in H.
    apply in_app_or in H. destruct H as [H|H].
    - apply checkMinimum_In in H. destruct H as [_ H].
      rewrite E, gtb_irrefl in H. discriminate.
    - apply in_app_or in H. destruct H as [H|H].
      + apply checkMinimum_In in H. destruct H as [H _]. discriminate.
      + destruct o as [o|]; [|exact H].
        apply in_app_or in H.
        destruct H as [H|H]; apply checkDecrease_In in H;
          destruct H as (m & _ & H & _); discriminate. }
  assert (Hiff : forall o m,
             maxLineCoverageDecrease l = Some m ->
             forall d x, In (LineCoverageDown d x) (checkThreshold l c (Some o)) <->
                         d = decrease (lines (stats_total o)) (lines (stats_total c))
                         /\ x = m
                         /\ geb (decrease (lines (stats_total o)) (lines (stats_total c))) m
                            = true).
  { intros o m E d x. split.
    - intros H. unfold checkThreshold in H.
      apply in_app_or in H. destruct H as [H|H];
        [apply checkMinimum_In in H; destruct H as [H _]; discriminate|].
      apply in_app_or in H. destruct H as [H|H];
        [apply checkMinimum_In in H; destruct H as [H _]; discriminate|].
      apply in_app_or in H. destruct H as [H|H]; apply checkDecrease_In in H;
        destruct H as (m' & E' & H & G); [|discriminate].
      rewrite E in E'. injection E' as <-. injection H as -> ->. auto.
    - intros (-> & -> & G). unfold checkThreshold.
      apply in_or_app. right. apply in_or_app. right. apply in_or_app. left.
      unfold checkDecrease. rewrite E, G. left. reflexivity. }
  split; [exact Hpct|]. split; [exact Hmin|]. split; [|split; [|split]].
  - intros o E P. split.
    + unfold checkMinimum. rewrite E, (Hpct P), gtb_irrefl. reflexivity.
    + intros a b. apply Hmin. rewrite E, (Hpct P). reflexivity.
  - intros o m E. cbv zeta. split; [exact (Hiff o m E)|].
    intros Hm D. apply (Hiff o m E). unfold decrease. rewrite D.
    split; [reflexivity|]. split; [reflexivity|]. apply geb_refl. exact Hm.
  - intros o E Po Pc. apply (Hiff o _ E). unfold decrease. rewrite Po, Pc.
    vm_compute. auto.
  - intros o E Po Pc d x H. apply (Hiff o _ E) in H. destruct H as (_ & _ & G).
    unfold decrease in G. rewrite Po, Pc in G. vm_compute in G. discriminate.
Qed.

Lemma C3_strict_minimum_inclusive_decrease_witness :
  let l := mkLimits (of_Z 80) (of_Z 0) (Some (of_Z 5)) None in
  checkMinimum MinimumLineCoverage (minLineCoverage l)
               (lines (stats_total (lines_of_100 80))) = []
  /\ In (LineCoverageDown (of_Z 5) (of_Z 5))
        (checkThreshold l (lines_of_100 5) (Some (lines_of_100 10)))
  /\ forall d x, ~ In (LineCoverageDown d x)
                      (checkThreshold l (lines_of_100 80) (Some (lines_of_100 85))).
Proof.
  intros l. split; [|split].
  - refine (proj1 (proj1 (proj2 (proj2 (C3_strict_minimum_inclusive_decrease
                                          l (lines_of_100 80))))
                         None _ _)).
    + reflexivity.
    + vm_compute. reflexivity.
  - refine (proj1 (proj2 (proj2 (proj2 (proj2 (C3_strict_minimum_inclusive_decrease
                                                 l (lines_of_100 5))))))
                  (lines_of_100 10) _ _ _).
    + reflexivity.
    + vm_compute. reflexivity.
    + vm_compute. reflexivity.
  - refine (proj2 (proj2 (proj2 (proj2 (proj2 (C3_strict_minimum_inclusive_decrease
                                                 l (lines_of_100 80))))))
                  (lines_of_100 85) _ _ _).
    + reflexivity.
    + vm_compute. reflexivity.
    + vm_compute. reflexivity.
Defined.

(** C3 as stated fails on the regression: with a maximal line decrease of
    [5], a baseline of 85 covered lines out of 100 and a current 80 out of
    100, a decrease of 5 percentage points, [checkThreshold] yields no
    message, since [(0.85 - 0.80) * 100] computes below [5]. *)
Lemma C3_five_point_decrease_is_not_reported :
  let l := mkLimits (of_Z 0) (of_Z 0) (Some (of_Z 5)) None in
  let o := lines_of_100 85 in
  let c := lines_of_100 80 in
  percentual (lines (stats_total o)) = lit 85 100
  /\ percentual (lines (stats_total c)) = lit 80 100
  /\ claimed_decrease_violation 85 80 5 = true
  /\ ltb (decrease (lines (stats_total o)) (lines (stats_total c))) (of_Z 5) = true
  /\ checkThreshold l c (Some o) = [].
Proof.
  cbv zeta. repeat split; vm_compute; reflexivity.
Qed.

(** C7: [checkThreshold] yields a finite sequence whose messages come in
    the fixed order min-line, min-method, max-line-decrease,
    max-method-decrease, each at most once; no decrease message is yielded
    without previous statistics; an unset maximal decrease yields nothing;
    and a falsy minimum ([0] or NaN) yields nothing against a fraction
    that is not negative. *)
Theorem C7_fixed_order_and_skips (l : Limits) (c : Stats) (o : option Stats) :
  StronglySorted lt (map rank (checkThreshold l c o))
  /\ (o = None -> forall x, In x (checkThreshold l c o) -> (rank x <= 2)%nat)
  /\ (maxLineCoverageDecrease l = None ->
      forall x, In x (checkThreshold l c o) -> rank x <> 3%nat)
  /\ (maxMethodCoverageDecrease l = None ->
      forall x, In x (checkThreshold l c o) -> rank x <> 4%nat)
  /\ (JSNumber.truthy (minLineCoverage l) = false ->
      not_negative (percentual (lines (stats_total c))) = true ->
      forall x, In x (checkThreshold l c o) -> rank x <> 1%nat)
  /\ (JSNumber.truthy (minMethodCoverage l) = false ->
      not_negative (percentual (Types.methods (stats_total c))) = true ->
      forall x, In x (checkThreshold l c o) -> rank x <> 2%nat).
Proof.
  assert (Hin : forall x, In x (checkThreshold l c o) ->
    (x = MinimumLineCoverage (minLineCoverage l)
           (mul (percentual (lines (stats_total c))) (of_Z 100))
     /\ gtb (minLineCoverage l)
            (mul (percentual (lines (stats_total c))) (of_Z 100)) = true)
    \/ (x = MinimumMethodCoverage (minMethodCoverage l)
              (mul (percentual (Types.methods (stats_total c))) (of_Z 100))
        /\ gtb (minMethodCoverage l)
               (mul (percentual (Types.methods (stats_total c))) (of_Z 100)) = true)
    \/ (exists o' m d, o = Some o' /\ maxLineCoverageDecrease l = Some m
                       /\ x = LineCoverageDown d m)
    \/ (exists o' m d, o = Some o' /\ maxMethodCoverageDecrease l = Some m
                       /\ x = MethodsCoverageDown d m)).
  { intros x H. unfold checkThreshold in H.
    apply in_app_or in H. destruct H as [H|H].
    { left. apply checkMinimum_In in H. exact H. }
    apply in_app_or in H. destruct H as [H|H].
    { right. left. apply checkMinimum_In in H. exact H. }
    destruct o as [o'|]; [|destruct H].
    apply in_app_or in H.
    destruct H as [H|H]; apply checkDecrease_In in H; destruct H as (m & E & -> & _).
    - right. right. left. eauto 6.
    - right. right. right. eauto 6. }
  split.
  { unfold checkThreshold. rewrite !map_app.
    destruct (checkMinimum_ranks MinimumLineCoverage (minLineCoverage l)
                (lines (stats_total c)) 1%nat ltac:(reflexivity)) as [-> | ->];
    destruct (checkMinimum_ranks MinimumMethodCoverage (minMethodCoverage l)
                (Types.methods (stats_total c)) 2%nat ltac:(reflexivity)) as [-> | ->];
    destruct o as [o'|]; rewrite ?map_app;
    try (destruct (checkDecrease_ranks LineCoverageDown (maxLineCoverageDecrease l)
                (lines (stats_total o')) (lines (stats_total c)) 3%nat
                ltac:(reflexivity)) as [-> | ->];
         destruct (checkDecrease_ranks MethodsCoverageDown (maxMethodCoverageDecrease l)
                (Types.methods (stats_total o')) (Types.methods (stats_total c)) 4%nat
                ltac:(reflexivity)) as [-> | ->]);
    cbn; repeat (constructor; try lia). }
  repeat split.
  - intros -> x H. destruct (Hin x H) as [[-> _]|[[-> _]|[H'|H']]]; cbn; try lia;
      destruct H' as (o' & _ & _ & E & _); discriminate.
  - intros E x H. destruct (Hin x H) as [[-> _]|[[-> _]|[H'|H']]]; cbn; try lia;
      destruct H' as (o' & m & d & _ & E' & ->); [congruence | cbn; lia].
  - intros E x H. destruct (Hin x H) as [[-> _]|[[-> _]|[H'|H']]]; cbn; try lia;
      destruct H' as (o' & m & d & _ & E' & ->); [cbn; lia | congruence].
  - intros Hf Hn x H. destruct (Hin x H) as [[-> G]|[[-> _]|[H'|H']]]; cbn; try lia.
    + rewrite falsy_minimum_passes in G;
        [discriminate | exact Hf | apply percent_not_negative; exact Hn].
    + destruct H' as (o' & m & d & _ & _ & ->). cbn. lia.
    + destruct H' as (o' & m & d & _ & _ & ->). cbn. lia.
  - intros Hf Hn x H. destruct (Hin x H) as [[-> _]|[[-> G]|[H'|H']]]; cbn; try lia.
    + rewrite falsy_minimum_passes in G;
        [discriminate | exact Hf | apply percent_not_negative; exact Hn].
    + destruct H' as (o' & m & d & _ & _ & ->). cbn. lia.
    + destruct H' as (o' & m & d & _ & _ & ->). cbn. lia.
Qed.

Lemma C7_fixed_order_and_skips_witness :
  let l := mkLimits (of_Z 0) (of_Z 0) None None in
  let c := mkStats (mkStatsMetrics (newCoverage (of_Z 100) (of_Z 50))
                                   (newCoverage (of_Z 10) (of_Z 5))
                                   (newCoverage (of_Z 0) (of_Z 0))) [] in
  StronglySorted lt (map rank (checkThreshold l c (Some c)))
  /\ ~ In (MinimumLineCoverage (of_Z 0) (of_Z 50)) (checkThreshold l c (Some c))
  /\ ~ In (LineCoverageDown (of_Z 0) (of_Z 0)) (checkThreshold l c (Some c)).
Proof.
  intros l c.
  pose proof (C7_fixed_order_and_skips l c (Some c)) as (H1 & _ & H3 & _ & H5 & _).
  split; [exact H1|]. split.
  - intros H. apply (H5 eq_refl eq_refl _ H). reflexivity.
  - intros H. apply (H3 eq_refl _ H). reflexivity.
Defined.

End ThresholdClaims.

(* ------------------------------------------------------------------ *)
(** * [filter] *)

Section FilterClaims.

Import Spec Main.

Lemma SFcompare_antisym x y c :
  SFcompare x y = Some c -> SFcompare y x = Some (CompOpp c).
Proof.
  destruct x as [s|s| |s m e], y as [s'|s'| |s' m' e']; cbn;
    try discriminate; intros H; injection H as <-;
    try (destruct s; reflexivity); try (destruct s'; reflexivity);
    try (destruct s, s'; reflexivity).
  rewrite (Z.compare_antisym e e').
  pose proof (Pos.compare_cont_antisym m m' Eq) as Hm. cbn [CompOpp] in Hm.
  destruct s, s'; try reflexivity; destruct (e ?= e'); cbn; try reflexivity;
    rewrite <- Hm; destruct (Pos.compare_cont Eq m m'); reflexivity.
Qed.

(** [x <= y] excludes [y < x]. *)
Lemma leb_not_gtb x y : leb x y = true -> gtb x y = false.
Proof.
  unfold leb, gtb, SFleb, SFltb.
  destruct (SFcompare x y) as [c|] eqn:E; [|discriminate].
  rewrite (SFcompare_antisym x y c E). destruct c; cbn; congruence.
Qed.

Lemma filter_twice {A} (p : A -> bool) (l : list A) :
  List.filter p (List.filter p l) = List.filter p l.
Proof.
  induction l as [|a l IH]; [reflexivity|]. cbn.
  destruct (p a) eqn:E; cbn; rewrite ?E, IH; reflexivity.
Qed.

(** Filtering the folders a second time with the same filters changes
    nothing. *)
Lemma filterFolders_twice fs m :
  filterFolders fs (filterFolders fs m) = filterFolders fs m.
Proof.
  unfold filterFolders. induction m as [|[key folder] m IH]; [reflexivity|].
  cbn [flat_map]. rewrite flat_map_app, IH. f_equal.
  destruct (List.filter (passes fs key) (files folder)) as [|f kept] eqn:E;
    [reflexivity|].
  cbn [List.length Nat.eqb flat_map files app].
  rewrite <- E, filter_twice, E. reflexivity.
Qed.

(** C8: [filter] is idempotent.  For every statistics [s], every
    configuration of the filters and every previous statistics [o] (an
    object apart from [s]), filtering the result again gives the same
    result. *)
Theorem C8_filter_idempotent (s : Stats) (onlyWith : OnlyWith)
        (onlyBetween : OnlyBetween) (o : option Stats) :
  filter (filter s onlyWith onlyBetween o) onlyWith onlyBetween o
  = filter s onlyWith onlyBetween o.
Proof.
  unfold filter.
  destruct (List.length (filters onlyWith onlyBetween o) =? 0)%nat eqn:E.
  - reflexivity.
  - cbn [stats_total folders]. rewrite filterFolders_twice. reflexivity.
Qed.

(** C9: with no filter active, that is [cover] and [coverableLines] false,
    [min <= 0], [100 <= max], and [delta <= 0] or no previous statistics,
    [filter] returns its input unchanged. *)
Theorem C9_filter_identity (s : Stats) (onlyWith : OnlyWith)
        (onlyBetween : OnlyBetween) (o : option Stats) :
  cover onlyWith = false ->
  coverableLines onlyWith = false ->
  leb (min onlyBetween) (of_Z 0) = true ->
  leb (of_Z 100) (max onlyBetween) = true ->
  leb (delta onlyBetween) (of_Z 0) = true \/ o = None ->
  filter s onlyWith onlyBetween o = s.
Proof.
  intros Hc Hl Hmin Hmax Hd.
  assert (E : filters onlyWith onlyBetween o = []).
  { unfold filters. rewrite Hc, Hl. cbn [app].
    destruct (type onlyBetween) as [k|]; [|reflexivity].
    rewrite (leb_not_gtb _ _ Hmin).
    apply leb_not_gtb in Hmax. unfold gtb in Hmax. unfold ltb. rewrite Hmax.
    cbn [orb app].
    destruct o as [o'|]; [|reflexivity].
    destruct Hd as [Hd|Hd]; [|discriminate].
    rewrite (leb_not_gtb _ _ Hd). reflexivity. }
  unfold filter. rewrite E. reflexivity.
Qed.

Lemma C9_filter_identity_witness :
  let file := mkFile "a.ts"
                (mkFileMetrics (mkStatsMetrics (newCoverage (of_Z 0) (of_Z 0))
                                               (newCoverage (of_Z 0) (of_Z 0))
                                               (newCoverage (of_Z 0) (of_Z 0))) [] []) in
  let s := mkStats (mkStatsMetrics (newCoverage (of_Z 0) (of_Z 0))
                                   (newCoverage (of_Z 0) (of_Z 0))
                                   (newCoverage (of_Z 0) (of_Z 0)))
                   [("src"%string, mkFolder "src" [file])] in
  filter s (mkOnlyWith false false)
         (mkOnlyBetween (Some Lines) (of_Z 0) (of_Z 100) (of_Z 0)) (Some s) = s.
Proof.
  intros file s.
  apply (C9_filter_identity s (mkOnlyWith false false)
           (mkOnlyBetween (Some Lines) (of_Z 0) (of_Z 100) (of_Z 0)) (Some s));
    try reflexivity.
  left. reflexivity.
Defined.

End FilterClaims.

(* ------------------------------------------------------------------ *)
(** * [fromString] *)

Section ReaderClaims.

Import Spec Clover.

Lemma filter_none {A} (p : A -> bool) (l : list A) :
  (forall x, In x l -> p x = false) -> List.filter p l = [].
Proof.
  induction l as [|a l IH]; intros H; [reflexivity|]. cbn.
  rewrite (H a (or_introl eq_refl)). apply IH. intros x Hx. apply H. right. exact Hx.
Qed.

Lemma fromProject_touched workspace cloverData prs :
  (0 < pr_length prs)%nat ->
  fromProject workspace cloverData prs =
  let retained := List.filter (isTouched (prefix_of workspace) prs)
                              (getAllFiles cloverData) in
  let sums := fold_left (fun acc file =>
                           addSums acc (contribution (prefix_of workspace) prs file))
                        retained zeroSums in
  mkStats (mkStatsMetrics
             (newCoverage (sum_statements sums) (sum_coveredStatements sums))
             (newCoverage (sum_methods sums) (sum_coveredMethods sums))
             (newCoverage (sum_conditionals sums) (sum_coveredConditionals sums)))
          (processFilesIntoFolders retained).
Proof.
  intros H. unfold fromProject.
  replace (0 <? pr_length prs)%nat with true by (symmetry; apply Nat.ltb_lt; exact H).
  reflexivity.
Qed.

(** C10: when the list of touched files is not empty and no file of the
    report matches an entry of it, [fromString] returns statistics without
    folders whose three total ratios are [Coverage(0, 0)], of fraction
    [1.0]. *)
Theorem C10_no_match_gives_empty_stats
        (workspace : string) (xml2json : string -> Outcome CloverProject)
        (str : string) (cloverData : CloverProject) (prs : PullRequestFiles) :
  xml2json str = Returns cloverData ->
  (0 < pr_length prs)%nat ->
  (forall file, In file (getAllFiles cloverData) ->
                isTouched (prefix_of workspace) prs file = false) ->
  fromString workspace xml2json str prs = Returns emptyStats
  /\ folders emptyStats = []
  /\ lines (stats_total emptyStats) = newCoverage (of_Z 0) (of_Z 0)
  /\ Types.methods (stats_total emptyStats) = newCoverage (of_Z 0) (of_Z 0)
  /\ branches (stats_total emptyStats) = newCoverage (of_Z 0) (of_Z 0)
  /\ percentual (newCoverage (of_Z 0) (of_Z 0)) = of_Z 1.
Proof.
  intros Hparse Hlen Hnone.
  split; [|repeat split].
  unfold fromString, parseCloverXML. rewrite Hparse.
  rewrite fromProject_touched by exact Hlen. cbv zeta.
  rewrite (filter_none _ _ Hnone). reflexivity.
Qed.

Lemma C10_no_match_gives_empty_stats_witness :
  fromString "/ws" (fun _ => Returns sample_project) ""
             (FileNames ["lib/b.ts"%string]) = Returns emptyStats.
Proof.
  refine (proj1 (C10_no_match_gives_empty_stats "/ws" (fun _ => Returns sample_project)
                   "" sample_project (FileNames ["lib/b.ts"%string]) eq_refl _ _)).
  - cbn. lia.
  - intros file [<-|[]]. vm_compute. reflexivity.
Defined.

Lemma existsb_find {A} (p : A -> bool) (l : list A) :
  existsb p l = true -> exists x, find p l = Some x /\ In x l /\ p x = true.
Proof.
  induction l as [|a l IH]; [discriminate|]. cbn.
  destruct (p a) eqn:E.
  - intros _. exists a. auto.
  - cbn. intros H. destruct (IH H) as (x & Hf & Hin & Hp). exists x. auto.
Qed.

(** C1, amended: in change-set attribution with line ranges, a retained
    file always has its touched entry, and when that entry has lines the
    file contributes, for each of the three metrics, the total and the
    covered count of that metric scaled by a proportion of its own,
    [totalRangeLines / total of that metric] (1 when that total is not
    above 0), and rounded; [totalRangeLines] is the sum of
    [end - start + 1] over the ranges.  When every touched entry has
    lines, every retained file contributes in this way and the totals are
    the sums of these contributions.  With 100 statements, 40 of them
    covered, and 10 touched lines the statements contribute 10 and 4. *)
Theorem C1_attribution_per_metric
        (workspace : string) (cloverData : CloverProject) (l : list PullRequestFile) :
  l <> [] ->
  let w := prefix_of workspace in
  let retained := List.filter (isTouched w (FileChanges l)) (getAllFiles cloverData) in
  ((forall prFile, In prFile l -> pr_lines prFile <> []) ->
   let sums := fold_left (fun acc file =>
                            addSums acc (contribution w (FileChanges l) file))
                         retained zeroSums in
   (forall file, In file retained ->
      exists prFile,
        find (changeMatches (stripPrefix w (attr_name file))) l = Some prFile
        /\ contribution w (FileChanges l) file
           = estimate (file_metrics file) (pr_lines prFile))
   /\ stats_total (fromProject workspace cloverData (FileChanges l))
      = mkStatsMetrics
          (newCoverage (sum_statements sums) (sum_coveredStatements sums))
          (newCoverage (sum_methods sums) (sum_coveredMethods sums))
          (newCoverage (sum_conditionals sums) (sum_coveredConditionals sums)))
  /\ (forall file, In file retained ->
      exists prFile,
        find (changeMatches (stripPrefix w (attr_name file))) l = Some prFile
        /\ (pr_lines prFile <> [] ->
            let m := file_metrics file in
            let rangeLines := totalRangeLines (lineRanges (pr_lines prFile)) in
            let scaled total count :=
              round (mul count (if gtb total (of_Z 0) then div rangeLines total
                                else of_Z 1)) in
            contribution w (FileChanges l) file
            = mkSums (scaled (Number (statements m)) (Number (statements m)))
                     (scaled (Number (statements m)) (Number (coveredstatements m)))
                     (scaled (orZero (methods m)) (orZero (methods m)))
                     (scaled (orZero (methods m)) (Number (coveredmethods m)))
                     (scaled (orZero (conditionals m)) (orZero (conditionals m)))
                     (scaled (orZero (conditionals m)) (Number (coveredconditionals m)))))
  /\ (forall m lines,
        statements m = Some (of_Z 100) -> coveredstatements m = Some (of_Z 40) ->
        totalRangeLines (lineRanges lines) = of_Z 10 ->
        sum_statements (estimate m lines) = of_Z 10
        /\ sum_coveredStatements (estimate m lines) = of_Z 4).
Proof.
  intros Hl w retained.
  assert (Hfind : forall file, In file retained ->
            exists prFile,
              find (changeMatches (stripPrefix w (attr_name file))) l = Some prFile
              /\ In prFile l).
  { intros file Hin. apply filter_In in Hin. destruct Hin as [_ Hin].
    cbn [isTouched] in Hin.
    destruct (existsb_find _ _ Hin) as (prFile & Hf & Hi & _).
    exists prFile. auto. }
  assert (Hest : forall file prFile,
            find (changeMatches (stripPrefix w (attr_name file))) l = Some prFile ->
            pr_lines prFile <> [] ->
            contribution w (FileChanges l) file
            = estimate (file_metrics file) (pr_lines prFile)).
  { intros file prFile Hf Hlines. unfold contribution. rewrite Hf.
    destruct (pr_lines prFile) as [|i lines]; [congruence|]. reflexivity. }
  split; [|split].
  - intros Hall. cbv zeta. split.
    + intros file Hin. destruct (Hfind file Hin) as (prFile & Hf & Hi).
      exists prFile. split; [exact Hf|]. apply Hest; [exact Hf|]. apply Hall. exact Hi.
    + unfold fromProject.
      replace (0 <? pr_length (FileChanges l))%nat with true
        by (symmetry; apply Nat.ltb_lt; destruct l; [congruence | cbn; lia]).
      reflexivity.
  - intros file Hin. destruct (Hfind file Hin) as (prFile & Hf & _).
    exists prFile. split; [exact Hf|].
    intros Hlines. cbv zeta. rewrite (Hest file prFile Hf Hlines). reflexivity.
  - intros m lines Hs Hc HR. unfold estimate. cbn [sum_statements sum_coveredStatements].
    rewrite Hs, Hc, HR. split; vm_compute; reflexivity.
Qed.

Lemma C1_attribution_per_metric_witness :
  stats_total (fromProject "/ws" sample_project sample_changes)
  = mkStatsMetrics (newCoverage (of_Z 10) (of_Z 4))
                   (newCoverage (of_Z 10) (of_Z 5))
                   (newCoverage (of_Z 0) (of_Z 0)).
Proof.
  refine (eq_trans
            (proj2 (proj1 (C1_attribution_per_metric "/ws" sample_project
                      [mkPullRequestFile "src/a.ts" [LineRange (of_Z 1) (of_Z 10)]] _)
                          _))
            _).
  - discriminate.
  - intros prFile [<-|[]]. discriminate.
  - vm_compute. reflexivity.
Defined.

(** C1 as stated fails on the methods: with 100 statements, 20 methods (10
    of them covered) and 10 touched lines, the one proportion [10 / 100]
    would give 2 methods and 1 covered, while the file contributes 10
    methods and 5 covered, its methods being scaled by [10 / 20]. *)
Lemma C1_methods_use_their_own_proportion :
  contribution (prefix_of "/ws") sample_changes sample_file
  = mkSums (of_Z 10) (of_Z 4) (of_Z 10) (of_Z 5) (of_Z 0) (of_Z 0)
  /\ claimed_estimate sample_metrics [LineRange (of_Z 1) (of_Z 10)]
     = mkSums (of_Z 10) (of_Z 4) (of_Z 2) (of_Z 1) (of_Z 0) (of_Z 0)
  /\ contribution (prefix_of "/ws") sample_changes sample_file
     <> claimed_estimate sample_metrics [LineRange (of_Z 1) (of_Z 10)]
  /\ Types.methods (stats_total (fromProject "/ws" sample_project sample_changes))
     = newCoverage (of_Z 10) (of_Z 5).
Proof.
  split; [vm_compute; reflexivity|].
  split; [vm_compute; reflexivity|].
  split; [vm_compute; discriminate|].
  vm_compute. reflexivity.
Qed.




End ReaderClaims.

(* ------------------------------------------------------------------ *)
(** * [groupFilesByFolder] *)

Section GroupingClaims.

Import Spec Clover.

Lemma map_get_set_same m k d : map_get (map_set m k d) k = Some d.
Proof.
  induction m as [|[k' d'] m IH]; cbn.
  - rewrite String.eqb_refl. reflexivity.
  - destruct (String.eqb k' k) eqn:E; cbn; rewrite E; [reflexivity | exact IH].
Qed.

Lemma map_get_set_other m k k' d :
  k <> k' -> map_get (map_set m k d) k' = map_get m k'.
Proof.
  intros Hk. induction m as [|[k0 d0] m IH]; cbn.
  - apply String.eqb_neq in Hk. rewrite Hk. reflexivity.
  - destruct (String.eqb k0 k) eqn:E; cbn.
    + apply String.eqb_eq in E. subst k0.
      apply String.eqb_neq in Hk. rewrite Hk. reflexivity.
    + rewrite IH. reflexivity.
Qed.

(** One step of the grouping: the folder of the file gets the file pushed
    at its end (a new folder when the key is new); the others stay. *)
Lemma groupFile_get m fileData k :
  map_get (groupFile m fileData) k =
  if String.eqb (snd fileData) k
  then Some (push (match map_get m (snd fileData) with
                   | Some d => d
                   | None => newFolder (snd fileData)
                   end) [fileRecord fileData])
  else map_get m k.
Proof.
  destruct fileData as [file folder]. unfold groupFile, map_has. cbn [snd fst].
  destruct (map_get m folder) as [d|] eqn:E; cbn [negb].
  - rewrite E. destruct (String.eqb folder k) eqn:Ek.
    + apply String.eqb_eq in Ek. subst k. apply map_get_set_same.
    + apply String.eqb_neq in Ek. apply map_get_set_other. exact Ek.
  - rewrite map_get_set_same. destruct (String.eqb folder k) eqn:Ek.
    + apply String.eqb_eq in Ek. subst k. apply map_get_set_same.
    + apply String.eqb_neq in Ek.
      rewrite !map_get_set_other by exact Ek. reflexivity.
Qed.

Lemma groupFiles_get fs : forall m k,
  map_get (fold_left groupFile fs m) k =
  let here := List.filter (fun fileData => String.eqb (snd fileData) k) fs in
  match map_get m k, here with
  | Some d, _ => Some (mkFolder (folder_name d) (files d ++ map fileRecord here))
  | None, [] => None
  | None, _ :: _ => Some (mkFolder k (map fileRecord here))
  end.
Proof.
  induction fs as [|fd fs IH]; intros m k; cbn [fold_left List.filter].
  - cbv zeta. destruct (map_get m k) as [[n l]|]; [|reflexivity].
    cbn. rewrite app_nil_r. reflexivity.
  - rewrite IH, groupFile_get. cbv zeta.
    destruct (String.eqb (snd fd) k) eqn:Ek.
    + apply String.eqb_eq in Ek. rewrite Ek.
      destruct (map_get m k) as [[n l]|]; unfold push; cbn [folder_name files map newFolder].
      * rewrite <- app_assoc. reflexivity.
      * reflexivity.
    + destruct (map_get m k); reflexivity.
Qed.

(** C5, amended: the grouping is append-only.  The folder of a key holds
    one record for every input file of that folder, in the order of the
    input, whatever their names: a file whose name is already in the
    folder is pushed after the earlier one and replaces nothing (and
    [Folder.get] finds the earlier one). *)
Theorem C5_grouping_appends (filesWithFolders : list (CloverFileXML * string))
        (k : string) :
  let here := List.filter (fun fileData => String.eqb (snd fileData) k)
                          filesWithFolders in
  (here = [] -> map_get (groupFilesByFolder filesWithFolders) k = None)
  /\ (here <> [] ->
      map_get (groupFilesByFolder filesWithFolders) k
      = Some (mkFolder k (map fileRecord here)))
  /\ (forall d fileData,
        map_get (groupFilesByFolder filesWithFolders) k = Some d ->
        In fileData here ->
        In (fileRecord fileData) (files d)
        /\ List.length (files d) = List.length here
        /\ exists f, folder_get d (name (fileRecord fileData)) = Some f).
Proof.
  intros here. unfold groupFilesByFolder.
  pose proof (groupFiles_get filesWithFolders [] k) as H. cbv zeta in H.
  cbn [map_get] in H. fold here in H. clearbody here.
  split; [|split].
  - intros E. rewrite H, E. reflexivity.
  - intros E. rewrite H. destruct here; [congruence | reflexivity].
  - intros d fd Hd Hin. rewrite H in Hd.
    assert (Hd' : d = mkFolder k (map fileRecord here)).
    { destruct here; [destruct Hin | congruence]. }
    subst d. cbn [files].
    split; [apply in_map; exact Hin|]. split; [apply length_map|].
    unfold folder_get. cbn [files].
    destruct (find (fun f => String.eqb (name f) (name (fileRecord fd)))
                   (map fileRecord here)) as [f|] eqn:Ef; [eauto|].
    exfalso.
    pose proof (find_none _ _ Ef (fileRecord fd) (in_map fileRecord _ _ Hin)) as Hn.
    cbv beta in Hn. rewrite String.eqb_refl in Hn. discriminate.
Qed.

Lemma C5_grouping_appends_witness :
  map_get (groupFilesByFolder (extractFolderPaths [first_record; second_record]))
          "/ws/src"
  = Some (mkFolder "/ws/src"
            [fileRecord (first_record, "/ws/src"%string);
             fileRecord (second_record, "/ws/src"%string)]).
Proof.
  refine (eq_trans
            (proj1 (proj2 (C5_grouping_appends
                             (extractFolderPaths [first_record; second_record])
                             "/ws/src")) _) _).
  - vm_compute. discriminate.
  - vm_compute. reflexivity.
Defined.

(** C5 as stated fails: two records of the path [/ws/src/a.ts] leave two
    files named [a.ts] in the folder [/ws/src], the earlier one first; the
    later one has not replaced it. *)
Lemma C5_same_name_is_kept_twice :
  exists d,
    map_get (processFilesIntoFolders [first_record; second_record]) "/ws/src" = Some d
    /\ map name (files d) = ["a.ts"%string; "a.ts"%string]
    /\ ~ NoDup (map name (files d))
    /\ map (fun f => total (lines (metrics f))) (files d) = [of_Z 100; of_Z 50].
Proof.
  eexists. split; [vm_compute; reflexivity|].
  split; [reflexivity|]. split; [|reflexivity].
  intros H. inversion H as [|x l Hn _]. apply Hn. left. reflexivity.
Qed.

End GroupingClaims.

(* ------------------------------------------------------------------ *)
(** * [createFileMetrics]: the line ranges *)

Section LineRangeClaims.

Import Spec Clover.

Lemma extendGroup_cons r g n cov :
  exists r1 g1, extendGroup (r :: g) n cov = r1 :: g1
                /\ range_start r1 = range_start r.
Proof.
  destruct g as [|r' g]; cbn.
  - destruct (range_end r =? n - 1); eexists _, _; split; reflexivity.
  - eexists _, _; split; reflexivity.
Qed.

Lemma covers_cons r g k :
  covers (r :: g) k <-> (range_start r <= k <= range_end r) \/ covers g k.
Proof.
  unfold covers. split.
  - intros (x & [<-|Hin] & Hk); [left; exact Hk | right; exists x; auto].
  - intros [Hk|(x & Hin & Hk)]; [exists r | exists x]; cbn; auto.
Qed.

Lemma covers_nil k : covers [] k <-> False.
Proof. unfold covers. split; [intros (x & [] & _) | intros []]. Qed.

(** One line more in a group whose ranges all end before it. *)
Lemma extendGroup_step cov n g :
  separated g -> (forall r, In r g -> range_end r < n) ->
  separated (extendGroup g n cov)
  /\ (forall r, In r (extendGroup g n cov) -> range_end r <= n)
  /\ (forall k, covers (extendGroup g n cov) k <-> covers g k \/ k = n)
  /\ ((forall r, In r g -> range_coverage r = cov) ->
      forall r, In r (extendGroup g n cov) -> range_coverage r = cov).
Proof.
  induction g as [|r g IH]; intros Hsep Hend.
  - cbn [extendGroup]. split; [cbn; lia|]. split; [|split].
    + intros r [<-|[]]. cbn. lia.
    + intros k. rewrite covers_cons, covers_nil. cbn [range_start range_end]. lia.
    + intros _ r [<-|[]]. reflexivity.
  - destruct g as [|r' g].
    + clear IH. cbn in Hsep. destruct Hsep as (Hr & _ & _).
      pose proof (Hend r (or_introl eq_refl)) as Hrn.
      cbn [extendGroup]. destruct (Z.eqb_spec (range_end r) (n - 1)) as [E|E].
      * split; [cbn; lia|]. split; [|split].
        -- intros x [<-|[]]. cbn. lia.
        -- intros k. rewrite !covers_cons, covers_nil.
           cbn [range_start range_end]. lia.
        -- intros Hc x [<-|[]]. cbn. apply Hc. left. reflexivity.
      * split; [cbn; lia|]. split; [|split].
        -- intros x [<-|[<-|[]]]; cbn; lia.
        -- intros k. rewrite !covers_cons, covers_nil.
           cbn [range_start range_end]. lia.
        -- intros Hc x [<-|[<-|[]]]; [apply Hc; left; reflexivity | reflexivity].
    + cbn in Hsep. destruct Hsep as (Hr & Hgap & Hsep').
      destruct (IH Hsep' (fun x Hx => Hend x (or_intror Hx)))
        as (IH1 & IH2 & IH3 & IH4).
      destruct (extendGroup_cons r' g n cov) as (r1 & g1 & E1 & Es).
      change (extendGroup (r :: r' :: g) n cov)
        with (r :: extendGroup (r' :: g) n cov).
      split; [|split; [|split]].
      * cbn [separated]. split; [exact Hr|]. split; [|exact IH1].
        rewrite E1, Es. exact Hgap.
      * intros x [<-|Hx]; [|apply IH2; exact Hx].
        pose proof (Hend r (or_introl eq_refl)). lia.
      * intros k. rewrite covers_cons, IH3, (covers_cons r). tauto.
      * intros Hc x [<-|Hx]; [apply Hc; left; reflexivity|].
        apply IH4; [|exact Hx]. intros y Hy. apply Hc. right. exact Hy.
Qed.

(** A whole ascending run of lines added to a group. *)
Lemma extendGroup_run cov ns : forall g,
  StronglySorted Z.lt ns -> separated g ->
  (forall r n, In r g -> In n ns -> range_end r < n) ->
  (forall r, In r g -> range_coverage r = cov) ->
  let g' := fold_left (fun g n => extendGroup g n cov) ns g in
  separated g'
  /\ (forall k, covers g' k <-> covers g k \/ In k ns)
  /\ (forall r, In r g' -> range_coverage r = cov).
Proof.
  induction ns as [|n ns IH]; intros g Hs Hsep Hend Hcov; cbn [fold_left].
  - cbv zeta. split; [exact Hsep|]. split; [|exact Hcov]. cbn. tauto.
  - apply StronglySorted_inv in Hs. destruct Hs as [Hs Hn].
    destruct (extendGroup_step cov n g Hsep (fun r Hr => Hend r n Hr (or_introl eq_refl)))
      as (S1 & S2 & S3 & S4).
    destruct (IH (extendGroup g n cov) Hs S1) as (I1 & I2 & I3).
    + intros r n' Hr Hn'. pose proof (S2 r Hr).
      rewrite Forall_forall in Hn. pose proof (Hn n' Hn'). lia.
    + apply S4. exact Hcov.
    + cbv zeta. split; [exact I1|]. split; [|exact I3].
      intros k. rewrite I2, S3. cbn. intuition.
Qed.

(** The two groups are built independently, each from the lines of its
    status. *)
Lemma addLine_groups ls : forall groups methodCoverage,
  fst (fold_left addLine ls (groups, methodCoverage)) =
  mkLineGroups
    (fold_left (fun g n => extendGroup g n 0)
               (map line_num (List.filter (fun l => negb (hit l)) ls)) (group0 groups))
    (fold_left (fun g n => extendGroup g n 100)
               (map line_num (List.filter hit ls)) (group100 groups)).
Proof.
  induction ls as [|l ls IH]; intros groups methodCoverage.
  - destruct groups; reflexivity.
  - cbn [fold_left List.filter].
    assert (Hst : (hit l = true /\ lineStatus l = 100)
                  \/ (hit l = false /\ lineStatus l = 0)).
    { unfold hit, lineStatus. destruct (0 <? line_count l); auto. }
    unfold addLine at 2. cbv zeta. fold (hit l).
    destruct Hst as [[Eh Es]|[Eh Es]]; rewrite Eh, Es; cbn [negb];
      match goal with |- fst (fold_left addLine ls (?G, ?M)) = _ =>
        rewrite (IH G M) end; reflexivity.
Qed.

Lemma ascending_filter (p : CloverLine -> bool) ls :
  ascending ls -> StronglySorted Z.lt (map line_num (List.filter p ls)).
Proof.
  unfold ascending. induction ls as [|l ls IH]; intros H; cbn; [constructor|].
  cbn in H. apply StronglySorted_inv in H. destruct H as [H Hl].
  destruct (p l); cbn; [|apply IH; exact H].
  constructor; [apply IH; exact H|].
  rewrite Forall_forall in *. intros n Hn. apply Hl.
  apply in_map_iff in Hn. destruct Hn as (x & <- & Hx).
  apply filter_In in Hx. apply in_map. tauto.
Qed.

Lemma hit_true l : hit l = true <-> 0 < line_count l.
Proof.
  unfold hit, lineStatus. destruct (Z.ltb_spec 0 (line_count l)); cbn; split;
    intros; try lia; try reflexivity; discriminate.
Qed.

Lemma hit_false l : negb (hit l) = true <-> line_count l <= 0.
Proof.
  unfold hit, lineStatus. destruct (Z.ltb_spec 0 (line_count l)); cbn; split;
    intros; try lia; try reflexivity; discriminate.
Qed.

Lemma In_line_nums (p : CloverLine -> bool) ls n :
  In n (map line_num (List.filter p ls))
  <-> exists l, In l ls /\ line_num l = n /\ p l = true.
Proof.
  rewrite in_map_iff. split.
  - intros (l & <- & Hl). apply filter_In in Hl. exists l. tauto.
  - intros (l & Hl & <- & Hp). exists l. split; [reflexivity|].
    apply filter_In. tauto.
Qed.

(** C4, amended: for line records in ascending order of their numbers, the
    line coverage of a file is made of maximal ranges grouped by status:
    first the ranges of the lines that were not hit (status 0), then those
    of the lines that were hit (status 100).  Within each group the ranges
    ascend and no two of them can be merged (a range ends at least two
    lines before the next one starts), and the ranges of a group cover
    exactly the lines of its status.  For lines 1, 2, 3, 5, 6 hit and line
    4 not, the sequence is [4: 0], [1-3: 100], [5-6: 100]. *)
Theorem C4_ranges_grouped_by_status (attributes : CloverXMLMetrics)
        (fileData : CloverFileXML) :
  ascending (file_line fileData) ->
  (exists zero hundred,
      lineCoverage (createFileMetrics attributes fileData)
      = map rangeEntry (zero ++ hundred)
      /\ separated zero /\ separated hundred
      /\ (forall r, In r zero -> range_coverage r = 0)
      /\ (forall r, In r hundred -> range_coverage r = 100)
      /\ (forall n, covers zero n <->
                    exists l, In l (file_line fileData)
                              /\ line_num l = n /\ line_count l <= 0)
      /\ (forall n, covers hundred n <->
                    exists l, In l (file_line fileData)
                              /\ line_num l = n /\ 0 < line_count l))
  /\ (file_line fileData = example_lines ->
      lineCoverage (createFileMetrics attributes fileData)
      = [mkLineCoverageEntry "4" 0; mkLineCoverageEntry "1-3" 100;
         mkLineCoverageEntry "5-6" 100]).
Proof.
  intros Hasc. split.
  - pose proof (addLine_groups (file_line fileData) (mkLineGroups [] []) []) as Hg.
    cbn [group0 group100] in Hg.
    destruct (extendGroup_run 0
                (map line_num (List.filter (fun l => negb (hit l)) (file_line fileData)))
                [] (ascending_filter _ _ Hasc) I
                (fun r n H => match H with end) (fun r H => match H with end))
      as (Z1 & Z2 & Z3).
    destruct (extendGroup_run 100
                (map line_num (List.filter hit (file_line fileData)))
                [] (ascending_filter _ _ Hasc) I
                (fun r n H => match H with end) (fun r H => match H with end))
      as (H1 & H2 & H3).
    cbv zeta in Z1, Z2, Z3, H1, H2, H3.
    eexists _, _. split; [|split; [exact Z1|split; [exact H1|split; [exact Z3|split;
      [exact H3|split]]]]].
    + unfold createFileMetrics.
      destruct (fold_left addLine (file_line fileData) (mkLineGroups [] [], []))
        as [groups methodCoverage].
      cbn [fst] in Hg. subst groups. reflexivity.
    + intros n. rewrite Z2, covers_nil, In_line_nums.
      split.
      * intros [[]|(l & Hl & Hn & Hp)]. exists l. rewrite hit_false in Hp. tauto.
      * intros (l & Hl & Hn & Hp). right. exists l. rewrite hit_false. tauto.
    + intros n. rewrite H2, covers_nil, In_line_nums.
      split.
      * intros [[]|(l & Hl & Hn & Hp)]. exists l. rewrite hit_true in Hp. tauto.
      * intros (l & Hl & Hn & Hp). right. exists l. rewrite hit_true. tauto.
  - intros E. unfold createFileMetrics. rewrite E. reflexivity.
Qed.

Lemma C4_ranges_grouped_by_status_witness :
  lineCoverage (createFileMetrics sample_metrics example_file)
  = [mkLineCoverageEntry "4" 0; mkLineCoverageEntry "1-3" 100;
     mkLineCoverageEntry "5-6" 100].
Proof.
  refine (proj2 (C4_ranges_grouped_by_status sample_metrics example_file _) eq_refl).
  unfold ascending. cbn. repeat (constructor; try lia).
Defined.

(** C4 as stated fails: the ranges do not come in ascending order of line
    numbers.  For the lines of the example the range of line 4 comes
    first, before the range 1-3. *)
Lemma C4_ranges_not_in_line_order :
  ascending example_lines
  /\ lineCoverage (createFileMetrics sample_metrics example_file)
     = [mkLineCoverageEntry "4" 0; mkLineCoverageEntry "1-3" 100;
        mkLineCoverageEntry "5-6" 100]
  /\ lineCoverage (createFileMetrics sample_metrics example_file)
     <> claimed_lineCoverage.
Proof.
  split; [unfold ascending; cbn; repeat (constructor; try lia)|].
  split; [reflexivity | vm_compute; discriminate].
Qed.

End LineRangeClaims.

(* ------------------------------------------------------------------ *)
(** * The embedding at work *)

Section Examples.

Import Spec Clover Main.

Example folder_of_path : extractFolderFromPath "src/a/b.ts" = "src/a"%string.
Proof. reflexivity. Qed.

Example name_of_path : extractFileNameFromPath "src/a/b.ts" = "b.ts"%string.
Proof. reflexivity. Qed.

Example folder_of_root_file :
  extractFolderFromPath "b.ts" = ""%string
  /\ extractFileNameFromPath "b.ts" = "b.ts"%string.
Proof. split; reflexivity. Qed.

Example round_ties_upwards :
  round (lit 5 10) = of_Z 1 /\ round (lit 25 10) = of_Z 3
  /\ round (lit (-25) 10) = of_Z (-2) /\ round (lit (-5) 10) = S754_zero true.
Proof. repeat split; vm_compute; reflexivity. Qed.

Example toFixed4_of_a_third : toFixed4 (lit 1 3) = lit 3333 (10 ^ 4).
Proof. vm_compute. reflexivity. Qed.

(** A report of one package with two files, [a.ts] fully covered and
    [b.ts] not at all. *)
Example two_files_report :
  let attrs s c := mkCloverXMLMetrics (Some (of_Z s)) (Some (of_Z c))
                     (Some (of_Z 0)) (Some (of_Z 0)) (Some (of_Z 0)) (Some (of_Z 0)) in
  let a := mkCloverFileXML "src/a.ts" None (attrs 10 10) [] in
  let b := mkCloverFileXML "src/b.ts" None (attrs 10 0) [] in
  let s := fromProject "/ws" (mkCloverProject [] [[b; a]] (attrs 20 10)) (FileNames []) in
  percentual (lines (stats_total s)) = lit 5 10
  /\ map fst (folders s) = ["src"%string]
  /\ map (fun f => (name f, percentual (lines (metrics f))))
         (match map_get (folders s) "src" with Some d => files d | None => [] end)
     = [("a.ts"%string, of_Z 1); ("b.ts"%string, of_Z 0)].
Proof. repeat split; vm_compute; reflexivity. Qed.

(** The two comparisons of [checkThreshold] work on binary64 products.  A
    percentage that reads [57.00] may compute just below 57, and a
    decrease that reads [5.00] just below 5: [0.57 * 100] is less than 57
    and [(0.85 - 0.80) * 100] is less than 5. *)
Remark percentages_in_binary64 :
  gtb (of_Z 57) (mul (lit 57 100) (of_Z 100)) = true
  /\ geb (decrease (newCoverage (of_Z 100) (of_Z 85)) (newCoverage (of_Z 100) (of_Z 80)))
         (of_Z 5) = false.
Proof. split; vm_compute; reflexivity. Qed.

End Examples.

(* ------------------------------------------------------------------ *)
(** * Paths: [extractFolderFromPath] and [extractFileNameFromPath] *)

Section PathProperties.

Import Clover Behaviour.

Lemma str_app_assoc (a b c : string) :
  ((a ++ b) ++ c)%string = (a ++ b ++ c)%string.
Proof. induction a as [|x a IH]; cbn; [reflexivity | rewrite IH; reflexivity]. Qed.

Lemma str_app_nil_r (a : string) : (a ++ "")%string = a.
Proof. induction a as [|x a IH]; cbn; [reflexivity | rewrite IH; reflexivity]. Qed.

Lemma str_length_app (a b : string) :
  String.length (a ++ b) = (String.length a + String.length b)%nat.
Proof. induction a as [|x a IH]; cbn; [reflexivity | rewrite IH; reflexivity]. Qed.

Lemma split_not_nil c s : JSString.split c s <> [].
Proof.
  destruct s as [|a r]; cbn; [discriminate|].
  destruct (Ascii.eqb a c); [discriminate|].
  destruct (JSString.split c r); discriminate.
Qed.

Lemma join_split c s :
  JSString.join (String c EmptyString) (JSString.split c s) = s.
Proof.
  unfold JSString.join. set (sep := String c EmptyString).
  induction s as [|a r IH]; [reflexivity|]. cbn [JSString.split].
  destruct (JSString.split c r) as [|h t] eqn:Es; [now apply split_not_nil in Es|].
  destruct (Ascii.eqb a c) eqn:E.
  - apply Ascii.eqb_eq in E. subst a.
    change (String.concat sep (EmptyString :: h :: t))
      with (EmptyString ++ sep ++ String.concat sep (h :: t))%string.
    rewrite IH. reflexivity.
  - destruct t as [|y t].
    + cbn in *. rewrite IH. reflexivity.
    + change (String.concat sep (String a h :: y :: t))
        with (String a (h ++ sep ++ String.concat sep (y :: t)))%string.
      change (String.concat sep (h :: y :: t))
        with (h ++ sep ++ String.concat sep (y :: t))%string in IH.
      rewrite IH. reflexivity.
Qed.

Lemma split_app c a b :
  JSString.split c (a ++ String c b)%string
  = JSString.split c a ++ JSString.split c b.
Proof.
  induction a as [|x a IH]; cbn [String.append JSString.split].
  - rewrite Ascii.eqb_refl. reflexivity.
  - destruct (Ascii.eqb x c); rewrite IH; [reflexivity|].
    destruct (JSString.split c a) as [|h t] eqn:Es; [now apply split_not_nil in Es|].
    reflexivity.
Qed.

Lemma split_no_slash s :
  no_slash s = true -> JSString.split "/" s = [s].
Proof.
  induction s as [|a r IH]; [reflexivity|]. cbn.
  destruct (Ascii.eqb a "/"); [discriminate|]. cbn. intros H.
  rewrite (IH H). reflexivity.
Qed.

Lemma split_slash s :
  no_slash s = false -> removelast (JSString.split "/" s) <> [].
Proof.
  induction s as [|a r IH]; [discriminate|]. cbn [no_slash JSString.split].
  destruct (Ascii.eqb a "/"); cbn [negb andb].
  - intros _. destruct (JSString.split "/" r) eqn:Es; [now apply split_not_nil in Es|].
    discriminate.
  - intros H. specialize (IH H).
    destruct (JSString.split "/" r) as [|h [|y t]]; [now elim IH|now elim IH|discriminate].
Qed.

Lemma split_segments s :
  Forall (fun x => no_slash x = true) (JSString.split "/" s).
Proof.
  induction s as [|a r IH]; cbn [JSString.split].
  - repeat constructor.
  - destruct (Ascii.eqb a "/") eqn:E.
    + constructor; [reflexivity | exact IH].
    + destruct (JSString.split "/" r) as [|h t].
      * repeat constructor. cbn. rewrite E. reflexivity.
      * inversion IH; subst. constructor; [|assumption].
        cbn. rewrite E. assumption.
Qed.

Lemma concat_snoc sep l x :
  l <> [] ->
  String.concat sep (l ++ [x]) = (String.concat sep l ++ sep ++ x)%string.
Proof.
  induction l as [|a l IH]; [congruence|]. intros _.
  destruct l as [|b l]; [reflexivity|].
  specialize (IH ltac:(discriminate)). cbn [app] in *.
  change (String.concat sep (a :: b :: l ++ [x]))
    with (a ++ sep ++ String.concat sep (b :: l ++ [x]))%string.
  rewrite IH.
  change (String.concat sep (a :: b :: l))
    with (a ++ sep ++ String.concat sep (b :: l))%string.
  rewrite !str_app_assoc. reflexivity.
Qed.

(** X1: composing a path and taking it apart again: for any folder (it may
    hold separators or be empty) and any non-empty name without
    separator, the path [folder/name] is split into that folder and that
    name. *)
Theorem path_of_folder_and_name (folder name : string) :
  no_slash name = true -> name <> ""%string ->
  extractFolderFromPath (folder ++ "/" ++ name) = folder
  /\ extractFileNameFromPath (folder ++ "/" ++ name) = name.
Proof.
  intros Hn Hne. unfold extractFolderFromPath, extractFileNameFromPath.
  change (folder ++ "/" ++ name)%string with (folder ++ String "/" name)%string.
  rewrite split_app, (split_no_slash _ Hn).
  rewrite removelast_last, last_last. split.
  - apply (join_split "/").
  - unfold JSString.truthy. apply String.eqb_neq in Hne. rewrite Hne. reflexivity.
Qed.

Lemma path_of_folder_and_name_witness :
  extractFolderFromPath "/ws/src/a.ts" = "/ws/src"%string
  /\ extractFileNameFromPath "/ws/src/a.ts" = "a.ts"%string.
Proof.
  apply (path_of_folder_and_name "/ws/src" "a.ts"); [reflexivity | discriminate].
Defined.

(** X2: taking any path apart, there are three cases.  Without separator the
    folder is empty and the name is the path.  With a separator and a
    non-empty last segment the path is [folder/name] and the name holds
    no separator.  A path that ends with the separator keeps the whole
    path as its name, next to the folder before the closing separator. *)
Theorem path_taken_apart (filePath : string) :
  let folder := extractFolderFromPath filePath in
  let name := extractFileNameFromPath filePath in
  (no_slash filePath = true /\ folder = ""%string /\ name = filePath)
  \/ (no_slash filePath = false /\ filePath = (folder ++ "/" ++ name)%string
      /\ no_slash name = true /\ name <> ""%string)
  \/ (no_slash filePath = false /\ filePath = (folder ++ "/")%string
      /\ name = filePath).
Proof.
  cbv zeta. unfold extractFolderFromPath, extractFileNameFromPath.
  destruct (no_slash filePath) eqn:Hs.
  - left. rewrite (split_no_slash _ Hs). cbn [removelast last].
    split; [reflexivity|]. split; [reflexivity|].
    unfold JSString.truthy. destruct (String.eqb filePath ""); reflexivity.
  - right.
    pose proof (split_slash _ Hs) as Hrl.
    pose proof (split_segments filePath) as Hseg.
    pose proof (join_split "/" filePath) as Hj.
    pose proof (@app_removelast_last _ (JSString.split "/" filePath) ""%string
                  (split_not_nil _ _)) as Hd.
    set (l := removelast (JSString.split "/" filePath)) in *.
    set (x := last (JSString.split "/" filePath) ""%string) in *.
    clearbody l x. rewrite Hd in Hj, Hseg. unfold JSString.join in Hj.
    rewrite concat_snoc in Hj by exact Hrl.
    apply Forall_app in Hseg. destruct Hseg as [_ Hx]. apply Forall_inv in Hx.
    unfold JSString.truthy, JSString.join.
    destruct (String.eqb x "") eqn:Ex; cbn [negb].
    + right. apply String.eqb_eq in Ex. rewrite Ex in Hj.
      split; [reflexivity|]. split; [|reflexivity]. symmetry. exact Hj.
    + left. split; [reflexivity|]. split; [symmetry; exact Hj|].
      split; [assumption|]. apply String.eqb_neq. exact Ex.
Qed.

End PathProperties.

(* ------------------------------------------------------------------ *)
(** * Sorting and grouping of the files *)

Section GroupingProperties.

Import Spec Clover Behaviour.

Lemma ltb_asym (a b : string) : String.ltb a b = true -> String.ltb b a = false.
Proof.
  unfold String.ltb. rewrite (String.compare_antisym b a).
  destruct (String.compare a b); cbn; congruence.
Qed.

Lemma insertByName_perm f l : Permutation (insertByName f l) (f :: l).
Proof.
  induction l as [|g r IH]; cbn; [apply Permutation_refl|].
  destruct (String.ltb (attr_name f) (attr_name g)); [apply Permutation_refl|].
  apply perm_trans with (g :: f :: r); [apply perm_skip; exact IH | apply perm_swap].
Qed.

Lemma insertByName_sorted f l :
  sorted_by_name l -> sorted_by_name (insertByName f l).
Proof.
  unfold sorted_by_name. induction 1 as [|g r Hs IH Hd]; cbn.
  - repeat constructor.
  - destruct (String.ltb (attr_name f) (attr_name g)) eqn:E.
    + constructor; [constructor; assumption|]. constructor. apply ltb_asym. exact E.
    + constructor; [exact IH|].
      destruct Hd as [|h r' Hh]; cbn.
      * constructor. exact E.
      * destruct (String.ltb (attr_name f) (attr_name h)); constructor; assumption.
Qed.

Lemma sort_fold l : forall acc,
  sorted_by_name acc ->
  sorted_by_name (fold_left (fun acc f => insertByName f acc) l acc)
  /\ Permutation (fold_left (fun acc f => insertByName f acc) l acc) (acc ++ l).
Proof.
  induction l as [|f l IH]; intros acc Hacc; cbn [fold_left].
  - rewrite app_nil_r. split; [exact Hacc | apply Permutation_refl].
  - destruct (IH (insertByName f acc) (insertByName_sorted f acc Hacc)) as [Hs Hp].
    split; [exact Hs|].
    apply perm_trans with (insertByName f acc ++ l); [exact Hp|].
    apply perm_trans with ((f :: acc) ++ l).
    + apply Permutation_app_tail. apply insertByName_perm.
    + cbn. apply Permutation_middle.
Qed.

(** X3: [sortFilesByName] returns the files it was given, each as often as it
    came, in an order where no name is less than the one before it. *)
Theorem sortFilesByName_sorts (files : list CloverFileXML) :
  Permutation (sortFilesByName files) files
  /\ sorted_by_name (sortFilesByName files).
Proof.
  destruct (sort_fold files [] (Sorted_nil _)) as [Hs Hp].
  split; [exact Hp | exact Hs].
Qed.

Lemma map_get_In m k d : map_get m k = Some d -> In (k, d) m.
Proof.
  induction m as [|[k' d'] m IH]; cbn; [discriminate|].
  destruct (String.eqb k' k) eqn:E.
  - apply String.eqb_eq in E. intros [= ->]. left. congruence.
  - intros H. right. exact (IH H).
Qed.

Lemma map_get_None m k : map_get m k = None <-> ~ In k (map fst m).
Proof.
  induction m as [|[k' d'] m IH]; cbn; [tauto|].
  destruct (String.eqb k' k) eqn:E.
  - apply String.eqb_eq in E. split; [discriminate | intros H; elim H; left; exact E].
  - apply String.eqb_neq in E. rewrite IH. tauto.
Qed.

Lemma In_map_get m k d :
  NoDup (map fst m) -> In (k, d) m -> map_get m k = Some d.
Proof.
  induction m as [|[k' d'] m IH]; cbn; [tauto|].
  intros Hnd Hin. inversion Hnd as [|? ? Hk Hnd']; subst.
  destruct Hin as [[= -> ->]|Hin].
  - rewrite String.eqb_refl. reflexivity.
  - destruct (String.eqb k' k) eqn:E.
    + apply String.eqb_eq in E. subst k'. elim Hk.
      apply (in_map fst) in Hin. exact Hin.
    + exact (IH Hnd' Hin).
Qed.

Lemma map_set_keys m k d :
  map fst (map_set m k d) =
  if map_has m k then map fst m else map fst m ++ [k].
Proof.
  unfold map_has. induction m as [|[k' d'] m IH]; cbn; [reflexivity|].
  destruct (String.eqb k' k) eqn:E; cbn; [reflexivity|].
  rewrite IH. destruct (map_get m k); reflexivity.
Qed.

Lemma groupFile_keys m fileData :
  map fst (groupFile m fileData) =
  if map_has m (snd fileData) then map fst m else map fst m ++ [snd fileData].
Proof.
  destruct fileData as [file folder]. unfold groupFile. cbn [snd].
  destruct (map_has m folder) eqn:E; cbn [negb]; unfold map_has in E.
  - destruct (map_get m folder) eqn:G; [|discriminate].
    rewrite map_set_keys. unfold map_has. rewrite G. reflexivity.
  - rewrite map_get_set_same, map_set_keys.
    unfold map_has at 1. rewrite map_get_set_same.
    rewrite map_set_keys. unfold map_has.
    destruct (map_get m folder); [discriminate | reflexivity].
Qed.

Lemma groupFiles_keys fs : forall m,
  NoDup (map fst m) ->
  NoDup (map fst (fold_left groupFile fs m))
  /\ (forall k, In k (map fst (fold_left groupFile fs m))
                <-> In k (map fst m) \/ In k (map snd fs)).
Proof.
  induction fs as [|fd fs IH]; intros m Hnd; cbn [fold_left map].
  - split; [exact Hnd|]. intros k. cbn. tauto.
  - assert (Hm : NoDup (map fst (groupFile m fd))
                 /\ forall k, In k (map fst (groupFile m fd))
                              <-> In k (map fst m) \/ snd fd = k).
    { rewrite groupFile_keys. unfold map_has.
      destruct (map_get m (snd fd)) as [d|] eqn:G.
      - split; [exact Hnd|]. intros k. split; [tauto|].
        intros [H|<-]; [exact H|]. apply map_get_In in G.
        apply (in_map fst) in G. exact G.
      - apply map_get_None in G. split.
        + apply NoDup_app; [exact Hnd | repeat constructor; intros [] |].
          intros k Hk [<-|[]]. exact (G Hk).
        + intros k. rewrite in_app_iff. cbn. tauto. }
    destruct Hm as [Hnd' Hk'].
    destruct (IH _ Hnd') as [H1 H2]. split; [exact H1|].
    intros k. rewrite H2, Hk'. cbn. tauto.
Qed.

Lemma fileCount_set m k d :
  (fileCount (map_set m k d) + match map_get m k with
                               | Some d0 => List.length (files d0)
                               | None => 0
                               end
   = fileCount m + List.length (files d))%nat.
Proof.
  unfold fileCount, list_sum.
  induction m as [|[k' d'] m IH]; cbn -[Nat.add]; [lia|].
  destruct (String.eqb k' k); cbn -[Nat.add]; [lia|].
  destruct (map_get m k); lia.
Qed.

Lemma groupFile_count m fileData :
  fileCount (groupFile m fileData) = S (fileCount m).
Proof.
  destruct fileData as [file folder]. unfold groupFile, map_has.
  destruct (map_get m folder) as [d|] eqn:G; cbn [negb].
  - rewrite G. cbv zeta.
    pose proof (fileCount_set m folder
                  (push d [mkFile (extractFileNameFromPath (attr_name file))
                                  (createFileMetrics (file_metrics file) file)])) as H.
    rewrite G in H. unfold push at 2 in H. cbn [files] in H.
    rewrite length_app in H. cbn [List.length] in H. lia.
  - rewrite map_get_set_same. cbv zeta.
    pose proof (fileCount_set m folder (newFolder folder)) as H1. rewrite G in H1.
    pose proof (fileCount_set (map_set m folder (newFolder folder)) folder
                  (push (newFolder folder)
                        [mkFile (extractFileNameFromPath (attr_name file))
                                (createFileMetrics (file_metrics file) file)])) as H2.
    rewrite map_get_set_same in H2.
    unfold push at 2 in H2. cbn [files newFolder app List.length] in H1, H2. lia.
Qed.

Lemma groupFiles_count fs : forall m,
  fileCount (fold_left groupFile fs m) = (fileCount m + List.length fs)%nat.
Proof.
  induction fs as [|fd fs IH]; intros m; cbn [fold_left List.length]; [lia|].
  rewrite IH, groupFile_count. lia.
Qed.

(** X4: the folders that [groupFilesByFolder] builds partition its input.
    The keys of the map are pairwise distinct and are the folders of the
    input; the folder under a key carries the key as its name and holds,
    in the order of the input, one record for each file of that folder,
    so no folder is empty; and the records of all folders together are
    as many as the files of the input. *)
Theorem groupFilesByFolder_partitions
        (filesWithFolders : list (CloverFileXML * string)) :
  let m := groupFilesByFolder filesWithFolders in
  NoDup (map fst m)
  /\ (forall k, In k (map fst m) <-> In k (map snd filesWithFolders))
  /\ (forall k d, In (k, d) m ->
        folder_name d = k
        /\ files d = map fileRecord
                       (List.filter (fun fileData => String.eqb (snd fileData) k)
                                    filesWithFolders)
        /\ files d <> [])
  /\ fileCount m = List.length filesWithFolders.
Proof.
  cbv zeta. unfold groupFilesByFolder.
  destruct (groupFiles_keys filesWithFolders [] (NoDup_nil _)) as [Hnd Hk].
  split; [exact Hnd|]. split; [intros k; rewrite Hk; cbn; tauto|].
  split; [|apply (groupFiles_count filesWithFolders [])].
  intros k d Hin. apply (In_map_get _ _ _ Hnd) in Hin.
  rewrite groupFiles_get in Hin. cbv zeta in Hin. cbn [map_get] in Hin.
  destruct (List.filter _ filesWithFolders) as [|fd here]; [discriminate|].
  injection Hin as <-. cbn [folder_name files].
  split; [reflexivity|]. split; [reflexivity | discriminate].
Qed.

Lemma getAllFiles_concat (p : CloverProject) :
  getAllFiles p = project_file p ++ List.concat (project_package p).
Proof.
  unfold getAllFiles. f_equal.
  assert (H : forall l acc, fold_left (fun (acc pkg : list CloverFileXML) => acc ++ pkg) l acc
                            = acc ++ List.concat l).
  { induction l as [|x l IH]; intros acc; cbn; [now rewrite app_nil_r|].
    rewrite IH, app_assoc. reflexivity. }
  apply (H _ []).
Qed.

Lemma processFilesIntoFolders_count (fs : list CloverFileXML) :
  fileCount (processFilesIntoFolders fs) = List.length fs.
Proof.
  unfold processFilesIntoFolders, groupFilesByFolder, extractFolderPaths.
  rewrite groupFiles_count, length_map. cbn.
  unfold sortFilesByName.
  rewrite (Permutation_length (proj2 (sort_fold _ [] (Sorted_nil _)))).
  unfold normalizeFileNames. apply length_map.
Qed.

(** X5: [fromString] on a report the parser accepts: the folders hold one
    record for every file node it reports on.  Without touched files
    these are all file nodes of the report, those under the project
    first and then those of each package in turn, and the totals are the
    project's own metrics; with touched files they are the file nodes
    that match one. *)
Theorem fromProject_reports_each_file_once
        (workspace : string) (cloverData : CloverProject) (prs : PullRequestFiles) :
  getAllFiles cloverData
  = project_file cloverData ++ List.concat (project_package cloverData)
  /\ (pr_length prs = 0%nat ->
      fileCount (folders (fromProject workspace cloverData prs))
      = (List.length (project_file cloverData)
         + list_sum (map (@List.length _) (project_package cloverData)))%nat
      /\ stats_total (fromProject workspace cloverData prs)
         = createTotalMetrics (project_metrics cloverData))
  /\ ((0 < pr_length prs)%nat ->
      fileCount (folders (fromProject workspace cloverData prs))
      = List.length (List.filter (isTouched (prefix_of workspace) prs)
                                 (getAllFiles cloverData))).
Proof.
  split; [apply getAllFiles_concat|]. split.
  - intros H0. unfold fromProject. rewrite H0. cbn [Nat.ltb Nat.leb folders stats_total].
    split; [|reflexivity].
    rewrite processFilesIntoFolders_count, getAllFiles_concat, length_app.
    f_equal. induction (project_package cloverData) as [|x l IH]; [reflexivity|].
    cbn. rewrite length_app, IH. reflexivity.
  - intros Hpos. rewrite fromProject_touched by exact Hpos. cbv zeta. cbn [folders].
    apply processFilesIntoFolders_count.
Qed.

Lemma fromProject_reports_each_file_once_witness :
  fileCount (folders (fromProject "/ws" sample_project sample_changes)) = 1%nat.
Proof.
  refine (proj2 (proj2 (fromProject_reports_each_file_once "/ws" sample_project
                          sample_changes)) _).
  cbn. lia.
Defined.

End GroupingProperties.

(* ------------------------------------------------------------------ *)
(** * Looking files up: [Folder.get] and [Stats.get] *)

Section LookupProperties.

Import Spec Clover Behaviour.

(** X6: [Folder.get] answers with the first file of the name: a file that
    [push] adds never hides one the folder already had, and is found
    when the name is new; the file found is in the folder and has the
    name asked for; nothing is found exactly when no file of the folder
    has the name. *)
Theorem Folder_get_first_wins (d : Folder) (fs : list File) (n : string) :
  folder_get (push d fs) n
  = match folder_get d n with
    | Some f => Some f
    | None => folder_get (mkFolder (folder_name d) fs) n
    end
  /\ (forall f, folder_get d n = Some f -> In f (files d) /\ name f = n)
  /\ (folder_get d n = None <-> forall f, In f (files d) -> name f <> n).
Proof.
  unfold folder_get, push. cbn [files]. split; [|split].
  - induction (files d) as [|a l IH]; cbn; [reflexivity|].
    destruct (String.eqb (name a) n); [reflexivity | exact IH].
  - intros f H. apply find_some in H. destruct H as [Hin He].
    apply String.eqb_eq in He. auto.
  - split.
    + intros H f Hin. apply String.eqb_neq. exact (find_none _ _ H f Hin).
    + intros H. induction (files d) as [|a l IH]; [reflexivity|]. cbn.
      destruct (String.eqb (name a) n) eqn:E.
      * apply String.eqb_eq in E. elim (H a (or_introl eq_refl) E).
      * apply IH. intros f Hf. apply H. right. exact Hf.
Qed.

Lemma find_the_one {A} (p : A -> bool) (l : list A) (x : A) :
  In x l -> p x = true -> (forall y, In y l -> p y = true -> y = x) ->
  find p l = Some x.
Proof.
  induction l as [|a l IH]; [intros []|]. intros Hin Hp Hu. cbn.
  destruct (p a) eqn:E.
  - f_equal. apply Hu; [left; reflexivity | exact E].
  - destruct Hin as [->|Hin]; [congruence|].
    apply IH; [exact Hin | exact Hp |].
    intros y Hy. apply Hu. right. exact Hy.
Qed.

Lemma NoDup_map_In_inj {A B} (f : A -> B) (l : list A) (x y : A) :
  NoDup (map f l) -> In x l -> In y l -> f x = f y -> x = y.
Proof.
  induction l as [|a l IH]; [intros _ []|]. cbn.
  intros Hnd Hx Hy E. inversion Hnd as [|? ? Ha Hnd']; subst.
  destruct Hx as [->|Hx], Hy as [->|Hy]; [reflexivity| | |exact (IH Hnd' Hx Hy E)].
  - elim Ha. rewrite E. apply in_map. exact Hy.
  - elim Ha. rewrite <- E. apply in_map. exact Hx.
Qed.

(** X7: grouping and looking up: when no two files of the input share both
    their folder and their file name, [Stats.get] on the folder and the
    name of an input file answers with the record of that very file.
    Whatever the input, a folder and a name that belong to none of its
    files find nothing. *)
Theorem Stats_get_after_grouping
        (totals : StatsMetrics) (filesWithFolders : list (CloverFileXML * string)) :
  let s := mkStats totals (groupFilesByFolder filesWithFolders) in
  (NoDup (map recordKey filesWithFolders) ->
   forall fileData, In fileData filesWithFolders ->
     stats_get s (snd fileData) (name (fileRecord fileData))
     = Some (fileRecord fileData))
  /\ (forall folder file,
        ~ In (folder, file) (map recordKey filesWithFolders) ->
        stats_get s folder file = None).
Proof.
  cbv zeta. unfold stats_get, groupFilesByFolder. cbn [folders]. split.
  - intros Hnd fd Hin. rewrite groupFiles_get. cbv zeta. cbn [map_get].
    set (here := List.filter (fun fileData => String.eqb (snd fileData) (snd fd))
                             filesWithFolders).
    assert (Hh : In fd here).
    { apply filter_In. split; [exact Hin | apply String.eqb_refl]. }
    destruct here as [|h0 here0] eqn:Eh; [elim Hh|]. rewrite <- Eh in *.
    unfold folder_get. cbn [files].
    apply find_the_one.
    + apply in_map. exact Hh.
    + apply String.eqb_refl.
    + intros y Hy Hn. apply in_map_iff in Hy. destruct Hy as (fd' & <- & Hfd').
      apply filter_In in Hfd'. destruct Hfd' as [Hin' Hk].
      apply String.eqb_eq in Hk. apply String.eqb_eq in Hn.
      f_equal. apply (NoDup_map_In_inj recordKey filesWithFolders); try assumption.
      unfold recordKey. f_equal; assumption.
  - intros folder file Hno. rewrite groupFiles_get. cbv zeta. cbn [map_get].
    destruct (List.filter _ filesWithFolders) as [|h0 here0] eqn:Eh; [reflexivity|].
    rewrite <- Eh. unfold folder_get. cbn [files].
    destruct (find _ _) as [g|] eqn:Ef; [|reflexivity].
    apply find_some in Ef. destruct Ef as [Hg Hn].
    apply in_map_iff in Hg. destruct Hg as (fd' & <- & Hfd').
    apply filter_In in Hfd'. destruct Hfd' as [Hin' Hk].
    apply String.eqb_eq in Hk. apply String.eqb_eq in Hn.
    elim Hno. apply in_map_iff. exists fd'. split; [|exact Hin'].
    unfold recordKey. f_equal; assumption.
Qed.

Lemma Stats_get_after_grouping_witness :
  stats_get (mkStats (createTotalMetrics sample_metrics)
                     (groupFilesByFolder [(sample_file, "/ws/src"%string)]))
            "/ws/src" "a.ts"
  = Some (fileRecord (sample_file, "/ws/src"%string)).
Proof.
  refine (proj1 (Stats_get_after_grouping (createTotalMetrics sample_metrics)
                   [(sample_file, "/ws/src"%string)]) _
                (sample_file, "/ws/src"%string) _).
  - repeat constructor. intros [].
  - left. reflexivity.
Defined.

End LookupProperties.

(* ------------------------------------------------------------------ *)
(** * The metrics of a file and the match with the touched files *)

Section FileProperties.

Import Spec Clover Behaviour.

Lemma extendGroup_length g n c :
  (List.length g <= List.length (extendGroup g n c) <= S (List.length g))%nat
  /\ extendGroup g n c <> [].
Proof.
  induction g as [|r g IH]; [cbn; split; [lia | discriminate]|].
  destruct g as [|r' g].
  - cbn. destruct (range_end r =? n - 1); cbn; split; (lia || discriminate).
  - change (extendGroup (r :: r' :: g) n c) with (r :: extendGroup (r' :: g) n c).
    cbn [List.length] in *. split; [lia | discriminate].
Qed.

Lemma addLine_groups_length (g g' : LineGroups) (M M' : list MethodCoverageEntry)
      (l : CloverLine) :
  addLine (g, M) l = (g', M') ->
  (List.length (groupsInKeyOrder g) <= List.length (groupsInKeyOrder g')
   <= S (List.length (groupsInKeyOrder g)))%nat
  /\ (1 <= List.length (groupsInKeyOrder g'))%nat
  /\ M' = M ++ map methodEntry (List.filter isMethod [l]).
Proof.
  unfold addLine. intros [= <- <-]. unfold groupsInKeyOrder. split; [|split].
  - destruct (lineStatus l =? 100); cbn [group0 group100]; rewrite !length_app.
    + pose proof (extendGroup_length (group100 g) (line_num l) (lineStatus l)). lia.
    + pose proof (extendGroup_length (group0 g) (line_num l) (lineStatus l)). lia.
  - destruct (lineStatus l =? 100); cbn [group0 group100]; rewrite !length_app.
    + pose proof (extendGroup_length (group100 g) (line_num l) (lineStatus l)) as [_ H].
      destruct (extendGroup (group100 g) (line_num l) (lineStatus l));
        [congruence | cbn; lia].
    + pose proof (extendGroup_length (group0 g) (line_num l) (lineStatus l)) as [_ H].
      destruct (extendGroup (group0 g) (line_num l) (lineStatus l));
        [congruence | cbn; lia].
  - cbn [List.filter]. unfold isMethod.
    destruct (String.eqb (line_type l) "method"); cbn [map];
      [reflexivity | now rewrite app_nil_r].
Qed.

Lemma addLine_fold ls : forall g M,
  let st := fold_left addLine ls (g, M) in
  snd st = M ++ map methodEntry (List.filter isMethod ls)
  /\ (List.length (groupsInKeyOrder g) <= List.length (groupsInKeyOrder (fst st))
      <= List.length (groupsInKeyOrder g) + List.length ls)%nat
  /\ (ls <> [] -> 1 <= List.length (groupsInKeyOrder (fst st)))%nat.
Proof.
  induction ls as [|l ls IH]; intros g M; cbn [fold_left].
  - cbn. rewrite app_nil_r. split; [reflexivity|]. split; [lia | congruence].
  - cbv zeta in *. destruct (addLine (g, M) l) as [g' M'] eqn:E.
    destruct (addLine_groups_length _ _ _ _ _ E) as (Hl & H1 & HM).
    destruct (IH g' M') as (I1 & I2 & I3). split; [|split].
    + rewrite I1, HM. cbn [List.filter]. destruct (isMethod l); cbn [map app].
      * rewrite <- app_assoc. reflexivity.
      * rewrite app_nil_r. reflexivity.
    + cbn [List.length]. lia.
    + intros _. lia.
Qed.

(** X8: what [createFileMetrics] draws from where.  The three ratios come
    from the attributes of the metrics node alone, as the totals of a
    report do, and the line records change nothing of them.  The method
    coverage lists the line records of type [method], in their order,
    each with its name and its status.  The line coverage has at most as
    many entries as there are line records, and at least one when there
    is a line record. *)
Theorem createFileMetrics_sources
        (attributes : CloverXMLMetrics) (fileData : CloverFileXML) :
  let m := createFileMetrics attributes fileData in
  ratios m = createTotalMetrics attributes
  /\ methodCoverage m = map methodEntry (List.filter isMethod (file_line fileData))
  /\ (List.length (lineCoverage m) <= List.length (file_line fileData))%nat
  /\ (file_line fileData <> [] -> lineCoverage m <> []).
Proof.
  cbv zeta. unfold createFileMetrics.
  pose proof (addLine_fold (file_line fileData) (mkLineGroups [] []) []) as H.
  cbv zeta in H.
  destruct (fold_left addLine (file_line fileData) (mkLineGroups [] [], []))
    as [lineGroups methods] eqn:E.
  cbn [fst snd app] in H. destruct H as (H1 & H2 & H3).
  cbn [ratios methodCoverage lineCoverage].
  split; [reflexivity|]. split; [exact H1|]. split.
  - rewrite length_map. cbn in H2. lia.
  - intros Hne E'. apply map_eq_nil in E'. specialize (H3 Hne).
    rewrite E' in H3. cbn in H3. lia.
Qed.

Lemma createFileMetrics_sources_witness :
  lineCoverage (createFileMetrics sample_metrics example_file) <> [].
Proof.
  refine (proj2 (proj2 (proj2 (createFileMetrics_sources sample_metrics example_file))) _).
  discriminate.
Defined.

Lemma prefix_spec (p s : string) :
  String.prefix p s = true <-> exists post, s = (p ++ post)%string.
Proof.
  revert s. induction p as [|a p IH]; intros s.
  - destruct s; cbn; split; eauto.
  - destruct s as [|b s]; cbn.
    + split; [discriminate | intros [post H]; discriminate].
    + destruct (ascii_dec a b) as [->|Hab].
      * rewrite IH. split; intros [post H]; exists post; congruence.
      * split; [discriminate | intros [post H]; congruence].
Qed.

Lemma includes_spec (s p : string) :
  JSString.includes s p = true
  <-> exists pre post, s = (pre ++ p ++ post)%string.
Proof.
  induction s as [|a s IH]; cbn [JSString.includes].
  - rewrite orb_false_r, prefix_spec. split.
    + intros [post H]. exists ""%string, post. exact H.
    + intros [pre [post H]]. destruct pre; [exists post; exact H|discriminate].
  - rewrite orb_true_iff, prefix_spec, IH. split.
    + intros [[post H]|[pre [post H]]].
      * exists ""%string, post. exact H.
      * exists (String a pre), post. cbn. congruence.
    + intros [pre [post H]]. destruct pre as [|b pre].
      * left. exists post. exact H.
      * right. exists pre, post. cbn in H. congruence.
Qed.

Lemma slice_app (a b : string) : JSString.slice (a ++ b) (String.length a) = b.
Proof. induction a as [|x a IH]; [destruct b; reflexivity | exact IH]. Qed.

Lemma stripPrefix_app (w p : string) : stripPrefix w (w ++ p) = p.
Proof.
  unfold stripPrefix, JSString.startsWith.
  rewrite (proj2 (prefix_spec w (w ++ p)) (ex_intro _ p eq_refl)).
  apply slice_app.
Qed.

(** X9: which files of a report count as touched.  With [fileName] the name
    of the file without the workspace prefix, the file is retained
    exactly when [fileName] occurs somewhere inside the path of one of
    the entries (a non-empty path, for entries with lines): a match of
    substrings, not of whole paths. *)
Theorem isTouched_is_substring_match
        (w : string) (prs : PullRequestFiles) (file : CloverFileXML) :
  let fileName := stripPrefix w (attr_name file) in
  isTouched w prs file = true
  <-> match prs with
      | FileNames l =>
          exists f pre post, In f l /\ f = (pre ++ fileName ++ post)%string
      | FileChanges l =>
          exists f pre post,
            In f l /\ pr_file f <> ""%string
            /\ pr_file f = (pre ++ fileName ++ post)%string
      end.
Proof.
  cbv zeta. unfold isTouched. destruct prs as [l|l]; rewrite existsb_exists.
  - split.
    + intros (f & Hin & Hi). apply includes_spec in Hi.
      destruct Hi as (pre & post & Hi). exists f, pre, post. auto.
    + intros (f & pre & post & Hin & Hi). exists f. split; [exact Hin|].
      apply includes_spec. exists pre, post. exact Hi.
  - unfold changeMatches, JSString.truthy. split.
    + intros (f & Hin & Hi). apply andb_true_iff in Hi. destruct Hi as [Ht Hi].
      apply includes_spec in Hi. destruct Hi as (pre & post & Hi).
      exists f, pre, post. split; [exact Hin|]. split; [|exact Hi].
      apply String.eqb_neq. apply negb_true_iff. exact Ht.
    + intros (f & pre & post & Hin & Hne & Hi). exists f. split; [exact Hin|].
      apply andb_true_iff. split.
      * apply negb_true_iff. apply String.eqb_neq. exact Hne.
      * apply includes_spec. exists pre, post. exact Hi.
Qed.

(** X10: a file that the report names by the workspace prefix followed by the
    path of an entry of the change set is retained, and an entry of the
    change set is found for its contribution. *)
Theorem changed_file_is_retained
        (workspace : string) (l : list PullRequestFile)
        (file : CloverFileXML) (f : PullRequestFile) :
  In f l -> pr_file f <> ""%string ->
  attr_name file = (prefix_of workspace ++ pr_file f)%string ->
  isTouched (prefix_of workspace) (FileChanges l) file = true
  /\ exists prFile,
       find (changeMatches (stripPrefix (prefix_of workspace) (attr_name file))) l
       = Some prFile
       /\ In prFile l.
Proof.
  intros Hin Hne Hname.
  assert (Ht : isTouched (prefix_of workspace) (FileChanges l) file = true).
  { unfold isTouched. apply existsb_exists. exists f. split; [exact Hin|].
    unfold changeMatches, JSString.truthy. apply andb_true_iff. split.
    - apply negb_true_iff. apply String.eqb_neq. exact Hne.
    - apply includes_spec. exists ""%string, ""%string.
      rewrite Hname, stripPrefix_app. cbn. rewrite str_app_nil_r. reflexivity. }
  split; [exact Ht|]. unfold isTouched in Ht.
  destruct (existsb_find _ _ Ht) as (x & Hf & Hx & _). exists x. auto.
Qed.

Lemma changed_file_is_retained_witness :
  isTouched (prefix_of "/ws") sample_changes sample_file = true.
Proof.
  refine (proj1 (changed_file_is_retained "/ws"
                   [mkPullRequestFile "src/a.ts" [LineRange (of_Z 1) (of_Z 10)]]
                   sample_file
                   (mkPullRequestFile "src/a.ts" [LineRange (of_Z 1) (of_Z 10)])
                   (or_introl eq_refl) _ eq_refl)).
  discriminate.
Defined.

End FileProperties.

(* ------------------------------------------------------------------ *)
(** * What [filter] keeps *)

Section FilterProperties.

Import Spec Clover Main Behaviour Entry.

Lemma passes_forallb (fs : list (File -> string -> bool)) key f :
  passes fs key f = forallb (fun fn => fn f key) fs.
Proof.
  unfold passes.
  assert (H : forall b, fold_left (fun r fn => r && fn f key) fs b
                        = b && forallb (fun fn => fn f key) fs).
  { induction fs as [|fn fs IH]; intros b; cbn; [now rewrite andb_true_r|].
    rewrite IH, andb_assoc. reflexivity. }
  apply (H true).
Qed.

Lemma filterFolders_In fs m k d :
  In (k, d) (filterFolders fs m)
  <-> exists d0, In (k, d0) m
                 /\ d = mkFolder (folder_name d0) (List.filter (passes fs k) (files d0))
                 /\ List.filter (passes fs k) (files d0) <> [].
Proof.
  unfold filterFolders. rewrite in_flat_map. split.
  - intros ([k0 d0] & Hin & H).
    destruct (List.filter (passes fs k0) (files d0)) as [|x kept] eqn:E; cbn in H; [elim H|].
    destruct H as [[= <- <-]|[]]. exists d0. rewrite E. repeat split; [exact Hin | discriminate].
  - intros (d0 & Hin & -> & Hne). exists (k, d0). split; [exact Hin|].
    destruct (List.filter (passes fs k) (files d0)) as [|x kept]; [congruence|].
    left. reflexivity.
Qed.

Lemma filterFolders_keys fs m :
  NoDup (map fst m) -> NoDup (map fst (filterFolders fs m)).
Proof.
  unfold filterFolders. induction m as [|[k d] m IH]; cbn [map flat_map]; [auto|].
  intros Hnd. inversion Hnd as [|? ? Hk Hnd']; subst.
  destruct (List.length _ =? 0)%nat; cbn [app map fst]; [exact (IH Hnd')|].
  constructor; [|exact (IH Hnd')].
  intros Hin. apply Hk. apply in_map_iff in Hin. destruct Hin as ([k' d'] & Hk' & Hin).
  cbn in Hk'. subst k'. apply (filterFolders_In fs m k d') in Hin.
  destruct Hin as (d0 & Hin & _). apply (in_map fst) in Hin. exact Hin.
Qed.

Lemma filterFolders_count fs m :
  (fileCount (filterFolders fs m) <= fileCount m)%nat.
Proof.
  unfold fileCount, list_sum, filterFolders.
  induction m as [|[k d] m IH]; cbn -[Nat.add Nat.eqb]; [lia|].
  pose proof (filter_length_le (passes fs k) (files d)) as Hl.
  destruct (List.length _ =? 0)%nat; cbn -[Nat.add]; lia.
Qed.

(** X11: with at least one filter active, [filter] leaves the totals as they
    are and edits the folders only by removal.  A folder of the result
    is a folder of the input under the same key and name, holding, in
    their order, exactly those of its files that every active filter
    accepts, and it is not empty; the keys stay distinct; no file record
    is added. *)
Theorem filter_keeps_what_passes
        (s : Stats) (onlyWith : OnlyWith) (onlyBetween : OnlyBetween) (o : option Stats) :
  let fs := filters onlyWith onlyBetween o in
  let accepted key f := forallb (fun fn : File -> string -> bool => fn f key) fs in
  let r := filter s onlyWith onlyBetween o in
  fs <> [] ->
  stats_total r = stats_total s
  /\ (forall k d,
        In (k, d) (folders r)
        <-> exists d0, In (k, d0) (folders s)
                       /\ d = mkFolder (folder_name d0)
                                       (List.filter (accepted k) (files d0))
                       /\ files d <> [])
  /\ (NoDup (map fst (folders s)) -> NoDup (map fst (folders r)))
  /\ (fileCount (folders r) <= fileCount (folders s))%nat.
Proof.
  cbv zeta. intros Hne. unfold filter.
  destruct (filters onlyWith onlyBetween o) as [|fn fs] eqn:E; [congruence|].
  cbn [List.length Nat.eqb stats_total folders].
  split; [reflexivity|]. split; [|split].
  - intros k d. rewrite filterFolders_In.
    assert (Hx : forall l, List.filter (passes (fn :: fs) k) l
                           = List.filter (fun f => forallb (fun g : File -> string -> bool => g f k)
                                                           (fn :: fs)) l).
    { intros l. apply filter_ext. intros f. apply passes_forallb. }
    split; intros (d0 & Hin & Hd & H); exists d0; rewrite Hx in *;
      (split; [exact Hin|]); (split; [exact Hd|]); subst d; exact H.
  - apply filterFolders_keys.
  - apply filterFolders_count.
Qed.

Lemma filter_keeps_what_passes_witness :
  stats_total (filter emptyStats (mkOnlyWith true false)
                      (mkOnlyBetween None (of_Z 0) (of_Z 100) (of_Z 0)) None)
  = stats_total emptyStats.
Proof.
  refine (proj1 (filter_keeps_what_passes emptyStats (mkOnlyWith true false)
                   (mkOnlyBetween None (of_Z 0) (of_Z 100) (of_Z 0)) None _)).
  discriminate.
Defined.

(** X12: the filters are joined by a logical and, and each one is active only
    under its switch: the two [onlyWith] flags; for the range a metric
    type and a range narrower than 0 to 100; for the change a metric
    type, previous statistics and a positive [delta].  Without a metric
    type neither the range nor the change is looked at.  A file that the
    previous statistics do not hold always passes the change filter, and
    a file whose ratio is NaN is ranged like one at 0. *)
Theorem filters_conjunction
        (onlyWith : OnlyWith) (onlyBetween : OnlyBetween) (o : option Stats)
        (key : string) (f : File) :
  passes (filters onlyWith onlyBetween o) key f
  = implb (cover onlyWith) (withCover f key)
    && implb (coverableLines onlyWith) (withCoverableLines f key)
    && match type onlyBetween with
       | None => true
       | Some k =>
           implb (gtb (min onlyBetween) (of_Z 0) || ltb (max onlyBetween) (of_Z 100))
                 (inRange onlyBetween k f key)
           && match o with
              | None => true
              | Some o' => implb (gtb (delta onlyBetween) (of_Z 0))
                                 (changed onlyBetween k o' f key)
              end
       end
  /\ (forall k o', stats_get o' key (name f) = None ->
                   changed onlyBetween k o' f key = true)
  /\ (forall k, is_nan (percentual (metric (metrics f) k)) = true ->
                inRange onlyBetween k f key
                = leb (min onlyBetween) (of_Z 0) && leb (of_Z 0) (max onlyBetween)).
Proof.
  split; [|split].
  - rewrite passes_forallb. unfold filters. rewrite !forallb_app.
    destruct (type onlyBetween) as [k|].
    + rewrite forallb_app. destruct o as [o'|].
      * destruct (cover onlyWith), (coverableLines onlyWith),
          (gtb (min onlyBetween) (of_Z 0) || ltb (max onlyBetween) (of_Z 100)),
          (gtb (delta onlyBetween) (of_Z 0)); cbn [forallb implb andb];
          destruct (withCover f key), (withCoverableLines f key),
            (inRange onlyBetween k f key), (changed onlyBetween k o' f key);
          reflexivity.
      * destruct (cover onlyWith), (coverableLines onlyWith),
          (gtb (min onlyBetween) (of_Z 0) || ltb (max onlyBetween) (of_Z 100));
          cbn [forallb implb andb];
          destruct (withCover f key), (withCoverableLines f key),
            (inRange onlyBetween k f key); reflexivity.
    + destruct (cover onlyWith), (coverableLines onlyWith); cbn [forallb implb andb];
        destruct (withCover f key), (withCoverableLines f key); reflexivity.
  - intros k o' H. unfold changed. rewrite H. reflexivity.
  - intros k H. unfold inRange, between.
    destruct (percentual (metric (metrics f) k)); try discriminate. reflexivity.
Qed.

Lemma map_get_normalized w m k :
  map_get (map (fun entry : string * Folder =>
                  let '(k, v) := entry in
                  (k, mkFolder (stripPrefix w (folder_name v)) (files v))) m) k
  = option_map (fun v => mkFolder (stripPrefix w (folder_name v)) (files v))
               (map_get m k).
Proof.
  induction m as [|[k' d] m IH]; cbn; [reflexivity|].
  destruct (String.eqb k' k); [reflexivity | exact IH].
Qed.

(** X13: the renaming of the folders at the start of [comment] touches names
    only: totals, keys and their order and the files stay, every
    [Stats.get] answers as before, and filtering the renamed statistics
    gives the renamed filtered statistics. *)
Theorem normalizeFolders_keeps_content (workspace : string) (cStats : Stats) :
  stats_total (normalizeFolders workspace cStats) = stats_total cStats
  /\ map fst (folders (normalizeFolders workspace cStats)) = map fst (folders cStats)
  /\ map (fun entry => files (snd entry)) (folders (normalizeFolders workspace cStats))
     = map (fun entry => files (snd entry)) (folders cStats)
  /\ (forall folder file,
        stats_get (normalizeFolders workspace cStats) folder file
        = stats_get cStats folder file)
  /\ (forall onlyWith onlyBetween o,
        filter (normalizeFolders workspace cStats) onlyWith onlyBetween o
        = normalizeFolders workspace (filter cStats onlyWith onlyBetween o)).
Proof.
  unfold normalizeFolders. cbn [stats_total folders]. cbv zeta.
  split; [reflexivity|]. split; [|split; [|split]].
  - rewrite map_map. apply map_ext. intros [k v]. reflexivity.
  - rewrite map_map. apply map_ext. intros [k v]. reflexivity.
  - intros folder file. unfold stats_get. cbn [folders].
    rewrite map_get_normalized. destruct (map_get (folders cStats) folder); reflexivity.
  - intros onlyWith onlyBetween o. unfold filter.
    destruct (List.length (filters onlyWith onlyBetween o) =? 0)%nat; [reflexivity|].
    cbn [stats_total folders]. f_equal. unfold filterFolders.
    induction (folders cStats) as [|[k v] m IH]; [reflexivity|].
    cbn [map flat_map files folder_name]. rewrite IH.
    destruct (List.length (List.filter _ (files v)) =? 0)%nat; reflexivity.
Qed.

End FilterProperties.

(* ------------------------------------------------------------------ *)
(** * Thresholds on ratios that are NaN or come from no file *)

Section ThresholdProperties.

Import Spec Clover Main Behaviour.

Lemma gtb_nan x y : is_nan y = true -> gtb x y = false.
Proof. destruct y; try discriminate. destruct x; reflexivity. Qed.

Lemma geb_nan x y : is_nan x = true -> geb x y = false.
Proof. destruct x; try discriminate. destruct y; reflexivity. Qed.

Lemma mul_nan x y : is_nan x = true -> is_nan (mul x y) = true.
Proof. destruct x; try discriminate. reflexivity. Qed.

Lemma sub_nan_r x y : is_nan y = true -> is_nan (sub x y) = true.
Proof. destruct y; try discriminate. destruct x; reflexivity. Qed.

(** X14: a ratio that is NaN violates no threshold: when the line ratio and
    the method ratio of the current statistics are NaN, [checkThreshold]
    yields nothing, whatever the four limits and the previous
    statistics.  The ratio of [new Coverage(total, covered)] is NaN as
    soon as the total is NaN, which is what a missing attribute reads
    as. *)
Theorem nan_ratio_violates_no_threshold (l : Limits) (c : Stats) (o : option Stats) :
  (is_nan (percentual (lines (stats_total c))) = true ->
   is_nan (percentual (Types.methods (stats_total c))) = true ->
   checkThreshold l c o = [])
  /\ (forall covered, is_nan (percentual (newCoverage NaN covered)) = true)
  /\ (forall attributes,
        statements attributes = None ->
        is_nan (percentual (lines (createTotalMetrics attributes))) = true).
Proof.
  split; [|split].
  - intros Hl Hm. unfold checkThreshold, checkMinimum, checkDecrease, decrease.
    rewrite !gtb_nan by (apply mul_nan; assumption). cbn [app].
    destruct o as [o'|]; [|reflexivity].
    destruct (maxLineCoverageDecrease l), (maxMethodCoverageDecrease l);
      rewrite ?geb_nan by (apply mul_nan, sub_nan_r; assumption); reflexivity.
  - intros covered. unfold newCoverage. cbn. destruct covered; reflexivity.
  - intros attributes H. unfold createTotalMetrics. cbn [lines]. rewrite H.
    cbn. destruct (Number (coveredstatements attributes)); reflexivity.
Qed.

Lemma nan_ratio_violates_no_threshold_witness :
  checkThreshold (mkLimits (of_Z 80) (of_Z 80) (Some (of_Z 1)) (Some (of_Z 1)))
                 (mkStats (createTotalMetrics (mkCloverXMLMetrics None None None None None None)) [])
                 (Some emptyStats)
  = [].
Proof.
  refine (proj1 (nan_ratio_violates_no_threshold _ _ _) _ _); reflexivity.
Defined.

Lemma hundred_percent : mul (of_Z 1) (of_Z 100) = of_Z 100.
Proof. vm_compute. reflexivity. Qed.

(** X15: a change set that matches no file of the report meets every minimum
    up to 100: [fromString] returns statistics whose ratios are [1.0],
    and [checkThreshold] on them yields no message about a minimum; with
    no previous statistics it yields nothing. *)
Theorem no_match_meets_every_minimum
        (workspace : string) (xml2json : string -> Outcome CloverProject)
        (str : string) (cloverData : CloverProject) (prs : PullRequestFiles)
        (l : Limits) (o : option Stats) :
  xml2json str = Returns cloverData ->
  (0 < pr_length prs)%nat ->
  (forall file, In file (getAllFiles cloverData) ->
                isTouched (prefix_of workspace) prs file = false) ->
  gtb (minLineCoverage l) (of_Z 100) = false ->
  gtb (minMethodCoverage l) (of_Z 100) = false ->
  exists s, fromString workspace xml2json str prs = Returns s
            /\ (forall x, In x (checkThreshold l s o) -> (3 <= rank x)%nat)
            /\ checkThreshold l s None = [].
Proof.
  intros Hparse Hlen Hnone Hl Hm. exists emptyStats. split; [|split].
  - unfold fromString, parseCloverXML. rewrite Hparse.
    rewrite fromProject_touched by exact Hlen. cbv zeta.
    rewrite (filter_none _ _ Hnone). reflexivity.
  - unfold checkThreshold, checkMinimum, emptyStats.
    cbn [stats_total lines Types.methods]. rewrite !newCoverage_zero_total.
    rewrite hundred_percent, Hl, Hm. cbn [app].
    destruct o as [o'|]; [|intros x []].
    intros x Hx. apply in_app_or in Hx.
    destruct Hx as [Hx|Hx]; apply checkDecrease_In in Hx;
      destruct Hx as (m & _ & -> & _); cbn; lia.
  - unfold checkThreshold, checkMinimum, emptyStats.
    cbn [stats_total lines Types.methods]. rewrite !newCoverage_zero_total.
    rewrite hundred_percent, Hl, Hm. reflexivity.
Qed.

Lemma no_match_meets_every_minimum_witness :
  exists s, fromString "/ws" (fun _ => Returns sample_project) ""
                       (FileNames ["lib/b.ts"%string]) = Returns s
            /\ checkThreshold (mkLimits (of_Z 100) (of_Z 50) None None) s None = [].
Proof.
  destruct (no_match_meets_every_minimum "/ws" (fun _ => Returns sample_project) ""
              sample_project (FileNames ["lib/b.ts"%string])
              (mkLimits (of_Z 100) (of_Z 50) None None) None eq_refl)
    as (s & Hs & _ & Hc).
  - cbn. lia.
  - intros file [<-|[]]. vm_compute. reflexivity.
  - vm_compute. reflexivity.
  - vm_compute. reflexivity.
  - exists s. split; [exact Hs | exact Hc].
Defined.

End ThresholdProperties.

(* ------------------------------------------------------------------ *)
(** * Counts in binary64: sums, differences and products

    Sums and differences of counts are exact, and the product of two
    normal numbers is followed through its rounding. *)

Section CountFacts.

Lemma shr_1_even m :
  0 <= m ->
  shr_1 {| shr_m := 2 * m; shr_r := false; shr_s := false |}
  = {| shr_m := m; shr_r := false; shr_s := false |}.
Proof. destruct m; [reflexivity | reflexivity | lia]. Qed.

Lemma pow2_xO k : 2 ^ Z.pos k~0 = 2 ^ Z.pos k * 2 ^ Z.pos k.
Proof.
  change (Z.pos k~0) with (2 * Z.pos k).
  replace (2 * Z.pos k) with (Z.pos k + Z.pos k) by lia.
  apply Z.pow_add_r; lia.
Qed.

Lemma pow2_xI k : 2 ^ Z.pos k~1 = 2 * (2 ^ Z.pos k * 2 ^ Z.pos k).
Proof.
  change (Z.pos k~1) with (2 * Z.pos k + 1).
  replace (2 * Z.pos k + 1) with (1 + (Z.pos k + Z.pos k)) by lia.
  rewrite Z.pow_add_r, Z.pow_add_r by lia. reflexivity.
Qed.

(** Shifting out [k] bits that are zero loses nothing. *)
Lemma iter_shr_exact k : forall m,
  0 <= m ->
  iter_pos shr_1 k {| shr_m := m * 2 ^ Z.pos k; shr_r := false; shr_s := false |}
  = {| shr_m := m; shr_r := false; shr_s := false |}.
Proof.
  induction k as [k IH|k IH|]; intros m Hm; cbn [iter_pos].
  - rewrite pow2_xI.
    replace (m * (2 * (2 ^ Z.pos k * 2 ^ Z.pos k)))
      with (2 * (m * 2 ^ Z.pos k * 2 ^ Z.pos k)) by ring.
    assert (0 < 2 ^ Z.pos k) by (apply Z.pow_pos_nonneg; lia).
    rewrite shr_1_even by nia. rewrite IH by nia. apply IH. exact Hm.
  - rewrite pow2_xO. rewrite Z.mul_assoc.
    assert (0 < 2 ^ Z.pos k) by (apply Z.pow_pos_nonneg; lia).
    rewrite IH by nia. apply IH. exact Hm.
  - change (2 ^ 1) with 2. rewrite Z.mul_comm. apply shr_1_even. exact Hm.
Qed.

(** [k] shifts to the right divide the mantissa by [2^k]. *)
Lemma iter_shr_m k : forall r,
  0 <= shr_m r ->
  0 <= shr_m (iter_pos shr_1 k r)
  /\ shr_m (iter_pos shr_1 k r) = shr_m r / 2 ^ Z.pos k.
Proof.
  assert (H1 : forall r, 0 <= shr_m r -> 0 <= shr_m (shr_1 r)).
  { intros r Hr. rewrite shr_1_m by exact Hr. apply Z.div_pos; lia. }
  induction k as [k IH|k IH|]; intros r Hr; cbn [iter_pos].
  - assert (0 < 2 ^ Z.pos k) by (apply Z.pow_pos_nonneg; lia).
    destruct (IH (shr_1 r) (H1 r Hr)) as [Ha Ea].
    destruct (IH _ Ha) as [Hb Eb]. split; [exact Hb|].
    rewrite Eb, Ea, shr_1_m, pow2_xI by exact Hr.
    rewrite !Z.div_div by lia. reflexivity.
  - assert (0 < 2 ^ Z.pos k) by (apply Z.pow_pos_nonneg; lia).
    destruct (IH r Hr) as [Ha Ea]. destruct (IH _ Ha) as [Hb Eb].
    split; [exact Hb|]. rewrite Eb, Ea, pow2_xO.
    rewrite Z.div_div by lia. reflexivity.
  - split; [exact (H1 r Hr)|]. rewrite shr_1_m by exact Hr. reflexivity.
Qed.

(** The rounding of an exact mantissa [P] of [d > 53] bits at exponent
    [e]: the result is a normal number at exponent [e + (d - 53)], or
    one more with the mantissa [2^52] when the rounding carries;
    measured at exponent [e + (d - 53)] it is within one of
    [P / 2^(d-53)]. *)
Lemma binary_round_aux_wide P e d :
  54 <= d <= 107 -> 2 ^ (d - 1) <= P < 2 ^ d -> -1074 <= e + (d - 53) <= 900 ->
  exists m' e',
    binary_round_aux 53 1024 false P e loc_Exact = S754_finite false m' e'
    /\ 2 ^ 52 <= Z.pos m' < 2 ^ 53
    /\ (e' = e + (d - 53) \/ (e' = e + (d - 53) + 1 /\ Z.pos m' = 2 ^ 52))
    /\ (Z.pos m' * 2 ^ (e' - e - (d - 53)) - 1) * 2 ^ (d - 53) <= P
       < (Z.pos m' * 2 ^ (e' - e - (d - 53)) + 1) * 2 ^ (d - 53).
Proof.
  intros Hd HP He.
  assert (Hpos : 0 < 2 ^ (d - 1)) by (apply Z.pow_pos_nonneg; lia).
  destruct P as [|p|p]; try lia. clear Hpos.
  unfold binary_round_aux. unfold shr_fexp at 1. cbn [Zdigits2].
  rewrite (digits2_pos_unique p d) by exact HP.
  rewrite fexp_normal by lia.
  replace (d + e - 53 - e) with (d - 53) by lia.
  destruct (d - 53) as [|k|k] eqn:Ek; try lia. rewrite <- Ek in *.
  unfold shr. rewrite Ek. cbn [shr_record_of_loc].
  replace (e + Z.pos k) with (e + (d - 53)) by lia.
  destruct (iter_shr_m k {| shr_m := Z.pos p; shr_r := false; shr_s := false |}
              ltac:(cbn; lia)) as [_ ET].
  cbn [shr_m] in ET.
  set (r1 := iter_pos shr_1 k _) in *.
  assert (Hk : 0 < 2 ^ Z.pos k) by (apply Z.pow_pos_nonneg; lia).
  assert (Hpow1 : 2 ^ (d - 1) = 2 ^ 52 * 2 ^ Z.pos k).
  { rewrite <- Z.pow_add_r by lia. f_equal; lia. }
  assert (Hpow2 : 2 ^ d = 2 ^ 53 * 2 ^ Z.pos k).
  { rewrite <- Z.pow_add_r by lia. f_equal; lia. }
  pose proof (Z.mul_div_le (Z.pos p) (2 ^ Z.pos k) Hk) as Hlo.
  pose proof (Z.mul_succ_div_gt (Z.pos p) (2 ^ Z.pos k) Hk) as Hhi.
  rewrite <- ET in Hlo, Hhi.
  assert (HT : 2 ^ 52 <= shr_m r1 < 2 ^ 53) by (rewrite Hpow1, Hpow2 in HP; nia).
  pose proof (round_nearest_even_bounds (shr_m r1) (loc_of_shr_record r1)) as Hrne.
  set (m1 := round_nearest_even (shr_m r1) (loc_of_shr_record r1)) in *.
  set (e1 := e + (d - 53)) in *.
  rewrite (shr_fexp_53_54 m1 e1 loc_Exact) by lia.
  destruct (Z.ltb_spec m1 (2 ^ 53)) as [Hlt|Hge].
  - cbn [shr_record_of_loc shr_m].
    destruct m1 as [|q|q] eqn:Em1; try lia.
    replace (e1 <=? 1024 - 53) with true by (symmetry; apply Z.leb_le; lia).
    exists q, e1. split; [reflexivity|]. split; [lia|]. split; [left; reflexivity|].
    replace (e1 - e - Z.pos k) with 0 by (subst e1; lia). change (2 ^ 0) with 1.
    nia.
  - assert (Em1 : m1 = 2 ^ 53) by lia.
    rewrite Em1. cbn [shr_record_of_loc].
    change (shr_m (shr_1 {| shr_m := 2 ^ 53; shr_r := false; shr_s := false |})) with (2 ^ 52).
    change (2 ^ 52) with (Z.pos (2 ^ 52)%positive) at 1.
    cbv iota.
    replace (e1 + 1 <=? 1024 - 53) with true by (symmetry; apply Z.leb_le; lia).
    eexists _, (e1 + 1). split; [reflexivity|].
    change (Z.pos (2 ^ 52)) with (2 ^ 52). split; [lia|].
    split; [right; split; reflexivity|].
    replace (e1 + 1 - e - Z.pos k) with 1 by (subst e1; lia). change (2 ^ 1) with 2.
    nia.
Qed.

(** The product of two normal numbers: a normal number whose mantissa,
    at the exponent of the product shifted by [k] (52 or 53), is within
    one of the exact product of the mantissas divided by [2^k]. *)
Lemma mul_normal m1 e1 m2 e2 :
  2 ^ 52 <= Z.pos m1 < 2 ^ 53 -> 2 ^ 52 <= Z.pos m2 < 2 ^ 53 ->
  -500 <= e1 <= 400 -> -500 <= e2 <= 400 ->
  exists m e k i,
    mul (S754_finite false m1 e1) (S754_finite false m2 e2) = S754_finite false m e
    /\ 2 ^ 52 <= Z.pos m < 2 ^ 53
    /\ (k = 52 \/ k = 53) /\ (i = 0 \/ i = 1) /\ e = e1 + e2 + k + i
    /\ (Z.pos m * 2 ^ i - 1) * 2 ^ k <= Z.pos m1 * Z.pos m2
       < (Z.pos m * 2 ^ i + 1) * 2 ^ k.
Proof.
  intros H1 H2 He1 He2. unfold mul, SFmul, prec, emax. cbn [xorb].
  rewrite Pos2Z.inj_mul.
  set (P := Z.pos m1 * Z.pos m2).
  assert (HP : 2 ^ 104 <= P < 2 ^ 106).
  { subst P. change (2 ^ 104) with (2 ^ 52 * 2 ^ 52).
    change (2 ^ 106) with (2 ^ 53 * 2 ^ 53). nia. }
  clearbody P.
  destruct (Z.ltb_spec P (2 ^ 105)) as [Hlt|Hge].
  - destruct (binary_round_aux_wide P (e1 + e2) 105 ltac:(lia)
                ltac:(change (105 - 1) with 104; lia) ltac:(lia))
      as (m & e & Hr & Hm & He & Hv).
    change (105 - 53) with 52 in *.
    destruct He as [He|[He Hm2]].
    + exists m, e, 52, 0. rewrite Hr. replace (e - (e1 + e2) - 52) with 0 in Hv by lia.
      repeat split; auto; lia.
    + exists m, e, 52, 1. rewrite Hr. replace (e - (e1 + e2) - 52) with 1 in Hv by lia.
      repeat split; auto; lia.
  - destruct (binary_round_aux_wide P (e1 + e2) 106 ltac:(lia)
                ltac:(change (106 - 1) with 105; lia) ltac:(lia))
      as (m & e & Hr & Hm & He & Hv).
    change (106 - 53) with 53 in *.
    destruct He as [He|[He Hm2]].
    + exists m, e, 53, 0. rewrite Hr. replace (e - (e1 + e2) - 53) with 0 in Hv by lia.
      repeat split; auto; lia.
    + exists m, e, 53, 1. rewrite Hr. replace (e - (e1 + e2) - 53) with 1 in Hv by lia.
      repeat split; auto; lia.
Qed.

(** The quotient of two normal numbers: a normal number whose mantissa,
    at the exponent of the quotient, is within two of the exact quotient
    of the mantissas. *)
Lemma div_normal m1 e1 m2 e2 :
  2 ^ 52 <= Z.pos m1 < 2 ^ 53 -> 2 ^ 52 <= Z.pos m2 < 2 ^ 53 ->
  -400 <= e1 <= 400 -> -400 <= e2 <= 400 ->
  exists m e j,
    div (S754_finite false m1 e1) (S754_finite false m2 e2) = S754_finite false m e
    /\ 2 ^ 52 <= Z.pos m < 2 ^ 53
    /\ 0 <= j <= 2 /\ e = e1 - e2 - 53 + j
    /\ (Z.pos m * 2 ^ j - 2) * Z.pos m2 <= Z.pos m1 * 2 ^ 53
       <= (Z.pos m * 2 ^ j + 2) * Z.pos m2.
Proof.
  intros H1 H2 He1 He2.
  unfold div, prec, emax, SFdiv, SFdiv_core_binary. cbn [Zdigits2 xorb].
  rewrite (digits2_pos_unique m1 53), (digits2_pos_unique m2 53)
    by (change (53 - 1) with 52; lia).
  rewrite fexp_normal by lia.
  replace (Z.min (53 + e1 - (53 + e2) - 53) (e1 - e2)) with (e1 - e2 - 53) by lia.
  replace (e1 - e2 - (e1 - e2 - 53)) with 53 by lia.
  rewrite Z.shiftl_mul_pow2 by lia.
  pose proof (Z.div_eucl_eq (Z.pos m1 * 2 ^ 53) (Z.pos m2) ltac:(lia)) as Heq.
  pose proof (Z.mod_pos_bound (Z.pos m1 * 2 ^ 53) (Z.pos m2) ltac:(lia)) as Hmod.
  unfold Z.modulo in Hmod.
  destruct (Z.div_eucl (Z.pos m1 * 2 ^ 53) (Z.pos m2)) as [q r].
  set (M := Z.pos m1 * 2 ^ 53) in *.
  assert (HM : 2 ^ 52 * 2 ^ 53 <= M < 2 ^ 53 * 2 ^ 53) by (subst M; nia).
  clearbody M.
  assert (Hq : 2 ^ 52 <= q < 2 ^ 54).
  { change (2 ^ 54) with (2 * 2 ^ 53). split; nia. }
  destruct (binary_round_aux_53_54 q (e1 - e2 - 53) (new_location (Z.pos m2) r)
              Hq ltac:(lia)) as (m & e & Hr & Hm & Hcase & Hval).
  exists m, e, (e - (e1 - e2 - 53)). split; [exact Hr|]. split; [exact Hm|].
  split; [lia|]. split; [lia|].
  generalize dependent (Z.pos m * 2 ^ (e - (e1 - e2 - 53))). intros; nia.
Qed.

(** [Math.round(t * (r / t))] is [r] for counts [0 < r < 2^48] and
    [0 < t < 2^53]: the two roundings move the product by less than a
    half. *)
Lemma round_mul_div r t :
  0 < r < 2 ^ 48 -> 0 < t < 2 ^ 53 ->
  round (mul (of_Z t) (div (of_Z r) (of_Z t))) = of_Z r.
Proof.
  intros Hr Ht.
  destruct (of_Z_normal r ltac:(change (2 ^ 48) with 281474976710656 in Hr;
                                 change (2 ^ 53) with 9007199254740992; lia))
    as (m1 & e1 & E1 & Hm1 & He1 & Hv1).
  rewrite E1.
  destruct (of_Z_normal t Ht) as (m2 & e2 & -> & Hm2 & He2 & Hv2).
  assert (He15 : e1 <= -5).
  { destruct (Z.le_gt_cases e1 (-5)) as [H|H]; [exact H|exfalso].
    assert (2 ^ (- e1) <= 2 ^ 4) by (apply Z.pow_le_mono_r; lia).
    change (2 ^ 48) with (2 ^ 44 * 2 ^ 4) in Hr.
    change (2 ^ 52) with (2 ^ 44 * 2 ^ 4 * 2 ^ 4) in Hm1. nia. }
  destruct (div_normal m1 e1 m2 e2 Hm1 Hm2 ltac:(lia) ltac:(lia))
    as (mq & eq & j & -> & Hmq & Hj & Heq & Hq).
  destruct (mul_normal m2 e2 mq eq Hm2 Hmq ltac:(lia) ltac:(lia))
    as (mp & ep & k & i & -> & Hmp & Hk & Hi & Hep & Hp).
  assert (Hep2 : - ep = - e1 + 53 - j - k - i) by lia.
  assert (Hneg : ep <= -2) by lia.
  unfold round. replace (0 <=? ep) with false by (symmetry; apply Z.leb_gt; lia).
  cbv zeta. unfold round_half_up.
  set (B := 2 ^ (- ep)).
  assert (HB : 2 ^ (1 - ep) = 2 * B).
  { subst B. replace (1 - ep) with (1 + - ep) by lia.
    rewrite Z.pow_add_r by lia. reflexivity. }
  assert (HD : 2 ^ (- e1) * 2 ^ 53 = B * (2 ^ j * 2 ^ k * 2 ^ i)).
  { subst B. rewrite <- !Z.pow_add_r by lia. f_equal; lia. }
  assert (HBpos : 0 < B) by (subst B; apply Z.pow_pos_nonneg; lia).
  assert (Ha1 : 2 ^ 5 <= 2 ^ (- e1)) by (apply Z.pow_le_mono_r; lia).
  rewrite HB. clearbody B.
  assert (Hz : (2 * Z.pos mp + B) / (2 * B) = r).
  { symmetry. apply Z.div_unique with (r := 2 * Z.pos mp + B - 2 * B * r).
    - left.
      assert (E : Z.pos m1 * 2 ^ 53 = r * B * (2 ^ j * 2 ^ k * 2 ^ i)).
      { rewrite Hv1, <- Z.mul_assoc, HD. ring. }
      rewrite E in Hq. set (RB := r * B) in *.
      replace (2 * B * r) with (2 * RB) by (subst RB; ring).
      set (N := Z.pos m2 * Z.pos mq) in *.
      assert (HqN : forall c, (Z.pos mq * c - 2) * Z.pos m2 = c * N - 2 * Z.pos m2)
        by (intros c; subst N; ring).
      assert (HqN' : forall c, (Z.pos mq * c + 2) * Z.pos m2 = c * N + 2 * Z.pos m2)
        by (intros c; subst N; ring).
      rewrite HqN, HqN' in Hq. clear HqN HqN' E Hv1 Hv2.
      clearbody N RB. clear Hep Hep2 Heq.
      change (2 ^ 5) with 32 in Ha1. change (2 ^ 53) with 9007199254740992 in *.
      change (2 ^ 52) with 4503599627370496 in *.
      set (a1 := 2 ^ (- e1)) in *. clearbody a1.
      assert (Hj' : j = 0 \/ j = 1 \/ j = 2) by lia.
      destruct Hj' as [-> | [-> | ->]], Hk as [-> | ->], Hi as [-> | ->];
        change (2 ^ 0) with 1 in *; change (2 ^ 1) with 2 in *;
        change (2 ^ 2) with 4 in *;
        change (2 ^ 52) with 4503599627370496 in *;
        change (2 ^ 53) with 9007199254740992 in *; lia.
    - ring. }
  rewrite Hz. replace (r =? 0) with false by (symmetry; apply Z.eqb_neq; lia).
  exact E1.
Qed.

(** A positive mantissa at an exponent [ez] that denotes the normal
    number [m * 2^e] exactly is normalised to that number. *)
Lemma normalize_canonical pm ez m e :
  2 ^ 52 <= Z.pos m < 2 ^ 53 -> -1074 <= e <= 971 ->
  (e <= ez /\ Z.pos pm * 2 ^ (ez - e) = Z.pos m)
  \/ (ez < e /\ Z.pos pm = Z.pos m * 2 ^ (e - ez)) ->
  binary_normalize 53 1024 (Z.pos pm) ez false = S754_finite false m e.
Proof.
  intros Hm He Hrel. unfold binary_normalize, binary_round.
  destruct Hrel as [[Hle Hv]|[Hlt Hv]].
  - set (c := ez - e) in *.
    assert (Hc : 0 <= c) by (subst c; lia).
    assert (Hpc : 0 < 2 ^ c) by (apply Z.pow_pos_nonneg; lia).
    assert (Hc52 : c <= 52).
    { destruct (Z.le_gt_cases c 52) as [H|H]; [exact H|exfalso].
      assert (2 ^ 53 <= 2 ^ c) by (apply Z.pow_le_mono_r; lia). nia. }
    assert (Hd : Z.pos (digits2_pos pm) = 53 - c).
    { apply digits2_pos_unique.
      assert (E1 : 2 ^ 52 = 2 ^ (53 - c - 1) * 2 ^ c).
      { rewrite <- Z.pow_add_r by lia. f_equal; lia. }
      assert (E2 : 2 ^ 53 = 2 ^ (53 - c) * 2 ^ c).
      { rewrite <- Z.pow_add_r by lia. f_equal; lia. }
      rewrite E1, E2, <- Hv in Hm. split; nia. }
    rewrite Hd, fexp_normal by (subst c; lia).
    replace (53 - c + ez - 53) with e by (subst c; lia).
    unfold shl_align.
    destruct (e - ez) as [|d|d] eqn:Ed; try lia.
    + replace c with 0 in Hv by (subst c; lia). change (2 ^ 0) with 1 in Hv.
      assert (pm = m) by (apply Pos2Z.inj; lia). subst pm.
      replace ez with e by lia. apply binary_round_aux_exact; lia.
    + assert (Pos.iter xO pm d = m) as ->.
      { apply Pos2Z.inj. rewrite iter_xO, <- Hv. f_equal; f_equal; subst c; lia. }
      apply binary_round_aux_exact; lia.
  - set (c := e - ez) in *.
    assert (Hc : 0 < c) by (subst c; lia).
    assert (Hpc : 0 < 2 ^ c) by (apply Z.pow_pos_nonneg; lia).
    assert (Hd : Z.pos (digits2_pos pm) = 53 + c).
    { apply digits2_pos_unique.
      assert (E1 : 2 ^ (53 + c - 1) = 2 ^ 52 * 2 ^ c).
      { rewrite <- Z.pow_add_r by lia. f_equal; lia. }
      assert (E2 : 2 ^ (53 + c) = 2 ^ 53 * 2 ^ c).
      { rewrite <- Z.pow_add_r by lia. f_equal; lia. }
      rewrite E1, E2, Hv. split; nia. }
    rewrite Hd, fexp_normal by (subst c; lia).
    replace (53 + c + ez - 53) with e by (subst c; lia).
    unfold shl_align. fold c.
    destruct c as [|k|k] eqn:Ec; try lia.
    unfold binary_round_aux. unfold shr_fexp at 1. cbn [Zdigits2].
    rewrite Hd, fexp_normal by lia.
    replace (53 + Z.pos k + ez - 53 - ez) with (Z.pos k) by lia.
    unfold shr. cbn [shr_record_of_loc]. rewrite Hv.
    rewrite iter_shr_exact by lia.
    cbn [shr_m loc_of_shr_record round_nearest_even].
    replace (ez + Z.pos k) with e by lia.
    rewrite (shr_fexp_53_54 (Z.pos m) e loc_Exact) by lia.
    replace (Z.pos m <? 2 ^ 53) with true by (symmetry; apply Z.ltb_lt; lia).
    cbn [shr_record_of_loc shr_m].
    replace (e <=? 1024 - 53) with true by (symmetry; apply Z.leb_le; lia).
    reflexivity.
Qed.

Lemma shl_align_value m e ez :
  ez <= e ->
  Z.pos (fst (shl_align m e ez)) = Z.pos m * 2 ^ (e - ez).
Proof.
  intros H. unfold shl_align. destruct (ez - e) as [|d|d] eqn:Ed; try lia; cbn [fst].
  - replace (e - ez) with 0 by lia. change (2 ^ 0) with 1. lia.
  - rewrite iter_xO. f_equal; f_equal; lia.
Qed.

(** The sign goes through the rounding unchanged. *)
Lemma binary_round_aux_opp m e l :
  binary_round_aux 53 1024 true m e l = SFopp (binary_round_aux 53 1024 false m e l).
Proof.
  unfold binary_round_aux.
  destruct (shr_fexp 53 1024 m e l) as [r e'].
  destruct (shr_fexp 53 1024 _ e' loc_Exact) as [r' e''].
  destruct (shr_m r'); [reflexivity | | reflexivity].
  destruct (e'' <=? 1024 - 53); reflexivity.
Qed.

Lemma binary_normalize_opp p e :
  binary_normalize 53 1024 (Z.neg p) e false
  = SFopp (binary_normalize 53 1024 (Z.pos p) e false).
Proof.
  unfold binary_normalize, binary_round.
  destruct (shl_align p e _) as [mz ez]. apply binary_round_aux_opp.
Qed.

(** An integer [z] with [0 < |z| < 2^53] is the normal number of value
    [z]. *)
Lemma of_Z_int z :
  z <> 0 -> Z.abs z < 2 ^ 53 ->
  exists m e, of_Z z = S754_finite (z <? 0) m e
    /\ 2 ^ 52 <= Z.pos m < 2 ^ 53 /\ -52 <= e <= 0
    /\ Z.pos m = Z.abs z * 2 ^ (- e).
Proof.
  intros Hz Ha. destruct z as [|p|p]; [congruence| |].
  - destruct (of_Z_normal (Z.pos p) ltac:(lia)) as (m & e & E & H).
    exists m, e. split; [exact E | exact H].
  - destruct (of_Z_normal (Z.pos p) ltac:(lia)) as (m & e & E & H).
    exists m, e. split; [|exact H].
    unfold of_Z, prec, emax in *. rewrite binary_normalize_opp, E. reflexivity.
Qed.

(** An integer at a scale [2^(-ez)] is normalised to the integer. *)
Lemma normalize_int z M ez :
  Z.abs z < 2 ^ 53 -> -52 <= ez <= 0 -> M = z * 2 ^ (- ez) ->
  binary_normalize 53 1024 M ez false = of_Z z.
Proof.
  intros Hz Hez HM.
  assert (Hp : 0 < 2 ^ (- ez)) by (apply Z.pow_pos_nonneg; lia).
  destruct z as [|p|p].
  - subst M. reflexivity.
  - destruct M as [|pm|pm]; try nia.
    destruct (of_Z_normal (Z.pos p) ltac:(lia)) as (mc & ec & -> & Hmc & Hec & Hvc).
    apply normalize_canonical; [exact Hmc | lia |].
    destruct (Z.le_gt_cases ec ez) as [H|H]; [left|right]; (split; [lia|]).
    + rewrite HM, Hvc, <- Z.mul_assoc, <- Z.pow_add_r by lia. f_equal; f_equal; lia.
    + rewrite HM, Hvc, <- Z.mul_assoc, <- Z.pow_add_r by lia. f_equal; f_equal; lia.
  - destruct M as [|pm|pm]; try nia.
    unfold of_Z, prec, emax. rewrite !binary_normalize_opp. f_equal.
    destruct (of_Z_normal (Z.pos p) ltac:(lia)) as (mc & ec & E & Hmc & Hec & Hvc).
    unfold of_Z, prec, emax in E. rewrite E.
    assert (HM' : Z.pos pm = Z.pos p * 2 ^ (- ez)) by lia.
    apply normalize_canonical; [exact Hmc | lia |].
    destruct (Z.le_gt_cases ec ez) as [H|H]; [left|right]; (split; [lia|]).
    + rewrite HM', Hvc, <- Z.mul_assoc, <- Z.pow_add_r by lia. f_equal; f_equal; lia.
    + rewrite HM', Hvc, <- Z.mul_assoc, <- Z.pow_add_r by lia. f_equal; f_equal; lia.
Qed.

(** The signed aligned mantissa of an integer at an exponent [ez] not
    above its own. *)
Lemma aligned_int z m e ez :
  Z.pos m = Z.abs z * 2 ^ (- e) -> ez <= e -> e <= 0 ->
  cond_Zopp (z <? 0) (Z.pos (fst (shl_align m e ez))) = z * 2 ^ (- ez).
Proof.
  intros Hm Hez He. rewrite shl_align_value by lia. rewrite Hm.
  rewrite <- Z.mul_assoc, <- Z.pow_add_r by lia.
  replace (- e + (e - ez)) with (- ez) by lia.
  unfold cond_Zopp. destruct (Z.ltb_spec z 0); lia.
Qed.

(** Sums and differences of integers are exact as long as the operands
    and the result stay below [2^53] in magnitude. *)
Lemma add_ints a b :
  Z.abs a < 2 ^ 53 -> Z.abs b < 2 ^ 53 -> Z.abs (a + b) < 2 ^ 53 ->
  add (of_Z a) (of_Z b) = of_Z (a + b).
Proof.
  intros Ha Hb Hab.
  destruct (Z.eq_dec a 0) as [->|Na].
  { change (of_Z 0) with (S754_zero false). cbn [Z.add].
    destruct (Z.eq_dec b 0) as [->|Nb]; [reflexivity|].
    destruct (of_Z_int b Nb Hb) as (mb & eb & -> & _). reflexivity. }
  destruct (Z.eq_dec b 0) as [->|Nb].
  { change (of_Z 0) with (S754_zero false). rewrite Z.add_0_r.
    destruct (of_Z_int a Na Ha) as (ma & ea & -> & _). reflexivity. }
  destruct (of_Z_int a Na Ha) as (ma & ea & -> & Hma & Hea & Hva).
  destruct (of_Z_int b Nb Hb) as (mb & eb & -> & Hmb & Heb & Hvb).
  unfold add, SFadd, prec, emax. cbv zeta.
  rewrite (aligned_int a ma ea _ Hva) by lia.
  rewrite (aligned_int b mb eb _ Hvb) by lia.
  apply normalize_int; [exact Hab | lia | ring].
Qed.

Lemma sub_ints a b :
  Z.abs a < 2 ^ 53 -> Z.abs b < 2 ^ 53 -> Z.abs (a - b) < 2 ^ 53 ->
  sub (of_Z a) (of_Z b) = of_Z (a - b).
Proof.
  intros Ha Hb Hab.
  destruct (Z.eq_dec b 0) as [->|Nb].
  { change (of_Z 0) with (S754_zero false). rewrite Z.sub_0_r.
    destruct (Z.eq_dec a 0) as [->|Na]; [reflexivity|].
    destruct (of_Z_int a Na Ha) as (ma & ea & -> & _). reflexivity. }
  destruct (Z.eq_dec a 0) as [->|Na].
  { change (of_Z 0) with (S754_zero false). cbn [Z.sub Z.add].
    destruct (of_Z_int b Nb Hb) as (mb & eb & Eb & Hmb & Heb & Hvb).
    destruct (of_Z_int (- b) ltac:(lia) ltac:(lia)) as (mb' & eb' & Eb' & Hmb' & Heb' & Hvb').
    rewrite Eb, Eb'. cbn [sub SFsub].
    assert (eb' = eb /\ mb' = mb) as [-> ->].
    { rewrite Z.abs_opp in Hvb'.
      assert (Hp : 0 < Z.abs b) by lia.
      destruct (Z.lt_trichotomy eb eb') as [H|[H|H]].
      - exfalso. assert (2 * 2 ^ (- eb') <= 2 ^ (- eb)).
        { replace (- eb) with (- eb' + (eb' - eb)) by lia.
          rewrite Z.pow_add_r by lia.
          assert (2 ^ 1 <= 2 ^ (eb' - eb)) by (apply Z.pow_le_mono_r; lia).
          assert (0 < 2 ^ (- eb')) by (apply Z.pow_pos_nonneg; lia).
          change (2 ^ 1) with 2 in *. nia. }
        change (2 ^ 53) with (2 * 2 ^ 52) in *. nia.
      - subst eb'. split; [reflexivity|]. apply Pos2Z.inj. lia.
      - exfalso. assert (2 * 2 ^ (- eb) <= 2 ^ (- eb')).
        { replace (- eb') with (- eb + (eb - eb')) by lia.
          rewrite Z.pow_add_r by lia.
          assert (2 ^ 1 <= 2 ^ (eb - eb')) by (apply Z.pow_le_mono_r; lia).
          assert (0 < 2 ^ (- eb)) by (apply Z.pow_pos_nonneg; lia).
          change (2 ^ 1) with 2 in *. nia. }
        change (2 ^ 53) with (2 * 2 ^ 52) in *. nia. }
    f_equal. destruct (Z.ltb_spec b 0), (Z.ltb_spec (- b) 0); try reflexivity; lia. }
  destruct (of_Z_int a Na Ha) as (ma & ea & -> & Hma & Hea & Hva).
  destruct (of_Z_int b Nb Hb) as (mb & eb & -> & Hmb & Heb & Hvb).
  unfold sub, SFsub, prec, emax. cbv zeta.
  rewrite (aligned_int a ma ea _ Hva) by lia.
  rewrite (aligned_int b mb eb _ Hvb) by lia.
  apply normalize_int; [exact Hab | lia | ring].
Qed.

End CountFacts.

(* ------------------------------------------------------------------ *)
(** * The attribution to a change set, in numbers *)

Section AttributionProperties.

Import Spec Clover Behaviour Entry.

Lemma rangeLines_nonneg l :
  Forall (fun range : Z * Z => 0 <= fst range <= snd range + 1 /\ snd range < 2 ^ 52) l ->
  0 <= rangeLines l.
Proof.
  unfold rangeLines.
  induction 1 as [|[a b] l [H1 H2] Hl IH]; cbn [fold_right fst snd] in *; lia.
Qed.

Lemma totalRangeLines_fold l : forall acc,
  Forall (fun range : Z * Z => 0 <= fst range <= snd range + 1 /\ snd range < 2 ^ 52) l ->
  0 <= acc -> acc + rangeLines l < 2 ^ 53 ->
  fold_left (fun sum range => add sum (add (sub (snd range) (fst range)) (of_Z 1)))
            (map (fun range : Z * Z => (of_Z (fst range), of_Z (snd range))) l)
            (of_Z acc)
  = of_Z (acc + rangeLines l).
Proof.
  induction l as [|[a b] l IH]; intros acc Hl Hacc Hsum.
  - cbn. rewrite Z.add_0_r. reflexivity.
  - inversion Hl as [|? ? [H1 H2] Hl']; subst. cbn [fst snd] in *.
    pose proof (rangeLines_nonneg l Hl') as Hn.
    change (rangeLines ((a, b) :: l)) with (b - a + 1 + rangeLines l) in *.
    cbn [map fold_left fst snd].
    change (2 ^ 52) with 4503599627370496 in *.
    assert (E : add (of_Z acc) (add (sub (of_Z b) (of_Z a)) (of_Z 1))
                = of_Z (acc + (b - a + 1))).
    { rewrite sub_ints, add_ints, add_ints
        by (change (2 ^ 53) with 9007199254740992 in *; lia).
      reflexivity. }
    rewrite E, IH by (try assumption; lia).
    f_equal. lia.
Qed.

(** The estimate of one total: [Math.round(t * p)] with the proportion
    [p] of the touched lines [r] to [t]. *)
Lemma estimate_total t r :
  0 <= t < 2 ^ 53 -> 0 <= r < 2 ^ 48 ->
  round (mul (of_Z t) (proportionOf (of_Z r) (of_Z t)))
  = of_Z (if t =? 0 then 0 else r).
Proof.
  intros Ht Hr. unfold proportionOf.
  destruct (Z.eqb_spec t 0) as [->|Nt]; [vm_compute; reflexivity|].
  destruct (of_Z_normal t ltac:(lia)) as (m & e & E & _).
  replace (gtb (of_Z t) (of_Z 0)) with true by (rewrite E; reflexivity).
  destruct (Z.eq_dec r 0) as [->|Nr].
  - rewrite E. reflexivity.
  - apply round_mul_div; lia.
Qed.

Lemma orZero_count z : 0 <= z < 2 ^ 53 -> Clover.orZero (Some (of_Z z)) = of_Z z.
Proof.
  intros _. reflexivity.
Qed.

(** X16: for a touched file with line ranges the three estimated totals do
    not depend on the file: each is the number of touched lines itself,
    whatever the count of statements, methods or conditionals of the
    file is, unless that count is zero, which stays zero. *)
Theorem estimate_totals_are_the_touched_lines
        (m : CloverXMLMetrics) (lines : list LineInfo) (t mt k r : Z) :
  statements m = Some (of_Z t) -> methods m = Some (of_Z mt) ->
  conditionals m = Some (of_Z k) ->
  0 <= t < 2 ^ 53 -> 0 <= mt < 2 ^ 53 -> 0 <= k < 2 ^ 53 ->
  totalRangeLines (lineRanges lines) = of_Z r -> 0 <= r < 2 ^ 48 ->
  sum_statements (estimate m lines) = of_Z (if t =? 0 then 0 else r)
  /\ sum_methods (estimate m lines) = of_Z (if mt =? 0 then 0 else r)
  /\ sum_conditionals (estimate m lines) = of_Z (if k =? 0 then 0 else r).
Proof.
  intros Hs Hm Hk Ht Hmt Hkk Hr Hrr. unfold estimate. cbv zeta.
  cbn [sum_statements sum_methods sum_conditionals].
  rewrite Hs, Hm, Hk, Hr, !orZero_count by assumption. cbn [Number].
  repeat split; apply estimate_total; assumption.
Qed.

Lemma estimate_totals_are_the_touched_lines_witness :
  sum_statements (estimate sample_metrics [LineRange (of_Z 1) (of_Z 10)]) = of_Z 10
  /\ sum_methods (estimate sample_metrics [LineRange (of_Z 1) (of_Z 10)]) = of_Z 10
  /\ sum_conditionals (estimate sample_metrics [LineRange (of_Z 1) (of_Z 10)]) = of_Z 0.
Proof.
  apply (estimate_totals_are_the_touched_lines sample_metrics
           [LineRange (of_Z 1) (of_Z 10)] 100 20 0 10);
    try reflexivity; try (vm_compute; split; congruence).
Defined.

Lemma split_lacks c s : lacks c s = true -> JSString.split c s = [s].
Proof.
  induction s as [|a r IH]; [reflexivity|]. cbn.
  destruct (Ascii.eqb a c); [discriminate|]. cbn. intros H.
  rewrite (IH H). reflexivity.
Qed.

Lemma includes_lacks c s :
  lacks c s = true -> JSString.includes s (String c EmptyString) = false.
Proof.
  induction s as [|a r IH]; [reflexivity|]. cbn [lacks JSString.includes String.prefix].
  destruct (Ascii.eqb a c) eqn:E; [discriminate|]. cbn [negb andb]. intros H.
  destruct (ascii_dec c a) as [->|_]; [rewrite Ascii.eqb_refl in E; discriminate|].
  exact (IH H).
Qed.

Lemma digits_lack_dash d :
  lacks "-" (DecimalString.NilEmpty.string_of_uint d) = true.
Proof. induction d; cbn; auto. Qed.

(** The print of a count is a string of digits that reads as the
    count. *)
Lemma of_Z_digits z :
  0 <= z ->
  exists d, JSString.of_Z z = DecimalString.NilEmpty.string_of_uint d
            /\ Z.of_uint d = z.
Proof.
  intros Hz. destruct z as [|p|p]; [| |lia].
  - exists (Decimal.D0 Decimal.Nil). split; reflexivity.
  - exists (Pos.to_uint p). unfold JSString.of_Z. cbn [Z.to_int].
    cbn [DecimalString.NilZero.string_of_int]. split.
    + unfold DecimalString.NilZero.string_of_uint.
      pose proof (DecimalPos.Unsigned.to_uint_nonnil p) as Hn.
      destruct (Pos.to_uint p); [congruence|reflexivity..].
    + unfold Z.of_uint. rewrite DecimalPos.Unsigned.of_to. reflexivity.
Qed.

Lemma digitsNumber_of_Z z : 0 <= z -> digitsNumber (JSString.of_Z z) = Some (of_Z z).
Proof.
  intros Hz. destruct (of_Z_digits z Hz) as (d & -> & <-).
  unfold digitsNumber. rewrite DecimalString.NilEmpty.usu. reflexivity.
Qed.

(** A range written as [start-end] is read back as that range. *)
Lemma range_string_read s e :
  0 <= s -> 0 <= e ->
  lineInfoOf (EntryString (JSString.of_Z s ++ "-" ++ JSString.of_Z e))
  = Some (LineRange (of_Z s) (of_Z e)).
Proof.
  intros Hs He. unfold lineInfoOf.
  destruct (of_Z_digits s Hs) as (ds & Es & Vs).
  destruct (of_Z_digits e He) as (de & Ee & Ve).
  assert (Hi : JSString.includes (JSString.of_Z s ++ "-" ++ JSString.of_Z e) "-" = true).
  { apply includes_spec. exists (JSString.of_Z s), (JSString.of_Z e). reflexivity. }
  rewrite Hi.
  change (JSString.of_Z s ++ "-" ++ JSString.of_Z e)%string
    with (JSString.of_Z s ++ String "-" (JSString.of_Z e))%string.
  rewrite split_app.
  rewrite (split_lacks "-" (JSString.of_Z s)) by (rewrite Es; apply digits_lack_dash).
  rewrite (split_lacks "-" (JSString.of_Z e)) by (rewrite Ee; apply digits_lack_dash).
  cbn [app]. rewrite !digitsNumber_of_Z by lia. reflexivity.
Qed.

(** X17: from the hunk to the line range: what [getPullRequestChanges] writes
    for a hunk, [fromString] reads back.  A hunk of one line is that
    line; any other hunk of [count] lines that start at [start] is the
    range from [start] to [start + count - 1], except the empty hunk at
    line 0, whose string ["0--1"] is read as the range from 0 to 0. *)
Theorem hunk_entry_is_read_back (h : Hunk) :
  0 <= new_start h -> 0 <= hunkCount h ->
  lineInfoOf (hunkEntry h)
  = Some (if hunkCount h =? 1 then LineNumber (of_Z (new_start h))
          else if new_start h + hunkCount h - 1 <? 0
               then LineRange (of_Z 0) (of_Z 0)
               else LineRange (of_Z (new_start h))
                              (of_Z (new_start h + hunkCount h - 1))).
Proof.
  intros Hs Hc. unfold hunkEntry. cbv zeta. fold (hunkCount h).
  set (s := new_start h) in *. set (c := hunkCount h) in *. clearbody s c.
  destruct (Z.eqb_spec c 1) as [->|Nc].
  - replace (s =? s + 1 - 1) with true by (symmetry; apply Z.eqb_eq; lia).
    reflexivity.
  - replace (s =? s + c - 1) with false by (symmetry; apply Z.eqb_neq; lia).
    destruct (Z.ltb_spec (s + c - 1) 0) as [Hneg|Hpos].
    + assert (s = 0) as -> by lia. assert (c = 0) as -> by lia. reflexivity.
    + apply range_string_read; assumption.
Qed.

Lemma hunk_entry_is_read_back_witness :
  lineInfoOf (hunkEntry (mkHunk 10 (Some 3))) = Some (LineRange (of_Z 10) (of_Z 12)).
Proof.
  apply (hunk_entry_is_read_back (mkHunk 10 (Some 3))); cbn; lia.
Defined.

Lemma hunk_ranges hs :
  Forall (fun h => 1 <= new_start h /\ 0 <= hunkCount h) hs ->
  exists infos,
    map lineInfoOf (map hunkEntry hs) = map Some infos
    /\ lineRanges infos
       = map (fun range : Z * Z => (of_Z (fst range), of_Z (snd range)))
             (map hunkRange hs).
Proof.
  induction 1 as [|h hs [Hs Hc] Hhs (infos & E1 & E2)].
  - exists []. split; reflexivity.
  - assert (Hh : lineInfoOf (hunkEntry h)
                 = Some (if hunkCount h =? 1 then LineNumber (of_Z (new_start h))
                         else LineRange (of_Z (new_start h))
                                        (of_Z (new_start h + hunkCount h - 1)))).
    { unfold hunkEntry. cbv zeta. fold (hunkCount h).
      destruct (Z.eqb_spec (hunkCount h) 1) as [E|N].
      - rewrite E.
        replace (new_start h =? new_start h + 1 - 1) with true
          by (symmetry; apply Z.eqb_eq; lia).
        reflexivity.
      - replace (new_start h =? new_start h + hunkCount h - 1) with false
          by (symmetry; apply Z.eqb_neq; lia).
        apply range_string_read; lia. }
    eexists (_ :: infos). cbn [map]. rewrite Hh, E1. split; [reflexivity|].
    cbn [lineRanges flat_map]. fold (lineRanges infos). rewrite E2.
    destruct (Z.eqb_spec (hunkCount h) 1) as [E|N];
      cbn [app map hunkRange fst snd]; [|reflexivity].
    rewrite E. replace (new_start h + 1 - 1) with (new_start h) by lia. reflexivity.
Qed.

Lemma rangeLines_hunks hs : rangeLines (map hunkRange hs) = hunkLines hs.
Proof.
  unfold rangeLines, hunkLines. induction hs as [|h hs IH]; [reflexivity|].
  cbn [map fold_right hunkRange fst snd]. rewrite IH. lia.
Qed.

(** X18: the hunks of a patch, read by [fromString]: every entry is read, the
    touched lines are the sum of the counts of the hunks, and for a file
    with statements the estimated number of statements is that sum. *)
Theorem hunks_count_their_lines
        (hs : list Hunk) (m : CloverXMLMetrics) (t : Z) :
  Forall (fun h => 1 <= new_start h /\ 0 <= hunkCount h
                   /\ new_start h + hunkCount h <= 2 ^ 52) hs ->
  hunkLines hs < 2 ^ 48 ->
  statements m = Some (of_Z t) -> 0 < t < 2 ^ 53 ->
  exists infos,
    map lineInfoOf (map hunkEntry hs) = map Some infos
    /\ totalRangeLines (lineRanges infos) = of_Z (hunkLines hs)
    /\ sum_statements (estimate m infos) = of_Z (hunkLines hs).
Proof.
  intros Hhs Hsum Hm Ht.
  destruct (hunk_ranges hs) as (infos & E1 & E2).
  { eapply Forall_impl; [|exact Hhs]. cbn. intros h H. lia. }
  assert (Hr : Forall (fun range : Z * Z => 0 <= fst range <= snd range + 1
                                            /\ snd range < 2 ^ 52)
                      (map hunkRange hs)).
  { apply Forall_map. eapply Forall_impl; [|exact Hhs]. cbn. intros h H. lia. }
  assert (Hn : 0 <= hunkLines hs).
  { rewrite <- rangeLines_hunks. apply rangeLines_nonneg. exact Hr. }
  assert (Et : totalRangeLines (lineRanges infos) = of_Z (hunkLines hs)).
  { unfold totalRangeLines. rewrite E2.
    rewrite (totalRangeLines_fold _ 0 Hr ltac:(lia)).
    - rewrite rangeLines_hunks. reflexivity.
    - rewrite rangeLines_hunks. change (2 ^ 48) with 281474976710656 in Hsum.
      change (2 ^ 53) with 9007199254740992. lia. }
  exists infos. split; [exact E1|]. split; [exact Et|].
  unfold estimate. cbv zeta. cbn [sum_statements]. rewrite Et, Hm. cbn [Number].
  rewrite estimate_total by lia.
  replace (t =? 0) with false by (symmetry; apply Z.eqb_neq; lia). reflexivity.
Qed.

Lemma hunks_count_their_lines_witness :
  exists infos,
    map lineInfoOf (map hunkEntry [mkHunk 1 (Some 7); mkHunk 20 None]) = map Some infos
    /\ totalRangeLines (lineRanges infos) = of_Z 8
    /\ sum_statements (estimate sample_metrics infos) = of_Z 8.
Proof.
  apply (hunks_count_their_lines [mkHunk 1 (Some 7); mkHunk 20 None] sample_metrics 100).
  - repeat constructor; cbn; lia.
  - cbn. lia.
  - reflexivity.
  - lia.
Defined.

(** X19: what [getPullRequestChanges] returns holds no file without lines: an
    entry stands for a file of the response that has a patch with at
    least one hunk header, and lists one element for each header, in
    their order. *)
Theorem changesOf_keeps_files_with_hunks
        (data : list (string * option (list Hunk))) (file : string)
        (lines : list LineEntry) :
  In (file, lines) (changesOf data)
  <-> exists hunks, In (file, Some hunks) data /\ hunks <> []
                    /\ lines = map hunkEntry hunks.
Proof.
  unfold changesOf. rewrite in_flat_map. split.
  - intros ([f [hs|]] & Hin & H); cbn [fst snd] in H; [|elim H].
    destruct hs as [|h hs]; cbn in H; [elim H|].
    destruct H as [[= <- <-]|[]]. exists (h :: hs). repeat split; [exact Hin | discriminate].
  - intros (hs & Hin & Hne & ->). exists (file, Some hs). split; [exact Hin|].
    cbn [fst snd]. destruct hs as [|h hs]; [congruence|]. left. reflexivity.
Qed.

End AttributionProperties.

(* ------------------------------------------------------------------ *)
(** * From the report to the folders, file by file *)

Section PlacementProperties.

Import Spec Clover Behaviour.

(** X21: every file of the input is filed once under the folder of its
    effective name, the [path] attribute when it is not empty and the
    [name] otherwise: [processFilesIntoFolders] has a folder under that
    key, and the folder holds a record with the file name of that path
    and the metrics of the file. *)
Theorem every_file_lands_in_its_folder
        (files : list CloverFileXML) (file : CloverFileXML) :
  In file files ->
  let n := match attr_path file with
           | Some p => if JSString.truthy p then p else attr_name file
           | None => attr_name file
           end in
  exists d,
    map_get (processFilesIntoFolders files) (extractFolderFromPath n) = Some d
    /\ folder_name d = extractFolderFromPath n
    /\ In (mkFile (extractFileNameFromPath n) (createFileMetrics (file_metrics file) file))
          (Types.files d).
Proof.
  intros Hin. cbv zeta.
  set (n := match attr_path file with
            | Some p => if JSString.truthy p then p else attr_name file
            | None => attr_name file
            end).
  set (file' := mkCloverFileXML n (attr_path file) (file_metrics file) (file_line file)).
  assert (Hn : In file' (normalizeFileNames files)).
  { unfold normalizeFileNames. apply in_map_iff. exists file. split; [reflexivity | exact Hin]. }
  assert (Hs : In file' (sortFilesByName (normalizeFileNames files))).
  { unfold sortFilesByName.
    apply (Permutation_in _ (Permutation_sym (proj2 (sort_fold _ [] (Sorted_nil _))))).
    exact Hn. }
  assert (Hp : In (file', extractFolderFromPath n)
                  (extractFolderPaths (sortFilesByName (normalizeFileNames files)))).
  { unfold extractFolderPaths. apply in_map_iff. exists file'. split; [reflexivity | exact Hs]. }
  unfold processFilesIntoFolders, groupFilesByFolder. cbv zeta.
  rewrite groupFiles_get. cbv zeta. cbn [map_get].
  set (here := List.filter _ _).
  assert (Hh : In (file', extractFolderFromPath n) here).
  { apply filter_In. split; [exact Hp | apply String.eqb_refl]. }
  destruct here as [|h0 here0] eqn:Eh; [elim Hh|]. rewrite <- Eh in *.
  eexists. split; [reflexivity|]. cbn [folder_name Types.files]. split; [reflexivity|].
  apply in_map_iff. exists (file', extractFolderFromPath n). split; [|exact Hh].
  reflexivity.
Qed.

Lemma every_file_lands_in_its_folder_witness :
  exists d,
    map_get (processFilesIntoFolders [sample_file]) "/ws/src" = Some d
    /\ folder_name d = "/ws/src"%string
    /\ In (mkFile "a.ts" (createFileMetrics sample_metrics sample_file)) (Types.files d).
Proof.
  apply (every_file_lands_in_its_folder [sample_file] sample_file).
  left. reflexivity.
Defined.

End PlacementProperties.

(* ------------------------------------------------------------------ *)
(** * The two ends of a ratio *)

Section RatioProperties.

Import Spec.

Lemma div_self m e :
  2 ^ 52 <= Z.pos m < 2 ^ 53 -> -400 <= e <= 400 ->
  div (S754_finite false m e) (S754_finite false m e) = of_Z 1.
Proof.
  intros Hm He.
  unfold div, prec, emax, SFdiv, SFdiv_core_binary. cbn [Zdigits2 xorb].
  rewrite (digits2_pos_unique m 53) by (change (53 - 1) with 52; lia).
  rewrite fexp_normal by lia.
  replace (Z.min (53 + e - (53 + e) - 53) (e - e)) with (-53) by lia.
  replace (e - e - -53) with 53 by lia.
  rewrite Z.shiftl_mul_pow2 by lia.
  assert (E : Z.div_eucl (Z.pos m * 2 ^ 53) (Z.pos m) = (2 ^ 53, 0)).
  { rewrite (surjective_pairing (Z.div_eucl _ _)).
    change (fst (Z.div_eucl (Z.pos m * 2 ^ 53) (Z.pos m)))
      with ((Z.pos m * 2 ^ 53) / Z.pos m).
    change (snd (Z.div_eucl (Z.pos m * 2 ^ 53) (Z.pos m)))
      with ((Z.pos m * 2 ^ 53) mod Z.pos m).
    rewrite (Z.mul_comm (Z.pos m)), Z.div_mul, Z.mod_mul by lia. reflexivity. }
  rewrite E, new_location_0. vm_compute. reflexivity.
Qed.

(** X22: the two ends of a ratio are exact: for a positive total below
    [2^53], a file or a report that is covered in full has the fraction
    [1.0], and one that is not covered at all the fraction [0]. *)
Theorem ratio_of_all_and_of_nothing (t : Z) :
  0 < t < 2 ^ 53 ->
  percentual (newCoverage (of_Z t) (of_Z t)) = of_Z 1
  /\ percentual (newCoverage (of_Z t) (of_Z 0)) = of_Z 0.
Proof.
  intros Ht. rewrite !newCoverage_positive_total by exact Ht.
  destruct (of_Z_normal t Ht) as (m & e & -> & Hm & He & _). split.
  - rewrite div_self by lia. vm_compute. reflexivity.
  - reflexivity.
Qed.

Lemma ratio_of_all_and_of_nothing_witness :
  percentual (newCoverage (of_Z 7) (of_Z 7)) = of_Z 1
  /\ percentual (newCoverage (of_Z 7) (of_Z 0)) = of_Z 0.
Proof. apply (ratio_of_all_and_of_nothing 7). vm_compute. split; congruence. Defined.

End RatioProperties.

(* ------------------------------------------------------------------ *)
(** * The comment: [limitedFragment], the table and the summary *)

Section HtmlProperties.

Import Spec Clover Main Behaviour Html.

Variable percent : num -> string.
Variable grouped : num -> string.
Variable baseUrl : string.

(** The length of a string in code units: additive, and at most the
    number of bytes that write the string. *)
Variable length : string -> Z.
Hypothesis length_app : forall a b, length (a ++ b) = length a + length b.
Hypothesis length_nonneg : forall s, 0 <= length s.
Hypothesis length_bytes : forall s, length s <= Z.of_nat (String.length s).

Lemma concat_empty_cons x l :
  String.concat "" (x :: l) = (x ++ String.concat "" l)%string.
Proof.
  destruct l as [|y l]; cbn [String.concat]; [now rewrite str_app_nil_r | reflexivity].
Qed.

Lemma length_empty : length "" = 0.
Proof. pose proof (length_app "" "") as H. cbn in H. lia. Qed.

Lemma length_concat l : length (String.concat "" l) = totalLength length l.
Proof.
  induction l as [|x l IH]; [apply length_empty|].
  rewrite concat_empty_cons, length_app, IH. reflexivity.
Qed.

Lemma totalLength_nonneg l : 0 <= totalLength length l.
Proof.
  induction l as [|x l IH]; cbn; [lia|]. pose proof (length_nonneg x). unfold totalLength in IH. lia.
Qed.

Lemma totalLength_app l1 l2 :
  totalLength length (l1 ++ l2) = totalLength length l1 + totalLength length l2.
Proof. unfold totalLength. induction l1 as [|x l1 IH]; cbn; [reflexivity | rewrite IH; lia]. Qed.

Lemma limitedLoop_spec noSpaceLeft children : forall limit html,
  exists kept dropped,
    children = kept ++ dropped
    /\ limitedLoop length limit noSpaceLeft html children
       = (html ++ String.concat "" kept
          ++ match dropped with [] => "" | _ :: _ => noSpaceLeft end)%string
    /\ (0 <= limit -> totalLength length kept <= limit)
    /\ (limit < 0 -> kept = [])
    /\ (forall s rest, dropped = s :: rest -> limit < totalLength length kept + length s).
Proof.
  induction children as [|s children IH]; intros limit html; cbn [limitedLoop].
  - exists [], []. cbn. rewrite str_app_nil_r. repeat split; try lia. discriminate.
  - destruct (Z.gtb_spec (length s) limit) as [Hgt|Hle].
    + exists [], (s :: children). cbn. repeat split; try lia.
      intros s' rest [= <- <-]. lia.
    + destruct (IH (limit - length s) (html ++ s)%string)
        as (kept & dropped & -> & E & Hk & Hn & Hd).
      exists (s :: kept), dropped. pose proof (length_nonneg s) as Hs.
      split; [reflexivity|]. split; [|split; [|split]].
      * rewrite E, concat_empty_cons, !str_app_assoc. reflexivity.
      * intros H0. cbn. specialize (Hk ltac:(lia)). unfold totalLength in Hk. lia.
      * intros H0. lia.
      * intros s' rest Ed. specialize (Hd s' rest Ed). cbn.
        unfold totalLength in Hd. lia.
Qed.

(** X23: [limitedFragment] never cuts a child.  Its result is the
    concatenation of the leading children that fit together into the
    limit less the length of the notice, followed by the notice exactly
    when a child was left out; the first child left out is one that no
    longer fits. *)
Theorem limitedFragment_keeps_whole_children
        (limit : Z) (noSpaceLeft : string) (children : list string) :
  exists kept dropped,
    children = kept ++ dropped
    /\ limitedFragment length limit noSpaceLeft children
       = (String.concat "" kept
          ++ match dropped with [] => "" | _ :: _ => noSpaceLeft end)%string
    /\ (kept <> [] -> totalLength length kept <= limit - length noSpaceLeft)
    /\ (forall s rest, dropped = s :: rest ->
          limit - length noSpaceLeft < totalLength length kept + length s).
Proof.
  unfold limitedFragment.
  destruct (limitedLoop_spec noSpaceLeft children (limit - length noSpaceLeft) "")
    as (kept & dropped & E & R & Hk & Hn & Hd).
  exists kept, dropped. split; [exact E|]. split; [exact R|]. split; [|exact Hd].
  intros Hne. destruct (Z.lt_ge_cases (limit - length noSpaceLeft) 0) as [H|H].
  - elim Hne. exact (Hn H).
  - exact (Hk H).
Qed.

(** X24: when the notice itself fits into the limit, so does the result of
    [limitedFragment], whatever the children are; and children that fit
    together with the notice are all kept, without the notice. *)
Theorem limitedFragment_fits_the_limit
        (limit : Z) (noSpaceLeft : string) (children : list string) :
  length noSpaceLeft <= limit ->
  length (limitedFragment length limit noSpaceLeft children) <= limit
  /\ (totalLength length children + length noSpaceLeft <= limit ->
      limitedFragment length limit noSpaceLeft children = String.concat "" children).
Proof.
  intros Hn. unfold limitedFragment.
  destruct (limitedLoop_spec noSpaceLeft children (limit - length noSpaceLeft) "")
    as (kept & dropped & E & R & Hk & _ & Hd).
  specialize (Hk ltac:(lia)). rewrite R. cbn [String.append].
  pose proof (length_nonneg noSpaceLeft) as Hnn. split.
  - rewrite length_app, length_concat.
    destruct dropped; [rewrite length_empty|]; lia.
  - intros Hfit. destruct dropped as [|s rest].
    + rewrite E, app_nil_r, str_app_nil_r. reflexivity.
    + exfalso. specialize (Hd s rest eq_refl).
      rewrite E, totalLength_app in Hfit. cbn in Hfit.
      pose proof (totalLength_nonneg rest) as Hr. unfold totalLength in *. lia.
Qed.

(** X25: the body of the table never exceeds 61 536 code units, however many
    folders and files the statistics hold. *)
Theorem createTableBody_fits_the_comment
        (c : Stats) (icons : Icons) (o : option Stats)
        (showDelta showBranchesColumn : bool) :
  length (createTableBody percent grouped baseUrl length c icons o
                          showDelta showBranchesColumn)
  <= 65536 - 4000.
Proof.
  unfold createTableBody.
  destruct (List.length (folders c) =? 0)%nat.
  - etransitivity; [apply length_bytes|]. vm_compute. discriminate.
  - cbv zeta. unfold limitedFragment.
    set (rows := fold_left _ _ _).
    destruct (limitedLoop_spec truncatedRow rows (65536 - 4000 - length truncatedRow) "")
      as (kept & dropped & E & R & Hk & _ & _).
    assert (Ht : length truncatedRow <= 100).
    { etransitivity; [apply length_bytes|]. vm_compute. discriminate. }
    specialize (Hk ltac:(lia)). rewrite R. cbn [String.append].
    pose proof (length_nonneg truncatedRow) as Hnn.
    rewrite length_app, length_concat.
    destruct dropped; [rewrite length_empty|]; lia.
Qed.

(** X26: a file that the previous statistics do not hold gets no icon at all:
    the rows of a folder none of whose files is found in the previous
    statistics are the rows drawn without previous statistics, whatever
    the icons and the switch for the change per file. *)
Theorem new_files_carry_no_icon
        (icons icons' : Icons) (o : Stats) (showDelta showBranchesColumn : bool)
        (folderKey : string) (folder : Folder) :
  (forall f, In f (files folder) -> stats_get o folderKey (name f) = None) ->
  createFolderRows percent grouped baseUrl icons (Some o) showDelta showBranchesColumn
                   folderKey folder
  = createFolderRows percent grouped baseUrl icons' None false showBranchesColumn
                     folderKey folder.
Proof.
  intros Hnew. unfold createFolderRows. cbv zeta. f_equal.
  apply map_ext_in. intros f Hf. rewrite (Hnew f Hf). cbn [option_map].
  unfold line. reflexivity.
Qed.

Lemma total_truthy name icons c oldC s :
  total percent grouped name icons c oldC = Some s -> JSString.truthy s = true.
Proof.
  unfold total. destruct (gtb (Types.total c) (of_Z 0)); [|discriminate].
  intros [= <-]. reflexivity.
Qed.

(** X27: the summary names the metrics whose total is positive, in the order
    lines, methods, branches (the branches only when their column is
    shown), and leaves the others out: when no total is positive the
    text is just the heading, and the comment without table is that
    heading in a [span]. *)
Theorem summary_shows_the_positive_totals
        (c : Stats) (o : option Stats) (configs : Configs) :
  let shown :=
    List.filter (fun k => gtb (Types.total (metric (stats_total c) k)) (of_Z 0))
                (summaryKinds (showBranchesColumn configs)) in
  createSummaryText percent grouped c o configs
  = ("Summary - " ++
     String.concat " | "
       (map (fun k =>
               fragment [b [kindName k ++ ":"]; " ";
                         c2s percent grouped (metric (stats_total c) k); " ";
                         match o with
                         | None => ""
                         | Some o' =>
                             compare percent (metric (stats_total c) k)
                                     (metric (stats_total o') k) false (Html.icons configs)
                         end]) shown))%string
  /\ (shown = [] -> withTable configs = false ->
      html percent grouped baseUrl length c o configs = "<span>Summary - </span>"%string).
Proof.
  cbv zeta.
  assert (E : createSummaryText percent grouped c o configs
              = ("Summary - " ++
                 String.concat " | "
                   (map (fun k =>
                           fragment [b [kindName k ++ ":"]; " ";
                                     c2s percent grouped (metric (stats_total c) k); " ";
                                     match o with
                                     | None => ""
                                     | Some o' =>
                                         compare percent (metric (stats_total c) k)
                                                 (metric (stats_total o') k) false
                                                 (Html.icons configs)
                                     end])
                        (List.filter
                           (fun k => gtb (Types.total (metric (stats_total c) k)) (of_Z 0))
                           (summaryKinds (showBranchesColumn configs)))))%string).
  { unfold createSummaryText, summaryKinds, total, JSString.join. cbv zeta.
    f_equal. f_equal.
    destruct (showBranchesColumn configs), o as [o'|];
      cbn [app flat_map List.filter map metric option_map kindName];
      destruct (gtb (Types.total (lines (stats_total c))) (of_Z 0)),
               (gtb (Types.total (Types.methods (stats_total c))) (of_Z 0));
      try destruct (gtb (Types.total (branches (stats_total c))) (of_Z 0));
      reflexivity. }
  split; [exact E|].
  intros Hs Ht. unfold html. rewrite Ht, E, Hs. reflexivity.
Qed.

End HtmlProperties.

Lemma bytes_app (a b : string) :
  Z.of_nat (String.length (a ++ b))
  = Z.of_nat (String.length a) + Z.of_nat (String.length b).
Proof. rewrite str_length_app. lia. Qed.

Lemma bytes_nonneg (s : string) : 0 <= Z.of_nat (String.length s).
Proof. lia. Qed.

Lemma bytes_le (s : string) : Z.of_nat (String.length s) <= Z.of_nat (String.length s).
Proof. lia. Qed.

Lemma limitedFragment_keeps_whole_children_witness :
  exists kept dropped,
    ["<tr>a</tr>"; "<tr>b</tr>"]%string = kept ++ dropped
    /\ Html.limitedFragment (fun s => Z.of_nat (String.length s)) 15 "..."%string
                            ["<tr>a</tr>"; "<tr>b</tr>"]%string
       = (String.concat ""%string kept
          ++ match dropped with [] => ""%string | _ :: _ => "..."%string end)%string.
Proof.
  destruct (limitedFragment_keeps_whole_children
              (fun s => Z.of_nat (String.length s)) bytes_nonneg 15 "..."%string ["<tr>a</tr>"; "<tr>b</tr>"]%string)
    as (kept & dropped & E & R & _).
  exists kept, dropped. split; [exact E | exact R].
Defined.

Lemma limitedFragment_fits_the_limit_witness :
  Z.of_nat (String.length
              (Html.limitedFragment (fun s => Z.of_nat (String.length s)) 15 "..."%string
                                    ["<tr>a</tr>"; "<tr>b</tr>"]%string))
  <= 15.
Proof.
  refine (proj1 (limitedFragment_fits_the_limit
                   (fun s => Z.of_nat (String.length s)) bytes_app bytes_nonneg 15 "..."%string ["<tr>a</tr>"; "<tr>b</tr>"]%string _)).
  cbn. lia.
Defined.

Lemma createTableBody_fits_the_comment_witness :
  Z.of_nat (String.length
              (Html.createTableBody (fun _ => "-"%string) (fun _ => "0"%string) ""%string
                 (fun s => Z.of_nat (String.length s)) Spec.emptyStats
                 (Html.mkIcons "="%string "+"%string "-"%string "*"%string) None false true))
  <= 65536 - 4000.
Proof.
  apply (createTableBody_fits_the_comment (fun _ => "-"%string) (fun _ => "0"%string) ""%string
           (fun s => Z.of_nat (String.length s)) bytes_app bytes_nonneg bytes_le).
Defined.

Lemma new_files_carry_no_icon_witness :
  Html.createFolderRows (fun _ => "-"%string) (fun _ => "0"%string) ""%string
    (Html.mkIcons "="%string "+"%string "-"%string "*"%string) (Some Spec.emptyStats) true true
    "src"%string (mkFolder "src"%string [Spec.fileRecord (Spec.sample_file, "src"%string)])
  = Html.createFolderRows (fun _ => "-"%string) (fun _ => "0"%string) ""%string
      (Html.mkIcons ""%string ""%string ""%string ""%string) None false true
      "src"%string (mkFolder "src"%string [Spec.fileRecord (Spec.sample_file, "src"%string)]).
Proof.
  apply new_files_carry_no_icon. intros f _. reflexivity.
Defined.

(* ------------------------------------------------------------------ *)
(** * The chart: every file in one bucket *)

Section ChartProperties.

Import Spec Clover Main Behaviour Chart.

Lemma of_Z_10 : of_Z 10 = S754_finite false (5 * 2 ^ 50) (-49).
Proof. vm_compute. reflexivity. Qed.

(** Ten times a four-decimal fraction of the unit interval rounds to an
    integer from 0 to 10. *)
Lemma bucket_of_fraction x :
  fourDecimals x ->
  exists z, 0 <= z <= 10
            /\ mul (round (mul (Main.orZero x) (of_Z 10))) (of_Z 10) = of_Z (10 * z).
Proof.
  intros (n & Hn & ->). destruct n as [|p|p]; [exists 0; split; [lia|reflexivity]| |lia].
  unfold decimal4. rewrite of_Z_ten4.
  pose proof (digits2_pos_bounds p) as Hd.
  assert (Hd14 : Z.pos (digits2_pos p) <= 14).
  { destruct (Z.le_gt_cases (Z.pos (digits2_pos p)) 14) as [H|H]; [exact H|exfalso].
    assert (2 ^ 14 <= 2 ^ (Z.pos (digits2_pos p) - 1))
      by (apply Z.pow_le_mono_r; lia).
    change (2 ^ 14) with 16384 in *. change (10 ^ 4) with 10000 in *. lia. }
  pose proof (SFdiv_le_one p 0 (10 ^ 4 * 2 ^ 39) (-39)) as Hdiv. cbv zeta in Hdiv.
  set (s := 106 - Z.pos (digits2_pos p)) in *.
  destruct Hdiv as (m & e & -> & Hm & He & Hle & _).
  - change (10 ^ 4) with 10000 in *. change (2 ^ 53) with 9007199254740992. lia.
  - split; vm_compute; congruence.
  - lia.
  - lia.
  - replace (- (0 - -39 - s)) with (s - 39) by lia.
    assert (Hs : 92 <= s) by (subst s; lia).
    replace (s - 39) with (s - 53 + 14) by lia.
    replace s with (s - 53 + 53) at 1 by lia.
    rewrite !Z.pow_add_r by lia.
    assert (0 < 2 ^ (s - 53)) by (apply Z.pow_pos_nonneg; lia).
    change (Z.pos (10 ^ 4 * 2 ^ 39)) with (10000 * 2 ^ 39).
    change (2 ^ 53) with (2 ^ 39 * 2 ^ 14). change (10 ^ 4) with 10000 in Hn.
    assert (Z.pos p * 2 ^ 14 <= 10000 * 2 ^ 14) by lia.
    nia.
  - cbn [Main.orZero JSNumber.truthy]. rewrite of_Z_10.
    destruct (mul_normal m e (5 * 2 ^ 50) (-49) Hm ltac:(vm_compute; split; congruence)
                ltac:(lia) ltac:(lia))
      as (mp & ep & k & i & -> & Hmp & Hk & Hi & Hep & Hp).
    assert (Hneg : ep <= -47) by lia.
    unfold round. replace (0 <=? ep) with false by (symmetry; apply Z.leb_gt; lia).
    cbv zeta. unfold round_half_up.
    set (B := 2 ^ (- ep)).
    assert (HB : 2 ^ (1 - ep) = 2 * B).
    { subst B. replace (1 - ep) with (1 + - ep) by lia.
      rewrite Z.pow_add_r by lia. reflexivity. }
    assert (HD : 2 ^ (- e) * 2 ^ 49 = B * (2 ^ k * 2 ^ i)).
    { subst B. rewrite <- !Z.pow_add_r by lia. f_equal; lia. }
    assert (HBpos : 0 < B) by (subst B; apply Z.pow_pos_nonneg; lia).
    assert (Hme : Z.pos m <= 2 ^ (- e)).
    { destruct Hle as [Hle|[-> ->]]; [|reflexivity].
      assert (2 ^ 53 <= 2 ^ (- e)) by (apply Z.pow_le_mono_r; lia). lia. }
    assert (Hbe : 2 ^ 52 <= 2 ^ (- e)) by (apply Z.pow_le_mono_r; lia).
    rewrite HB. clearbody B.
    set (z := (2 * Z.pos mp + B) / (2 * B)).
    assert (Hz : 0 <= z <= 10).
    { split.
      - apply Z.div_pos; lia.
      - assert (z < 11); [|lia]. apply Z.div_lt_upper_bound; [lia|].
        change (Z.pos (5 * 2 ^ 50)) with (5 * 2 ^ 50) in Hp.
        set (Be := 2 ^ (- e)) in *. clearbody Be.
        change (2 ^ 49) with 562949953421312 in *.
        change (2 ^ 50) with 1125899906842624 in *.
        change (2 ^ 52) with 4503599627370496 in *.
        change (2 ^ 53) with 9007199254740992 in *.
        destruct Hk as [-> | ->], Hi as [-> | ->];
          change (2 ^ 0) with 1 in *; change (2 ^ 1) with 2 in *;
          change (2 ^ 52) with 4503599627370496 in *;
          change (2 ^ 53) with 9007199254740992 in *; nia. }
    exists z. split; [exact Hz|]. clearbody z.
    assert (Hc : z = 0 \/ z = 1 \/ z = 2 \/ z = 3 \/ z = 4 \/ z = 5 \/ z = 6 \/ z = 7
                 \/ z = 8 \/ z = 9 \/ z = 10) by lia.
    repeat (destruct Hc as [-> | Hc]); try subst z; vm_compute; reflexivity.
Qed.

Lemma eleven j :
  0 <= j <= 10 ->
  j = 0 \/ j = 1 \/ j = 2 \/ j = 3 \/ j = 4 \/ j = 5 \/ j = 6 \/ j = 7
  \/ j = 8 \/ j = 9 \/ j = 10.
Proof. lia. Qed.

Lemma sameKey_buckets j z :
  0 <= j <= 10 -> 0 <= z <= 10 ->
  sameKey (of_Z (10 * j)) (of_Z (10 * z)) = (j =? z).
Proof.
  intros Hj Hz. apply eleven in Hj. apply eleven in Hz.
  repeat (destruct Hj as [-> | Hj]); try subst j;
    repeat (destruct Hz as [-> | Hz]); try subst z; vm_compute; reflexivity.
Qed.

Lemma percs_buckets :
  (forall j, 0 <= j <= 10 -> percs (of_Z (10 * j)) = Some (of_Z 0))
  /\ (forall k, noBucket k -> percs k = None).
Proof.
  split.
  - intros j Hj. apply eleven in Hj.
    repeat (destruct Hj as [-> | Hj]); try subst j; vm_compute; reflexivity.
  - intros k Hk. unfold percs.
    replace (existsb _ _) with false; [reflexivity|]. symmetry. cbn [existsb].
    pose proof (Hk 0 ltac:(lia)) as H0. pose proof (Hk 1 ltac:(lia)) as H1.
    pose proof (Hk 2 ltac:(lia)) as H2. pose proof (Hk 3 ltac:(lia)) as H3.
    pose proof (Hk 4 ltac:(lia)) as H4. pose proof (Hk 5 ltac:(lia)) as H5.
    pose proof (Hk 6 ltac:(lia)) as H6. pose proof (Hk 7 ltac:(lia)) as H7.
    pose proof (Hk 8 ltac:(lia)) as H8. pose proof (Hk 9 ltac:(lia)) as H9.
    pose proof (Hk 10 ltac:(lia)) as H10.
    change (10 * 0) with 0 in H0. change (10 * 1) with 10 in H1.
    change (10 * 2) with 20 in H2. change (10 * 3) with 30 in H3.
    change (10 * 4) with 40 in H4. change (10 * 5) with 50 in H5.
    change (10 * 6) with 60 in H6. change (10 * 7) with 70 in H7.
    change (10 * 8) with 80 in H8. change (10 * 9) with 90 in H9.
    change (10 * 10) with 100 in H10.
    rewrite H0, H1, H2, H3, H4, H5, H6, H7, H8, H9, H10. reflexivity.
Qed.

Lemma assign_counted m count files z :
  counted m count files -> 0 <= z <= 10 -> files + 1 < 2 ^ 53 ->
  counted (assign m (of_Z (10 * z)))
          (fun j => if j =? z then count j + 1 else count j) (files + 1).
Proof.
  intros (Hc & Hsum & Hno) Hz Hf.
  assert (Hall : forall j, 0 <= j <= 10 -> 0 <= count j <= files).
  { intros j Hj. unfold sum11 in Hsum.
    pose proof (proj1 (Hc 0 ltac:(lia))). pose proof (proj1 (Hc 1 ltac:(lia))).
    pose proof (proj1 (Hc 2 ltac:(lia))). pose proof (proj1 (Hc 3 ltac:(lia))).
    pose proof (proj1 (Hc 4 ltac:(lia))). pose proof (proj1 (Hc 5 ltac:(lia))).
    pose proof (proj1 (Hc 6 ltac:(lia))). pose proof (proj1 (Hc 7 ltac:(lia))).
    pose proof (proj1 (Hc 8 ltac:(lia))). pose proof (proj1 (Hc 9 ltac:(lia))).
    pose proof (proj1 (Hc 10 ltac:(lia))).
    apply eleven in Hj. repeat (destruct Hj as [-> | Hj]); try subst j; lia. }
  split; [|split].
  - intros j Hj. unfold assign. rewrite (sameKey_buckets j z Hj Hz).
    destruct (Hc z Hz) as [Hz0 Ez]. rewrite Ez.
    destruct (Z.eqb_spec j z) as [->|Hne].
    + split; [lia|]. f_equal. apply add_ints.
      * pose proof (Hall z Hz). lia.
      * change (2 ^ 53) with 9007199254740992. lia.
      * pose proof (Hall z Hz). lia.
    + exact (Hc j Hj).
  - unfold sum11 in *. apply eleven in Hz.
    repeat (destruct Hz as [-> | Hz]); try subst z; cbn [Z.eqb Pos.eqb]; lia.
  - intros k Hk. unfold assign. rewrite (Hk z Hz). apply Hno. exact Hk.
Qed.

Lemma reduce_fold files : forall m count n,
  counted m count n ->
  Forall (fun f => fourDecimals (percentual (lines (metrics f)))) files ->
  n + Z.of_nat (List.length files) < 2 ^ 53 ->
  exists count',
    counted (fold_left assign (map bucketOf files) m) count'
            (n + Z.of_nat (List.length files)).
Proof.
  induction files as [|f files IH]; intros m count n Hm Hf Hn.
  - exists count. cbn. rewrite Z.add_0_r. exact Hm.
  - inversion Hf as [|? ? Hx Hf']; subst. cbn [map fold_left].
    destruct (bucket_of_fraction _ Hx) as (z & Hz & Ez).
    unfold bucketOf at 2. rewrite Ez.
    cbn [List.length] in Hn. rewrite Nat2Z.inj_succ in Hn.
    destruct (IH _ _ (n + 1) (assign_counted m count n z Hm Hz ltac:(lia)) Hf' ltac:(lia))
      as (count' & Hc').
    exists count'. cbn [List.length]. rewrite Nat2Z.inj_succ.
    replace (n + Z.succ (Z.of_nat (List.length files)))
      with (n + 1 + Z.of_nat (List.length files)) by lia.
    exact Hc'.
Qed.

Lemma flattened_files (m : FolderMap) : forall acc,
  fold_left (fun files f => files ++ Types.files (snd f)) m acc
  = acc ++ flat_map (fun f => Types.files (snd f)) m.
Proof.
  induction m as [|e m IH]; intros acc; cbn; [now rewrite app_nil_r|].
  rewrite IH, app_assoc. reflexivity.
Qed.

Lemma flattened_count (m : FolderMap) :
  List.length (flat_map (fun f => Types.files (snd f)) m) = fileCount m.
Proof.
  unfold fileCount, list_sum. induction m as [|e m IH]; [reflexivity|].
  cbn [flat_map map fold_right]. rewrite length_app, IH. reflexivity.
Qed.

(** X28: the chart counts every file once.  When the line ratio of every
    file is a four-decimal fraction of the unit interval, [reduce] puts
    each file into one of the eleven buckets 0, 10, ..., 100: each
    bucket holds a count, the eleven counts add up to the number of
    files, and the object has no other key. *)
Theorem reduce_counts_every_file (s : Stats) :
  (forall k d f, In (k, d) (folders s) -> In f (files d) ->
                 fourDecimals (percentual (lines (metrics f)))) ->
  Z.of_nat (fileCount (folders s)) < 2 ^ 53 ->
  exists count,
    (forall j, 0 <= j <= 10 ->
               0 <= count j /\ reduce s (of_Z (10 * j)) = Some (of_Z (count j)))
    /\ sum11 count = Z.of_nat (fileCount (folders s))
    /\ (forall k, noBucket k -> reduce s k = None).
Proof.
  intros Hf Hn. unfold reduce. cbv zeta. rewrite flattened_files. cbn [app].
  rewrite <- flattened_count in *.
  assert (Hall : Forall (fun f => fourDecimals (percentual (lines (metrics f))))
                        (flat_map (fun f => Types.files (snd f)) (folders s))).
  { apply Forall_forall. intros f Hin. apply in_flat_map in Hin.
    destruct Hin as ([k d] & Hkd & Hfd). exact (Hf k d f Hkd Hfd). }
  assert (H0 : counted percs (fun _ => 0) 0).
  { split; [|split].
    - intros j Hj. split; [lia|]. apply percs_buckets. exact Hj.
    - reflexivity.
    - apply percs_buckets. }
  destruct (reduce_fold _ percs (fun _ => 0) 0 H0 Hall ltac:(lia)) as (count & Hc).
  exists count. exact Hc.
Qed.

End ChartProperties.

Lemma reduce_counts_every_file_witness :
  exists count,
    Behaviour.sum11 count = 1
    /\ Chart.reduce (mkStats (Clover.createTotalMetrics Spec.sample_metrics)
                             [("src"%string,
                               mkFolder "src"
                                 [Spec.fileRecord (Spec.sample_file, "src"%string)])])
                    (of_Z 40)
       = Some (of_Z (count 4)).
Proof.
  destruct (reduce_counts_every_file
              (mkStats (Clover.createTotalMetrics Spec.sample_metrics)
                       [("src"%string,
                         mkFolder "src" [Spec.fileRecord (Spec.sample_file, "src"%string)])]))
    as (count & Hc & Hs & _).
  - intros k d f [[= <- <-]|[]] [<-|[]]. exists 4000. split; [lia|].
    vm_compute. reflexivity.
  - vm_compute. reflexivity.
  - exists count. split; [exact Hs|]. exact (proj2 (Hc 4 ltac:(lia))).
Defined.
